(** * Horse-racing weather collector: feature derivation and keyed persistence

    A shallow embedding of [weather.py], [collect_daily_weather.py] and
    [weather_collector.py].

    Modelling conventions.
    - JSON / Python scalars are the type [pyval].  Numbers (Python [int]
      and [float] alike) are exact rationals [Qc]; IEEE rounding of
      binary64 arithmetic is outside the model.
    - A Python exception that the source catches with [except Exception]
      and turns into [return None] is [None] in the [option] monad.
      Exceptions that are not caught are the constructor [Raise] of
      [outcome].
    - The outside world (wall clock, HTTP provider, [datetime] parsing and
      formatting) is the class [Platform]; every clock reading and every
      HTTP call consumes one tick of the [World].
    - A SQLite table is a list of rows, a row is a finite map from column
      names to SQL values; disk and connection errors are outside the
      model, constraint violations are inside it.
    - Python raises [OverflowError] where an [int] beyond the binary64
      range meets a [float] or is formatted as one, and the [sqlite3]
      driver raises it where it binds an [int] outside the signed 64-bit
      range; the callers catch both.  The arithmetic and the binding of
      the model are total.  Statements that promise a result are
      therefore made for numbers within the signed 64-bit range, where
      neither error can occur; statements about a result that was
      returned need no such bound.
    - A [string] is a byte string: the UTF-8 encoding of the program's
      text. *)

From Stdlib Require Import QArith Qcanon Lqa Sorted.
From stdpp Require Import base numbers list strings gmap.

Open Scope Qc_scope.

(** ** Python values *)

Module Py.

Inductive pyval : Type :=
  | PNone
  | PBool (b : bool)
  | PNum (q : Qc)
  | PStr (s : string).

#[global] Instance pyval_eq_dec : EqDecision pyval.
Proof. solve_decision. Defined.

(** Decimal literal [n / d]. *)
Definition dec (n : Z) (d : positive) : Qc := Q2Qc (n # d).

(** Numeric view of a value: [bool] is a subtype of [int] in Python;
    [None] and [str] raise [TypeError] in arithmetic and in ordering
    against a number. *)
Definition as_num (v : pyval) : option Qc :=
  match v with
  | PNum q => Some q
  | PBool b => Some (if b then 1 else 0)
  | PNone | PStr _ => None
  end.

(** Arithmetic is exact; see the conventions for rounding and for
    [OverflowError]. *)
Definition py_add (x y : pyval) : option pyval :=
  a ← as_num x; b ← as_num y; Some (PNum (a + b)).

Definition py_sub (x y : pyval) : option pyval :=
  a ← as_num x; b ← as_num y; Some (PNum (a - b)).

(** Multiplication of a series value by a numeric literal.  (A string
    times the integer 24 would repeat the string, but the subtraction that
    consumes that product then raises, so the call fails either way.) *)
Definition py_mul (x y : pyval) : option pyval :=
  a ← as_num x; b ← as_num y; Some (PNum (a * b)).

Definition py_lt (x y : pyval) : option bool :=
  a ← as_num x; b ← as_num y; Some (bool_decide (a < b)).

Definition py_gt (x y : pyval) : option bool :=
  a ← as_num x; b ← as_num y; Some (bool_decide (b < a)).

(** [sum(l)]: a left fold of [+] that starts from the integer 0. *)
Fixpoint py_sum_from (acc : pyval) (l : list pyval) : option pyval :=
  match l with
  | [] => Some acc
  | x :: l' => acc' ← py_add acc x; py_sum_from acc' l'
  end.

Definition py_sum (l : list pyval) : option pyval := py_sum_from (PNum 0) l.

(** [l[lo:hi]] for [0 <= lo] and [0 <= hi]: slicing clips, it never raises. *)
Definition py_slice (l : list pyval) (lo hi : nat) : list pyval :=
  drop lo (take hi l).

(** [l.index(x)]: position of the first element equal to [x];
    [None] when [x not in l]. *)
Fixpoint py_index (x : pyval) (l : list pyval) : option nat :=
  match l with
  | [] => None
  | y :: l' => if decide (y = x) then Some 0%nat else S <$> py_index x l'
  end.

(** An [int] that counts something. *)
Definition py_int (n : nat) : pyval := PNum (Q2Qc (inject_Z (Z.of_nat n))).

(** [format(v, '.1f')]: defined on numbers only.  (An [int] beyond the
    binary64 range raises [OverflowError]; see the conventions.) *)
Definition py_format_f (v : pyval) : option unit :=
  _ ← as_num v; Some ().

End Py.
Export Py.

(** ** The outside world *)

(** A naive [datetime] is a count of microseconds. *)
Definition datetime := Z.

Definition timedelta_hours (h : Z) : Z := (h * 3600 * 1000000)%Z.
Definition timedelta_days (d : Z) : Z := (d * 24 * 3600 * 1000000)%Z.

Record Request := {
  latitude : Qc;
  longitude : Qc;
  hourly_vars : list string;
  temperature_unit : string;
  wind_speed_unit : string;
  precipitation_unit : string;
  timezone : string;
  start_date : string;
  end_date : string
}.

(** The part of an HTTP response the program looks at.  [json_hourly] is
    [data.get('hourly', {})] of the decoded body, an object of arrays of
    scalars; it is [None] when [response.json()] raises or the body has
    another shape, which fails inside the [try] block just the same. *)
Record Response := {
  status_code : Z;
  json_hourly : option (gmap string (list pyval))
}.

Class Platform := {
  (** [datetime.fromisoformat]; [None] is [ValueError]. *)
  fromisoformat : string → option datetime;
  (** Whether [datetime.fromisoformat(s)] is offset-aware: the text ends
      in a UTC offset.  Ordering such a value against the naive
      [datetime.now()] raises [TypeError]. *)
  tz_aware : string → bool;
  (** [dt.isoformat()] *)
  isoformat : datetime → string;
  (** [dt.strftime('%Y-%m-%d')] *)
  strftime_date : datetime → string;
  (** [dt.strftime('%Y-%m-%dT%H:00')] *)
  strftime_hour : datetime → string;
  (** [dt.hour] *)
  hour_of : datetime → Z;
  (** the reading of [datetime.now()] at a tick *)
  clock : nat → datetime;
  (** [requests.get(url, params, timeout=10)] issued at a tick;
      [None] when the call raises (timeout, connection error). *)
  requests_get : nat → Request → option Response
}.

(** ** A small model of the SQLite tables the collectors use *)

Module Sqlite.

Inductive sqlval : Type :=
  | SqlNull
  | SqlNum (q : Qc)
  | SqlText (s : string).

#[global] Instance sqlval_eq_dec : EqDecision sqlval.
Proof. solve_decision. Defined.

(** Binding of a Python value to a [?] placeholder.  (The driver refuses
    an [int] outside the signed 64-bit range with [OverflowError]; see the
    conventions.) *)
Definition bind_param (v : pyval) : sqlval :=
  match v with
  | PNone => SqlNull
  | PBool b => SqlNum (if b then 1 else 0)
  | PNum q => SqlNum q
  | PStr s => SqlText s
  end.

Record column := { col_name : string; col_notnull : bool }.

(** A [CREATE TABLE] statement.  Every table of the two programs starts
    with [id INTEGER PRIMARY KEY AUTOINCREMENT]; that column is the field
    [row_id] of a row and is not listed in [sch_columns].  [sch_unique]
    lists the [UNIQUE(...)] table constraints; a [CREATE INDEX] (which is
    not [UNIQUE]) constrains nothing and has no counterpart here. *)
Record schema := {
  sch_columns : list column;
  sch_unique : list (list string)
}.

Record row := {
  row_id : Z;
  row_cols : gmap string sqlval
}.

(** [tbl_seq] is the table's entry in [sqlite_sequence]: the largest rowid
    ever handed out. *)
Record table := {
  tbl_rows : list row;
  tbl_seq : Z
}.

Definition empty_table : table := {| tbl_rows := []; tbl_seq := 0 |}.

(** Value of a column; a column the row does not mention is NULL. *)
Definition col (r : gmap string sqlval) (c : string) : sqlval :=
  default SqlNull (r !! c).

(** Two rows collide on a [UNIQUE(cols)] constraint when they agree on
    every column of it; NULLs never collide. *)
Definition same_on (cols : list string) (r1 r2 : gmap string sqlval) : bool :=
  forallb (λ c, bool_decide (col r1 c ≠ SqlNull) && bool_decide (col r1 c = col r2 c)) cols.

Definition conflicts (sch : schema) (new : gmap string sqlval) (old : row) : bool :=
  existsb (λ u, same_on u new (row_cols old)) (sch_unique sch).

Definition violates_notnull (sch : schema) (r : gmap string sqlval) : bool :=
  existsb (λ c, col_notnull c && bool_decide (col r (col_name c) = SqlNull)) (sch_columns sch).

Definition max_rowid (rows : list row) : Z :=
  foldr (λ r m, Z.max (row_id r) m) 0%Z rows.

(** AUTOINCREMENT: one more than the largest rowid that ever existed. *)
Definition next_rowid (t : table) : Z :=
  (Z.max (tbl_seq t) (max_rowid (tbl_rows t)) + 1)%Z.

Inductive on_conflict := OnAbort | OnReplace.

(** The columns of the row an [INSERT] statement stores: the listed
    columns paired with the bound values. *)
Definition row_of (cols : list string) (vals : list sqlval) : gmap string sqlval :=
  list_to_map (zip cols vals).

(** [INSERT [OR REPLACE] INTO t (cols) VALUES (vals)].  [None] is an
    exception of the driver ([sqlite3.Error]) that leaves the table as it
    was.  With [OR REPLACE] the rows that collide with the new one on a
    UNIQUE constraint are deleted before the new row is stored; a NOT NULL
    violation on a column without default aborts in both forms, and so
    does AUTOINCREMENT once the largest row id, [2^63 - 1], has been used
    ([SQLITE_FULL]). *)
Definition sql_insert (sch : schema) (oc : on_conflict)
    (cols : list string) (vals : list sqlval) (t : table) : option table :=
  if negb (bool_decide (length cols = length vals)) then None
  else if negb (forallb (λ c, bool_decide (c ∈ col_name <$> sch_columns sch)) cols) then None
  else if bool_decide (2 ^ 63 ≤ next_rowid t)%Z then None
  else
    let r := row_of cols vals in
    if violates_notnull sch r then None
    else
      let new := {| row_id := next_rowid t; row_cols := r |} in
      match oc with
      | OnAbort =>
          if existsb (conflicts sch r) (tbl_rows t) then None
          else Some {| tbl_rows := tbl_rows t ++ [new]; tbl_seq := next_rowid t |}
      | OnReplace =>
          Some {| tbl_rows := filter (λ old, conflicts sch r old = false) (tbl_rows t) ++ [new];
                  tbl_seq := next_rowid t |}
      end.

(** [CREATE TABLE IF NOT EXISTS]: a database file that has no such table
    gets an empty one, an existing table is left alone. *)
Definition create_table_if_not_exists (existing : option table) : table :=
  default empty_table existing.

End Sqlite.
Export Sqlite.

(** ** Program state and the state monad *)

Record World := {
  tick : nat;
  db : table
}.

Definition M (A : Type) : Type := World → A * World.

Definition ret {A} (a : A) : M A := λ w, (a, w).
Definition bind {A B} (m : M A) (k : A → M B) : M B :=
  λ w, let '(a, w') := m w in k a w'.

Declare Scope world_scope.
Delimit Scope world_scope with world.
Notation "x <<- m ;; k" := (bind m (λ x, k))
  (at level 100, m at next level, right associativity) : world_scope.

Section WorldOps.
Context `{Platform}.

Definition advance (w : World) : World :=
  {| tick := S (tick w); db := db w |}.

(** [datetime.now()] *)
Definition now : M datetime := λ w, (clock (tick w), advance w).

(** [requests.get(...)] *)
Definition http_get (req : Request) : M (option Response) :=
  λ w, (requests_get (tick w) req, advance w).

Definition get_db : M table := λ w, (db w, w).
Definition put_db (t : table) : M unit :=
  λ w, ((), {| tick := tick w; db := t |}).
End WorldOps.

(** ** weather.py *)

Module Weather.

Record Coords := {
  lat : Qc;
  lon : Qc;
  country : string;
  tz : string
}.

(** The catalog, in the order of the dict literal. *)
Definition VENUE_COORDS : list (string * Coords) := [
  ("Newbury", {| lat := dec (514008) 10000; lon := dec (-13267) 10000; country := "UK"; tz := "Europe/London" |});
  ("Cheltenham", {| lat := dec (519117) 10000; lon := dec (-20493) 10000; country := "UK"; tz := "Europe/London" |});
  ("Ascot", {| lat := dec (514088) 10000; lon := dec (-6764) 10000; country := "UK"; tz := "Europe/London" |});
  ("Kempton Park", {| lat := dec (514175) 10000; lon := dec (-3867) 10000; country := "UK"; tz := "Europe/London" |});
  ("Lingfield", {| lat := dec (511817) 10000; lon := dec (-100) 10000; country := "UK"; tz := "Europe/London" |});
  ("Worcester", {| lat := dec (521886) 10000; lon := dec (-22274) 10000; country := "UK"; tz := "Europe/London" |});
  ("Aintree", {| lat := dec (534775) 10000; lon := dec (-29497) 10000; country := "UK"; tz := "Europe/London" |});
  ("York", {| lat := dec (539536) 10000; lon := dec (-10353) 10000; country := "UK"; tz := "Europe/London" |});
  ("Sandown", {| lat := dec (513867) 10000; lon := dec (-3644) 10000; country := "UK"; tz := "Europe/London" |});
  ("Haydock", {| lat := dec (534750) 10000; lon := dec (-26503) 10000; country := "UK"; tz := "Europe/London" |});
  ("Doncaster", {| lat := dec (535229) 10000; lon := dec (-10958) 10000; country := "UK"; tz := "Europe/London" |});
  ("Newmarket", {| lat := dec (522438) 10000; lon := dec (3611) 10000; country := "UK"; tz := "Europe/London" |});
  ("Goodwood", {| lat := dec (508692) 10000; lon := dec (-7464) 10000; country := "UK"; tz := "Europe/London" |});
  ("Epsom", {| lat := dec (513178) 10000; lon := dec (-2617) 10000; country := "UK"; tz := "Europe/London" |});
  ("Ayr", {| lat := dec (554583) 10000; lon := dec (-46333) 10000; country := "UK"; tz := "Europe/London" |});
  ("Newcastle", {| lat := dec (549783) 10000; lon := dec (-16178) 10000; country := "UK"; tz := "Europe/London" |});
  ("Chepstow", {| lat := dec (516431) 10000; lon := dec (-26764) 10000; country := "UK"; tz := "Europe/London" |});
  ("Fontwell", {| lat := dec (508667) 10000; lon := dec (-6167) 10000; country := "UK"; tz := "Europe/London" |});
  ("Ludlow", {| lat := dec (523667) 10000; lon := dec (-27333) 10000; country := "UK"; tz := "Europe/London" |});
  ("Market Rasen", {| lat := dec (534333) 10000; lon := dec (-3333) 10000; country := "UK"; tz := "Europe/London" |});
  ("Sedgefield", {| lat := dec (546667) 10000; lon := dec (-14667) 10000; country := "UK"; tz := "Europe/London" |});
  ("Southwell", {| lat := dec (530833) 10000; lon := dec (-9500) 10000; country := "UK"; tz := "Europe/London" |});
  ("Uttoxeter", {| lat := dec (529000) 10000; lon := dec (-18667) 10000; country := "UK"; tz := "Europe/London" |});
  ("Wetherby", {| lat := dec (539333) 10000; lon := dec (-13833) 10000; country := "UK"; tz := "Europe/London" |});
  ("Wolverhampton", {| lat := dec (525833) 10000; lon := dec (-21333) 10000; country := "UK"; tz := "Europe/London" |});
  ("Bangor-on-Dee", {| lat := dec (529910) 10000; lon := dec (-29235) 10000; country := "UK"; tz := "Europe/London" |});
  ("Bath", {| lat := dec (514183) 10000; lon := dec (-24094) 10000; country := "UK"; tz := "Europe/London" |});
  ("Brighton", {| lat := dec (508248) 10000; lon := dec (-1072) 10000; country := "UK"; tz := "Europe/London" |});
  ("Chester", {| lat := dec (531852) 10000; lon := dec (-28932) 10000; country := "UK"; tz := "Europe/London" |});
  ("Ffos Las", {| lat := dec (517311) 10000; lon := dec (-42400) 10000; country := "UK"; tz := "Europe/London" |});
  ("Hexham", {| lat := dec (549522) 10000; lon := dec (-21245) 10000; country := "UK"; tz := "Europe/London" |});
  ("Newton Abbot", {| lat := dec (505365) 10000; lon := dec (-35920) 10000; country := "UK"; tz := "Europe/London" |});
  ("Plumpton", {| lat := dec (509216) 10000; lon := dec (-570) 10000; country := "UK"; tz := "Europe/London" |});
  ("Ripon", {| lat := dec (541207) 10000; lon := dec (-14923) 10000; country := "UK"; tz := "Europe/London" |});
  ("Yarmouth", {| lat := dec (526263) 10000; lon := dec (17338) 10000; country := "UK"; tz := "Europe/London" |});
  ("Churchill Downs", {| lat := dec (382048) 10000; lon := dec (-857702) 10000; country := "USA"; tz := "America/New_York" |});
  ("Keeneland", {| lat := dec (380403) 10000; lon := dec (-845909) 10000; country := "USA"; tz := "America/New_York" |});
  ("Santa Anita", {| lat := dec (341395) 10000; lon := dec (-1180377) 10000; country := "USA"; tz := "America/Los_Angeles" |});
  ("Del Mar", {| lat := dec (329789) 10000; lon := dec (-1172651) 10000; country := "USA"; tz := "America/Los_Angeles" |});
  ("Gulfstream Park", {| lat := dec (259898) 10000; lon := dec (-801373) 10000; country := "USA"; tz := "America/New_York" |});
  ("Belmont Park", {| lat := dec (407155) 10000; lon := dec (-737201) 10000; country := "USA"; tz := "America/New_York" |});
  ("Saratoga", {| lat := dec (430687) 10000; lon := dec (-737896) 10000; country := "USA"; tz := "America/New_York" |});
  ("Pimlico", {| lat := dec (393419) 10000; lon := dec (-766653) 10000; country := "USA"; tz := "America/New_York" |})
].

(** [VENUE_COORDS.get(venue)] *)
Definition venue_coords (venue : string) : option Coords :=
  snd <$> (snd <$> list_find (λ kv, fst kv = venue) VENUE_COORDS).

(** The measurements requested from the provider. *)
Definition HOURLY_VARS : list string := [
  "temperature_2m"; "apparent_temperature"; "precipitation"; "rain";
  "wind_speed_10m"; "wind_direction_10m"; "wind_gusts_10m";
  "relative_humidity_2m"; "dew_point_2m";
  "soil_moisture_0_to_1cm"; "soil_moisture_1_to_3cm"; "soil_moisture_3_to_9cm";
  "soil_temperature_0cm"; "soil_temperature_6cm";
  "et0_fao_evapotranspiration"; "pressure_msl"; "cloud_cover"; "visibility";
  "weather_code"; "precipitation_probability" ].

(** [hourly[k][i]]: [KeyError] and [IndexError] are [None]. *)
Definition series (hourly : gmap string (list pyval)) (k : string) (i : nat)
    : option pyval :=
  l ← hourly !! k; l !! i.

(** *** Historical accumulations *)

Definition rainfall_1h (precip : list pyval) (idx : nat) : option pyval :=
  if bool_decide (0 < idx)%nat then precip !! idx else Some (PNum 0).

Definition rainfall_3h (precip : list pyval) (idx : nat) : option pyval :=
  if bool_decide (3 ≤ idx)%nat
  then py_sum (py_slice precip (Nat.max 0 (idx - 3)) idx) else Some (PNum 0).

Definition rainfall_6h (precip : list pyval) (idx : nat) : option pyval :=
  if bool_decide (6 ≤ idx)%nat
  then py_sum (py_slice precip (Nat.max 0 (idx - 6)) idx) else Some (PNum 0).

Definition rainfall_24h (precip : list pyval) (idx : nat) : option pyval :=
  if bool_decide (24 ≤ idx)%nat
  then py_sum (py_slice precip (Nat.max 0 (idx - 24)) idx) else Some (PNum 0).

Definition rainfall_7d (precip : list pyval) (idx : nat) : option pyval :=
  if bool_decide (0 < idx)%nat then py_sum (py_slice precip 0 idx) else Some (PNum 0).

(** *** Hours since last rain

    [for i in range(idx-1, -1, -1)]: [hours_loop precip n acc] has the
    indices [n-1, ..., 0] still to visit. *)
Fixpoint hours_loop (precip : list pyval) (n : nat) (acc : nat) : option nat :=
  match n with
  | O => Some acc
  | S i =>
      x ← precip !! i;
      wet ← py_gt x (PNum (dec 1 10));
      if wet : bool then Some acc else hours_loop precip i (S acc)
  end.

Definition hours_since_rain (precip : list pyval) (idx : nat) : option nat :=
  hours_loop precip idx 0.

(** *** Ground saturation index and net moisture *)

Definition ground_saturation (sm01 sm13 sm39 : pyval) : option pyval :=
  a ← py_mul sm01 (PNum (dec 5 10));
  b ← py_mul sm13 (PNum (dec 3 10));
  c ← py_mul sm39 (PNum (dec 2 10));
  ab ← py_add a b;
  py_add ab c.

Definition net_moisture_24h (rain24 et0 : pyval) : option pyval :=
  et_24h ← py_mul et0 (PNum (dec 24 1));
  py_sub rain24 et_24h.

(** *** Going, from the surface soil moisture *)

Definition predicted_going (soil_moisture_surface : pyval) : option string :=
  c1 ← py_lt soil_moisture_surface (PNum (dec 15 100));
  if c1 : bool then Some "Firm"
  else
    c2 ← py_lt soil_moisture_surface (PNum (dec 25 100));
    if c2 : bool then Some "Good"
    else
      c3 ← py_lt soil_moisture_surface (PNum (dec 35 100));
      if c3 : bool then Some "Soft" else Some "Heavy".

(** *** Track condition trend: the pair [(track_drying, track_wetting)] *)

Definition track_trend (sm01 : list pyval) (soil_moisture_surface : pyval) (idx : nat)
    : option (bool * bool) :=
  if bool_decide (3 ≤ idx)%nat then
    moisture_3h_ago ← sm01 !! (idx - 3)%nat;
    track_drying ← py_lt soil_moisture_surface moisture_3h_ago;
    track_wetting ← py_gt soil_moisture_surface moisture_3h_ago;
    Some (track_drying, track_wetting)
  else Some (false, false).

(** *** The record built once the race hour is found at [idx]

    Everything inside the [try] block after [idx = times.index(...)],
    up to the last entry of the dict literal, ['fetched_at'], which reads
    the clock and is added by the caller. *)
Definition feature_record (hourly : gmap string (list pyval)) (idx : nat)
    (venue country race_iso : string) : option (gmap string pyval) :=
  precip ← hourly !! "precipitation";
  r1 ← rainfall_1h precip idx;
  r3 ← rainfall_3h precip idx;
  r6 ← rainfall_6h precip idx;
  r24 ← rainfall_24h precip idx;
  r7d ← rainfall_7d precip idx;
  hours ← hours_since_rain precip idx;
  sm01 ← series hourly "soil_moisture_0_to_1cm" idx;
  sm13 ← series hourly "soil_moisture_1_to_3cm" idx;
  sm39 ← series hourly "soil_moisture_3_to_9cm" idx;
  saturation ← ground_saturation sm01 sm13 sm39;
  et0 ← series hourly "et0_fao_evapotranspiration" idx;
  net ← net_moisture_24h r24 et0;
  going ← predicted_going sm01;
  sm01_series ← hourly !! "soil_moisture_0_to_1cm";
  trend ← track_trend sm01_series sm01 idx;
  temperature ← series hourly "temperature_2m" idx;
  apparent ← series hourly "apparent_temperature" idx;
  precipitation_current ← series hourly "precipitation" idx;
  rain_current ← series hourly "rain" idx;
  wind_speed ← series hourly "wind_speed_10m" idx;
  wind_direction ← series hourly "wind_direction_10m" idx;
  wind_gusts ← series hourly "wind_gusts_10m" idx;
  humidity ← series hourly "relative_humidity_2m" idx;
  dew_point ← series hourly "dew_point_2m" idx;
  pressure ← series hourly "pressure_msl" idx;
  cloud_cover ← series hourly "cloud_cover" idx;
  visibility ← series hourly "visibility" idx;
  weather_code ← series hourly "weather_code" idx;
  precipitation_probability ← series hourly "precipitation_probability" idx;
  soil_temperature_0cm ← series hourly "soil_temperature_0cm" idx;
  soil_temperature_6cm ← series hourly "soil_temperature_6cm" idx;
  let usa := bool_decide (country = "USA") in
  Some (list_to_map [
    ("venue", PStr venue);
    ("country", PStr country);
    ("race_datetime", PStr race_iso);
    ("temperature", temperature);
    ("apparent_temperature", apparent);
    ("precipitation_current", precipitation_current);
    ("rain_current", rain_current);
    ("wind_speed", wind_speed);
    ("wind_direction", wind_direction);
    ("wind_gusts", wind_gusts);
    ("humidity", humidity);
    ("dew_point", dew_point);
    ("pressure", pressure);
    ("cloud_cover", cloud_cover);
    ("visibility", visibility);
    ("weather_code", weather_code);
    ("precipitation_probability", precipitation_probability);
    ("soil_moisture_0_1cm", sm01);
    ("soil_moisture_1_3cm", sm13);
    ("soil_moisture_3_9cm", sm39);
    ("soil_temperature_0cm", soil_temperature_0cm);
    ("soil_temperature_6cm", soil_temperature_6cm);
    ("evapotranspiration", et0);
    ("rainfall_1h", r1);
    ("rainfall_3h", r3);
    ("rainfall_6h", r6);
    ("rainfall_24h", r24);
    ("rainfall_7d", r7d);
    ("ground_saturation_index", saturation);
    ("net_moisture_24h", net);
    ("hours_since_rain", py_int hours);
    ("predicted_going", PStr going);
    ("track_drying", PBool (fst trend));
    ("track_wetting", PBool (snd trend));
    ("temp_unit", PStr (if usa then "°F" else "°C"));
    ("wind_unit", PStr (if usa then "mph" else "m/s"));
    ("precip_unit", PStr (if usa then "in" else "mm"));
    ("data_quality", PStr "comprehensive")
  ]).

Section Fetch.
Context `{Platform}.
Local Open Scope world_scope.

Definition request_params (coords : Coords) (race_datetime : datetime) : Request :=
  let usa := bool_decide (country coords = "USA") in
  {| latitude := lat coords;
     longitude := lon coords;
     hourly_vars := HOURLY_VARS;
     temperature_unit := if usa then "fahrenheit" else "celsius";
     wind_speed_unit := if usa then "mph" else "ms";
     precipitation_unit := if usa then "inch" else "mm";
     timezone := tz coords;
     start_date := strftime_date (race_datetime - timedelta_days 7)%Z;
     end_date := strftime_date race_datetime |}.

(** The body of the [try] block, given the provider's answer: the index
    of the race hour and the series, or [None] for each way out that
    returns [None]. *)
Definition locate_race_hour (resp : option Response) (race_datetime : datetime)
    : option (gmap string (list pyval) * nat) :=
  response ← resp;
  if bool_decide (status_code response ≠ 200%Z) then None
  else
    hourly ← json_hourly response;
    let times := default [] (hourly !! "time") in
    let race_time_str := strftime_hour race_datetime in
    idx ← py_index (PStr race_time_str) times;
    Some (hourly, idx).

Definition get_comprehensive_weather (venue : string) (race_datetime : datetime)
    : M (option (gmap string pyval)) :=
  match venue_coords venue with
  | None => ret None
  | Some coords =>
      resp <<- http_get (request_params coords race_datetime) ;;
      match locate_race_hour resp race_datetime with
      | None => ret None
      | Some (hourly, idx) =>
          match feature_record hourly idx venue (country coords)
                  (isoformat race_datetime) with
          | None => ret None
          | Some result =>
              fetched <<- now ;;
              ret (Some (<["fetched_at" := PStr (isoformat fetched)]> result))
          end
      end
  end.
End Fetch.

End Weather.

(** ** What both collectors store of a weather record *)

(** [d.get(k)]: a missing key reads as [None]. *)
Definition dict_get (d : gmap string pyval) (k : string) : pyval :=
  default PNone (d !! k).

(** [d.get(k, v)] *)
Definition dict_get_default (d : gmap string pyval) (k : string) (v : pyval) : pyval :=
  default v (d !! k).

(** The 35 weather columns of both [INSERT] statements, each with the key
    of the weather dict whose value is bound to it. *)
Definition WEATHER_FIELDS : list (string * string) := [
  ("temperature", "temperature");
  ("apparent_temperature", "apparent_temperature");
  ("precipitation_current", "precipitation_current");
  ("rain_current", "rain_current");
  ("wind_speed", "wind_speed");
  ("wind_direction", "wind_direction");
  ("wind_gusts", "wind_gusts");
  ("humidity", "humidity");
  ("dew_point", "dew_point");
  ("pressure", "pressure");
  ("cloud_cover", "cloud_cover");
  ("visibility", "visibility");
  ("weather_code", "weather_code");
  ("precipitation_probability", "precipitation_probability");
  ("soil_moisture_0_1cm", "soil_moisture_0_1cm");
  ("soil_moisture_1_3cm", "soil_moisture_1_3cm");
  ("soil_moisture_3_9cm", "soil_moisture_3_9cm");
  ("soil_temperature_0cm", "soil_temperature_0cm");
  ("soil_temperature_6cm", "soil_temperature_6cm");
  ("evapotranspiration", "evapotranspiration");
  ("rainfall_1h", "rainfall_1h");
  ("rainfall_3h", "rainfall_3h");
  ("rainfall_6h", "rainfall_6h");
  ("rainfall_24h", "rainfall_24h");
  ("rainfall_7d", "rainfall_7d");
  ("ground_saturation_index", "ground_saturation_index");
  ("net_moisture_24h", "net_moisture_24h");
  ("hours_since_rain", "hours_since_rain");
  ("predicted_going", "predicted_going");
  ("track_drying", "track_drying");
  ("track_wetting", "track_wetting");
  ("weather_data_quality", "data_quality");
  ("weather_fetched_at", "fetched_at");
  ("temperature_unit", "temp_unit");
  ("wind_speed_unit", "wind_unit") ].

Definition weather_columns : list string := fst <$> WEATHER_FIELDS.

Definition weather_params (weather : gmap string pyval) : list sqlval :=
  (λ f, bind_param (dict_get weather (snd f))) <$> WEATHER_FIELDS.

(** Column declarations of the weather part of both tables: all nullable
    but [weather_fetched_at]. *)
Definition weather_column_decls : list column :=
  (λ c, {| col_name := c; col_notnull := bool_decide (c = "weather_fetched_at") |})
    <$> weather_columns.

Definition notnull (c : string) : column := {| col_name := c; col_notnull := true |}.

Definition int_param (z : Z) : sqlval := SqlNum (Q2Qc (inject_Z z)).

(** ** collect_daily_weather.py *)

Module DailyWeatherCollector.
Import Weather.

Definition venue_daily_weather : schema := {|
  sch_columns :=
    [ notnull "venue"; notnull "country"; notnull "collection_date";
      notnull "collection_hour"; notnull "collection_timestamp" ]
    ++ weather_column_decls;
  sch_unique := [ ["venue"; "collection_date"; "collection_hour"] ]
|}.

Definition ensure_database (existing : option table) : table :=
  create_table_if_not_exists existing.

Record VenueData := {
  vd_venue : string;
  vd_country : string;
  vd_weather : gmap string pyval
}.

Section Collector.
Context `{Platform}.
Local Open Scope world_scope.

Definition collect_venue_weather (venue : string) (coords : Coords)
    : M (option VenueData) :=
  t <<- now ;;
  weather <<- get_comprehensive_weather venue t ;;
  match weather with
  | None => ret None
  | Some weather =>
      if bool_decide (weather = ∅) then ret None
      else
        let rain := dict_get_default weather "rainfall_24h" (PNum 0) in
        let soil := dict_get_default weather "soil_moisture_0_1cm" (PNum 0) in
        (** the summary line formats [rain] and [soil] as floats; a
            failure there is caught and gives [None] *)
        match py_format_f rain, py_format_f soil with
        | Some _, Some _ =>
            ret (Some {| vd_venue := venue;
                         vd_country := country coords;
                         vd_weather := weather |})
        | _, _ => ret None
        end
  end.

Definition insert_columns : list string :=
  [ "venue"; "country"; "collection_date"; "collection_hour";
    "collection_timestamp" ] ++ weather_columns.

(** The tuple bound to the placeholders, for the clock reading [t]. *)
Definition insert_values (vd : VenueData) (t : datetime) : list sqlval :=
  let collection_date := strftime_date t in
  let collection_hour := hour_of t in
  let collection_timestamp := isoformat t in
  [ SqlText (vd_venue vd); SqlText (vd_country vd);
    SqlText collection_date; int_param collection_hour;
    SqlText collection_timestamp ]
  ++ weather_params (vd_weather vd).

Definition save_to_database (venue_data : option VenueData) : M bool :=
  match venue_data with
  | None => ret false
  | Some vd =>
      if bool_decide (vd_weather vd = ∅) then ret false
      else
        t <<- now ;;
        conn <<- get_db ;;
        (** insert or replace, in case the collector runs twice in the
            same hour *)
        match
          sql_insert venue_daily_weather OnReplace insert_columns
            (insert_values vd t) conn
        with
        | Some conn' => _ <<- put_db conn' ;; ret true
        | None => ret false
        end
  end.

Fixpoint collection_loop (venues : list (string * Coords))
    (success_count fail_count : nat) : M (nat * nat) :=
  match venues with
  | [] => ret (success_count, fail_count)
  | (venue, coords) :: rest =>
      venue_data <<- collect_venue_weather venue coords ;;
      saved <<- match venue_data with
                | None => ret false
                | Some _ => save_to_database venue_data
                end ;;
      if saved : bool
      then collection_loop rest (S success_count) fail_count
      else collection_loop rest success_count (S fail_count)
  end.

Definition venues_to_collect (test_mode : bool) : list (string * Coords) :=
  if test_mode then
    let test_venues := ["Newbury"; "Cheltenham"; "Churchill Downs"] in
    filter (λ kv, fst kv ∈ test_venues) VENUE_COORDS
  else VENUE_COORDS.

(** Returns [(success_count, fail_count)]. *)
Definition run_collection (test_mode : bool) : M (nat * nat) :=
  collection_loop (venues_to_collect test_mode) 0 0.

(** [main]: the collector is created, which creates the table when the
    database file has none; the run is made from the clock tick [start];
    the process exits with 0 when no entry failed and with 1 otherwise. *)
Definition main (test : bool) (existing : option table) (start : nat) : Z * World :=
  let collector := {| tick := start; db := ensure_database existing |} in
  let '((success, failed), w) := run_collection test collector in
  (if bool_decide (failed = 0%nat) then 0%Z else 1%Z, w).
End Collector.

End DailyWeatherCollector.

(** ** weather_collector.py *)

(** An exception that propagates out of a function. *)
Inductive outcome (A : Type) : Type :=
  | Raise
  | Return (a : A).
Arguments Raise {A}.
Arguments Return {A} a.

Module WeatherCollector.
Import Weather.

(** No [UNIQUE] constraint; [idx_weather_market_time] is a plain index. *)
Definition weather_updates : schema := {|
  sch_columns :=
    [ notnull "market_id"; notnull "venue"; notnull "race_date";
      notnull "race_time" ]
    ++ weather_column_decls ++ [ notnull "collection_timestamp" ];
  sch_unique := []
|}.

Definition ensure_database (existing : option table) : table :=
  create_table_if_not_exists existing.

Record Race := {
  market_id : string;
  venue : string;
  race_date : string;
  race_time : string
}.

Record RaceData := {
  rd_market_id : string;
  rd_venue : string;
  rd_race_date : string;
  rd_race_time : string;
  rd_weather : gmap string pyval
}.

(** What a run prints: nothing to do, or the summary counts. *)
Inductive run_result : Type :=
  | NoRaces
  | NoUpcoming
  | Summary (success_count fail_count : nat).

Section Collector.
Context `{Platform}.
Local Open Scope world_scope.

(** [f"{race_date}T{race_time}:00"] *)
Definition race_iso (race : Race) : string :=
  race_date race +:+ "T" +:+ race_time race +:+ ":00".

Definition get_demo_schedule : M (list Race) :=
  t <<- now ;;
  let tomorrow := (t + timedelta_days 1)%Z in
  ret [ {| market_id := "demo.001"; venue := "Newbury";
           race_date := strftime_date tomorrow; race_time := "14:30" |};
        {| market_id := "demo.002"; venue := "Kempton Park";
           race_date := strftime_date tomorrow; race_time := "15:00" |} ].

(** [config] is the decoded schedule file, a list of entries with the four
    text fields, [None] when the file does not exist.  (A file that does
    not decode to such a list is outside the model.) *)
Definition load_race_schedule (config : option (list Race)) : M (list Race) :=
  match config with
  | None => get_demo_schedule
  | Some schedule => ret schedule
  end.

Definition collect_weather_for_race (race : Race) : M (outcome (option RaceData)) :=
  match fromisoformat (race_iso race) with
  | None => ret Raise
  | Some race_datetime =>
      if bool_decide (venue race ∉ fst <$> VENUE_COORDS) then ret (Return None)
      else
        weather <<- get_comprehensive_weather (venue race) race_datetime ;;
        match weather with
        | None => ret (Return None)
        | Some weather =>
            if bool_decide (weather = ∅) then ret (Return None)
            else ret (Return (Some {| rd_market_id := market_id race;
                                      rd_venue := venue race;
                                      rd_race_date := race_date race;
                                      rd_race_time := race_time race;
                                      rd_weather := weather |}))
        end
  end.

Definition insert_columns : list string :=
  [ "market_id"; "venue"; "race_date"; "race_time" ]
  ++ weather_columns ++ [ "collection_timestamp" ].

(** The tuple bound to the placeholders, for the clock reading [t]. *)
Definition insert_values (rd : RaceData) (t : datetime) : list sqlval :=
  let collection_time := isoformat t in
  [ SqlText (rd_market_id rd); SqlText (rd_venue rd);
    SqlText (rd_race_date rd); SqlText (rd_race_time rd) ]
  ++ weather_params (rd_weather rd)
  ++ [ SqlText collection_time ].

Definition save_weather_update (race_data : option RaceData) : M bool :=
  match race_data with
  | None => ret false
  | Some rd =>
      if bool_decide (rd_weather rd = ∅) then ret false
      else
        t <<- now ;;
        conn <<- get_db ;;
        (** a plain [INSERT] *)
        match
          sql_insert weather_updates OnAbort insert_columns
            (insert_values rd t) conn
        with
        | Some conn' => _ <<- put_db conn' ;; ret true
        | None => ret false
        end
  end.

(** The filter to races within the next 48 hours.  A malformed date or
    time raises [ValueError] out of the run, and so does the comparison
    [now <= race_dt] ([TypeError]) when the text parsed to an offset-aware
    value; nothing catches either. *)
Fixpoint upcoming_races (races : list Race) (t cutoff : datetime)
    : outcome (list Race) :=
  match races with
  | [] => Return []
  | race :: rest =>
      match fromisoformat (race_iso race) with
      | None => Raise
      | Some race_dt =>
          if tz_aware (race_iso race) then Raise
          else
            match upcoming_races rest t cutoff with
            | Raise => Raise
            | Return l =>
                Return (if bool_decide (t ≤ race_dt ∧ race_dt ≤ cutoff)%Z
                        then race :: l else l)
            end
      end
  end.

Fixpoint collection_loop (upcoming : list Race)
    (success_count fail_count : nat) : M (outcome (nat * nat)) :=
  match upcoming with
  | [] => ret (Return (success_count, fail_count))
  | race :: rest =>
      r <<- collect_weather_for_race race ;;
      match r with
      | Raise => ret Raise
      | Return race_data =>
          saved <<- match race_data with
                    | None => ret false
                    | Some _ => save_weather_update race_data
                    end ;;
          if saved : bool
          then collection_loop rest (S success_count) fail_count
          else collection_loop rest success_count (S fail_count)
      end
  end.

Definition run_collection (config : option (list Race)) : M (outcome run_result) :=
  races <<- load_race_schedule config ;;
  match races with
  | [] => ret (Return NoRaces)
  | _ =>
      t <<- now ;;
      let cutoff := (t + timedelta_hours 48)%Z in
      match upcoming_races races t cutoff with
      | Raise => ret Raise
      | Return [] => ret (Return NoUpcoming)
      | Return upcoming =>
          r <<- collection_loop upcoming 0 0 ;;
          match r with
          | Raise => ret Raise
          | Return (success_count, fail_count) =>
              ret (Return (Summary success_count fail_count))
          end
      end
  end.
End Collector.

End WeatherCollector.

(** ** Auxiliary definitions used by the statements *)

(** Association-list lookup, first match wins: what [list_to_map]
    computes, without the map. *)
Fixpoint assoc {A} (k : string) (l : list (string * A)) : option A :=
  match l with
  | [] => None
  | (k', v) :: l' => if String.eqb k' k then Some v else assoc k l'
  end.

(** The number a value stands for (0 for what is not a number). *)
Definition num_of (v : pyval) : Qc := default 0 (as_num v).

(** The number stored at position [i] of a series (0 where there is
    none). *)
Definition num_at (l : list pyval) (i : nat) : Qc :=
  default 0 (l !! i ≫= as_num).

(** Specification side of the rainfall windows: the sum of the values at
    the indices of the half-open interval [[lo, hi)]. *)
Definition spec_window_sum (l : list pyval) (lo hi : nat) : Qc :=
  foldr Qcplus 0 (num_at l <$> seq lo (hi - lo)).


(** The windows of the three clipped sums and of the current-hour
    reading, each with the key of the record that holds it. *)
Definition SUM_WINDOWS : list (nat * string) :=
  [ (3%nat, "rainfall_3h"); (6%nat, "rainfall_6h"); (24%nat, "rainfall_24h") ].

Definition CLIPPED_WINDOWS : list (nat * string) :=
  (1%nat, "rainfall_1h") :: SUM_WINDOWS.

(** ** Sample inputs *)

Definition sample_times : list pyval :=
  PStr <$> [ "2025-10-20T00:00"; "2025-10-20T01:00"; "2025-10-20T02:00";
             "2025-10-20T03:00"; "2025-10-20T04:00" ].

(** A five-hour response in which every requested measurement reads 0.2,
    with the given precipitation and surface soil-moisture series. *)
Definition sample_hourly (precip soil : list pyval) : gmap string (list pyval) :=
  <["soil_moisture_0_to_1cm" := soil]>
    (<["precipitation" := precip]>
       (<["time" := sample_times]>
          (list_to_map ((λ k, (k, replicate 5 (PNum (dec 2 10)))) <$> Weather.HOURLY_VARS)))).

Definition whole (z : Z) : pyval := PNum (dec z 1).

Definition rain_at_hour_2 : list pyval := [whole 0; whole 0; whole 2; whole 0; whole 0].
Definition dry_hours : list pyval := replicate 5 (whole 0).
Definition soil_steady : list pyval := replicate 5 (PNum (dec 20 100)).

(** The record derived from a sample response at index [idx] (empty if
    the derivation fails). *)
Definition sample_record (precip soil : list pyval) (idx : nat) : gmap string pyval :=
  default ∅ (Weather.feature_record (sample_hourly precip soil) idx
               "Newbury" "UK" "2025-10-20T04:30:00").

(** Did a fallible computation return a value? *)
Definition succeeded {A} (m : option A) : bool :=
  match m with Some _ => true | None => false end.

(** An hour without rain worth counting, and an hour with it. *)
Definition dry_at (precip : list pyval) (j : nat) : Prop :=
  ∃ q, precip !! j ≫= as_num = Some q ∧ q ≤ dec 1 10.

Definition wet_at (precip : list pyval) (j : nat) : Prop :=
  ∃ q, precip !! j ≫= as_num = Some q ∧ dec 1 10 < q.

(** Firmness order of the going labels. *)
Definition going_rank (g : string) : nat :=
  if String.eqb g "Firm" then 0
  else if String.eqb g "Good" then 1
  else if String.eqb g "Soft" then 2
  else 3.

(** ** The anatomy of a feature record *)

(** The intermediate values of a successful [feature_record] call. *)
Record Derived := {
  dv_precip : list pyval;
  dv_sm01s : list pyval;
  dv_sm01 : pyval;
  dv_cur : pyval;
  dv_r1 : pyval; dv_r3 : pyval; dv_r6 : pyval; dv_r24 : pyval; dv_r7d : pyval;
  dv_hours : nat;
  dv_going : string;
  dv_trend : bool * bool
}.

(** How they come from the series and where the record holds them. *)
Record derives (hourly : gmap string (list pyval)) (idx : nat)
    (w : gmap string pyval) (d : Derived) : Prop := {
  dv_precip_key : hourly !! "precipitation" = Some (dv_precip d);
  dv_sm01s_key : hourly !! "soil_moisture_0_to_1cm" = Some (dv_sm01s d);
  dv_sm01_at : dv_sm01s d !! idx = Some (dv_sm01 d);
  dv_cur_at : dv_precip d !! idx = Some (dv_cur d);
  dv_r1_eq : Weather.rainfall_1h (dv_precip d) idx = Some (dv_r1 d);
  dv_r3_eq : Weather.rainfall_3h (dv_precip d) idx = Some (dv_r3 d);
  dv_r6_eq : Weather.rainfall_6h (dv_precip d) idx = Some (dv_r6 d);
  dv_r24_eq : Weather.rainfall_24h (dv_precip d) idx = Some (dv_r24 d);
  dv_r7d_eq : Weather.rainfall_7d (dv_precip d) idx = Some (dv_r7d d);
  dv_hours_eq : Weather.hours_since_rain (dv_precip d) idx = Some (dv_hours d);
  dv_going_eq : Weather.predicted_going (dv_sm01 d) = Some (dv_going d);
  dv_trend_eq : Weather.track_trend (dv_sm01s d) (dv_sm01 d) idx = Some (dv_trend d);
  dv_r1_field : w !! "rainfall_1h" = Some (dv_r1 d);
  dv_r3_field : w !! "rainfall_3h" = Some (dv_r3 d);
  dv_r6_field : w !! "rainfall_6h" = Some (dv_r6 d);
  dv_r24_field : w !! "rainfall_24h" = Some (dv_r24 d);
  dv_r7d_field : w !! "rainfall_7d" = Some (dv_r7d d);
  dv_hours_field : w !! "hours_since_rain" = Some (py_int (dv_hours d));
  dv_going_field : w !! "predicted_going" = Some (PStr (dv_going d));
  dv_drying_field : w !! "track_drying" = Some (PBool (fst (dv_trend d)));
  dv_wetting_field : w !! "track_wetting" = Some (PBool (snd (dv_trend d)));
  dv_sm01_field : w !! "soil_moisture_0_1cm" = Some (dv_sm01 d);
  dv_cur_field : w !! "precipitation_current" = Some (dv_cur d)
}.


(** A response from which the record at [idx] can be derived: every
    requested series reaches [idx], the precipitation before [idx] and the
    soil moistures and evapotranspiration at [idx] are numbers, and so is
    the surface moisture three hours earlier when there is such an hour. *)
Record usable (hourly : gmap string (list pyval)) (idx : nat) : Prop := {
  us_series : ∀ k, k ∈ Weather.HOURLY_VARS → ∃ v, Weather.series hourly k idx = Some v;
  us_rain : ∀ i, (i < idx)%nat →
    ∃ q, Weather.series hourly "precipitation" i ≫= as_num = Some q;
  us_ground : ∀ k,
    k ∈ [ "soil_moisture_0_to_1cm"; "soil_moisture_1_to_3cm";
          "soil_moisture_3_to_9cm"; "et0_fao_evapotranspiration" ] →
    ∃ q, Weather.series hourly k idx ≫= as_num = Some q;
  us_past : (3 ≤ idx)%nat →
    ∃ q, Weather.series hourly "soil_moisture_0_to_1cm" (idx - 3) ≫= as_num = Some q
}.

(** ** A sample platform *)

Definition hours_us (h : Z) (minutes : Z) : datetime :=
  (h * 3600 * 1000000 + minutes * 60 * 1000000)%Z.

(** The instants of 2025-10-20 the samples use, counted from midnight,
    with their renderings: ISO text, date, hour key and hour. *)
Definition SAMPLE_CALENDAR : list (datetime * (string * string * string * Z)) := [
  (hours_us 4 0,  ("2025-10-20T04:00:00", "2025-10-20", "2025-10-20T04:00", 4%Z));
  (hours_us 4 30, ("2025-10-20T04:30:00", "2025-10-20", "2025-10-20T04:00", 4%Z));
  (hours_us 4 45, ("2025-10-20T04:45:00", "2025-10-20", "2025-10-20T04:00", 4%Z));
  (hours_us 3 30, ("2025-10-20T03:30:00", "2025-10-20", "2025-10-20T03:00", 3%Z)) ].

Definition calendar_entry (t : datetime) : string * string * string * Z :=
  default ("", "", "", 0%Z)
    (snd <$> (snd <$> list_find (λ e, fst e = t) SAMPLE_CALENDAR)).

(** A platform whose calendar is [SAMPLE_CALENDAR]; the clock readings
    and the provider's answers are given. *)
Definition sample_platform (clk : nat → datetime)
    (get : nat → Request → option Response) : Platform := {|
  fromisoformat s :=
    fst <$> (snd <$> list_find (λ e, (snd e).1.1.1 = s) SAMPLE_CALENDAR);
  tz_aware _ := false;
  isoformat t := (calendar_entry t).1.1.1;
  strftime_date t := (calendar_entry t).1.1.2;
  strftime_hour t := (calendar_entry t).1.2;
  hour_of t := (calendar_entry t).2;
  clock := clk;
  requests_get := get
|}.

(** A provider that answers every request with the five-hour sample. *)
Definition sample_provider (precip soil : list pyval) (_ : nat) (_ : Request)
    : option Response :=
  Some {| status_code := 200; json_hourly := Some (sample_hourly precip soil) |}.

Definition fresh_world : World := {| tick := 0; db := empty_table |}.

(** Result and final state of a run from a given state. *)
Definition result_of {A} (m : M A) (w : World) : A := fst (m w).
Definition state_after {A} (m : M A) (w : World) : World := snd (m w).

(** *** Keys of the two tables *)

Definition daily_key (r : gmap string sqlval) : sqlval * sqlval * sqlval :=
  (col r "venue", col r "collection_date", col r "collection_hour").

Definition race_key (r : gmap string sqlval) : sqlval * sqlval :=
  (col r "market_id", col r "collection_timestamp").

(** Two sample weather dicts that differ in their readings. *)
Definition weather_a : gmap string pyval :=
  list_to_map [ ("temperature", PNum (dec 115 10)); ("predicted_going", PStr "Good");
                ("rainfall_24h", whole 0); ("fetched_at", PStr "2025-10-20T04:30:01") ].

Definition weather_b : gmap string pyval :=
  list_to_map [ ("temperature", PNum (dec 121 10)); ("humidity", whole 80);
                ("fetched_at", PStr "2025-10-20T04:45:01") ].

(** *** Sample runs *)

(** A clock that reads 04:30 at tick 0 and 04:45 from then on. *)
Definition clock_two_readings (n : nat) : datetime :=
  match n with O => hours_us 4 30 | S _ => hours_us 4 45 end.

(** A clock that returns the same reading every time. *)
Definition clock_stopped (_ : nat) : datetime := hours_us 4 30.

Definition newbury_a : DailyWeatherCollector.VenueData :=
  {| DailyWeatherCollector.vd_venue := "Newbury";
     DailyWeatherCollector.vd_country := "UK";
     DailyWeatherCollector.vd_weather := weather_a |}.

Definition newbury_b : DailyWeatherCollector.VenueData :=
  {| DailyWeatherCollector.vd_venue := "Newbury";
     DailyWeatherCollector.vd_country := "UK";
     DailyWeatherCollector.vd_weather := weather_b |}.

Definition race_update : WeatherCollector.RaceData :=
  {| WeatherCollector.rd_market_id := "1.234567";
     WeatherCollector.rd_venue := "Newbury";
     WeatherCollector.rd_race_date := "2025-10-20";
     WeatherCollector.rd_race_time := "04:30";
     WeatherCollector.rd_weather := weather_a |}.

(** The keys of the stored rows, in table order. *)
Definition daily_keys (w : World) : list (sqlval * sqlval * sqlval) :=
  (λ r, daily_key (row_cols r)) <$> tbl_rows (db w).

Definition race_keys (w : World) : list (sqlval * sqlval) :=
  (λ r, race_key (row_cols r)) <$> tbl_rows (db w).

(** A schedule of three races at 04:30, the second at a venue the catalog
    does not have. *)
Definition race_newbury : WeatherCollector.Race :=
  {| WeatherCollector.market_id := "1.234567"; WeatherCollector.venue := "Newbury";
     WeatherCollector.race_date := "2025-10-20"; WeatherCollector.race_time := "04:30" |}.

Definition race_unknown : WeatherCollector.Race :=
  {| WeatherCollector.market_id := "1.234568"; WeatherCollector.venue := "Longchamp";
     WeatherCollector.race_date := "2025-10-20"; WeatherCollector.race_time := "04:30" |}.

Definition race_ascot : WeatherCollector.Race :=
  {| WeatherCollector.market_id := "1.234569"; WeatherCollector.venue := "Ascot";
     WeatherCollector.race_date := "2025-10-20"; WeatherCollector.race_time := "04:30" |}.

(** Two more entries at a venue the catalog does not have: one that
    started half an hour before the clock reading of the sample runs, and
    one whose time is not a time. *)
Definition race_unknown_early : WeatherCollector.Race :=
  {| WeatherCollector.market_id := "1.234570"; WeatherCollector.venue := "Longchamp";
     WeatherCollector.race_date := "2025-10-20"; WeatherCollector.race_time := "03:30" |}.

Definition race_unknown_malformed : WeatherCollector.Race :=
  {| WeatherCollector.market_id := "1.234571"; WeatherCollector.venue := "Longchamp";
     WeatherCollector.race_date := "2025-10-20"; WeatherCollector.race_time := "4pm" |}.

Definition sample_schedule : list WeatherCollector.Race :=
  [race_newbury; race_unknown; race_ascot].

(** A clock that reads 04:00 at every tick, and the platform of the
    sample runs. *)
Definition clock_at_four (_ : nat) : datetime := hours_us 4 0.

Definition run_platform : Platform :=
  sample_platform clock_at_four (sample_provider dry_hours soil_steady).

(** ** Further definitions used by the statements *)

(** A value that is not a negative number. *)
Definition nonneg_value (v : pyval) : bool :=
  match as_num v with
  | Some q => bool_decide (0 ≤ q)
  | None => true
  end.

Definition all_nonneg (l : list pyval) : bool := forallb nonneg_value l.

(** The four rainfall sums of a record. *)
Definition RAINFALL_SUMS : list string :=
  [ "rainfall_3h"; "rainfall_6h"; "rainfall_24h"; "rainfall_7d" ].

(** A response of [n] hours in which every requested measurement reads
    0.2, with the given precipitation series. *)
Definition steady_hourly (n : nat) (precip : list pyval) : gmap string (list pyval) :=
  <["precipitation" := precip]>
    (list_to_map ((λ k, (k, replicate n (PNum (dec 2 10)))) <$> Weather.HOURLY_VARS)).

(** Thirty hours of drizzle, 0.05 an hour, and thirty hours with 1.5 in
    each. *)
Definition drizzle_30 : list pyval := replicate 30 (PNum (dec 5 100)).
Definition rain_30 : list pyval := replicate 30 (PNum (dec 15 10)).

Definition steady_record (n : nat) (precip : list pyval) (idx : nat) : gmap string pyval :=
  default ∅ (Weather.feature_record (steady_hourly n precip) idx
               "Newbury" "UK" "2025-10-21T05:30:00").

(** The raw readings of a record: each key with the requested measurement
    it is read from. *)
Definition RAW_FIELDS : list (string * string) := [
  ("temperature", "temperature_2m");
  ("apparent_temperature", "apparent_temperature");
  ("precipitation_current", "precipitation");
  ("rain_current", "rain");
  ("wind_speed", "wind_speed_10m");
  ("wind_direction", "wind_direction_10m");
  ("wind_gusts", "wind_gusts_10m");
  ("humidity", "relative_humidity_2m");
  ("dew_point", "dew_point_2m");
  ("pressure", "pressure_msl");
  ("cloud_cover", "cloud_cover");
  ("visibility", "visibility");
  ("weather_code", "weather_code");
  ("precipitation_probability", "precipitation_probability");
  ("soil_moisture_0_1cm", "soil_moisture_0_to_1cm");
  ("soil_moisture_1_3cm", "soil_moisture_1_to_3cm");
  ("soil_moisture_3_9cm", "soil_moisture_3_to_9cm");
  ("soil_temperature_0cm", "soil_temperature_0cm");
  ("soil_temperature_6cm", "soil_temperature_6cm");
  ("evapotranspiration", "et0_fao_evapotranspiration") ].

(** Can the filter compare the start of a schedule entry with the clock:
    do its date and time parse, and to a naive value?  And does the entry
    start within [t, cutoff]? *)
Definition comparable `{Platform} (race : WeatherCollector.Race) : bool :=
  bool_decide (is_Some (fromisoformat (WeatherCollector.race_iso race)))
  && negb (tz_aware (WeatherCollector.race_iso race)).

Definition in_window `{Platform} (t cutoff : datetime) (race : WeatherCollector.Race)
    : bool :=
  match fromisoformat (WeatherCollector.race_iso race) with
  | Some race_dt => bool_decide (t ≤ race_dt ∧ race_dt ≤ cutoff)%Z
  | None => false
  end.

(** The entries of a schedule that a run at clock reading [t] collects. *)
Definition kept_races `{Platform} (t : datetime) (races : list WeatherCollector.Race)
    : list WeatherCollector.Race :=
  List.filter (in_window t (t + timedelta_hours 48)%Z) races.

(** *** Numbers within the signed 64-bit range

    Where every number is in this range, no [int] is too large for a
    [float] or for the database driver: Python's arithmetic and
    formatting and the driver's binding raise no [OverflowError]. *)
Definition in_int64 (q : Qc) : bool :=
  bool_decide (- Q2Qc (inject_Z (2 ^ 63)) ≤ q ∧ q < Q2Qc (inject_Z (2 ^ 63))).

Definition int64_value (v : pyval) : bool :=
  match v with
  | PNum q => in_int64 q
  | _ => true
  end.

(** Every value of a response, and every value of a record that is bound
    to a column. *)
Definition int64_response (hourly : gmap string (list pyval)) : bool :=
  forallb (λ kv, forallb int64_value kv.2) (map_to_list hourly).

Definition int64_record (weather : gmap string pyval) : bool :=
  forallb (λ f, int64_value (dict_get weather f.2)) WEATHER_FIELDS.

(** A table that can still hand out a row id. *)
Definition has_free_rowid (t : table) : bool :=
  bool_decide (next_rowid t < 2 ^ 63)%Z.

(** * Proofs *)

Import Weather.


(** ** Generic facts *)

Lemma lookup_list_to_map_assoc {A} (l : list (string * A)) (k : string) :
  (list_to_map l : gmap string A) !! k = assoc k l.
Proof.
  induction l as [|[k' v] l IH]; simpl.
  - apply lookup_empty.
  - destruct (String.eqb_spec k' k) as [->|Hne].
    + apply lookup_insert_eq.
    + rewrite lookup_insert_ne by done. apply IH.
Qed.

Lemma bind_Some_inv {A B} (m : option A) (k : A → option B) (b : B) :
  m ≫= k = Some b → ∃ a, m = Some a ∧ k a = Some b.
Proof. destruct m as [a|]; simpl; [eauto | discriminate]. Qed.

Ltac inv_bind H :=
  let a := fresh "v" in
  let Ha := fresh "Hv" in
  apply bind_Some_inv in H; destruct H as (a & Ha & H).

Ltac lookup_record :=
  rewrite lookup_list_to_map_assoc; reflexivity.

(** ** weather.py: what a feature record is made of *)

Lemma feature_record_derives hourly idx venue country iso w :
  feature_record hourly idx venue country iso = Some w →
  ∃ d, derives hourly idx w d.
Proof.
  unfold feature_record. intros H.
  do 32 inv_bind H.
  apply (inj Some) in H. subst w.
  unfold series in *.
  rewrite Hv13 in Hv6. rewrite Hv in Hv17. simpl in Hv6, Hv17.
  exists {| dv_precip := v; dv_sm01s := v13; dv_sm01 := v6; dv_cur := v17;
            dv_r1 := v0; dv_r3 := v1; dv_r6 := v2; dv_r24 := v3; dv_r7d := v4;
            dv_hours := v5; dv_going := v12; dv_trend := v14 |}.
  split; first [ lookup_record | assumption ].
Qed.

(** ** Python arithmetic on numbers *)

Lemma py_add_inv x y r :
  py_add x y = Some r → ∃ a b, as_num x = Some a ∧ as_num y = Some b ∧ r = PNum (a + b).
Proof.
  unfold py_add. intros H. inv_bind H. inv_bind H.
  apply (inj Some) in H. eauto 6.
Qed.

Lemma py_lt_inv x y r :
  py_lt x y = Some r → ∃ a b, as_num x = Some a ∧ as_num y = Some b ∧ r = bool_decide (a < b).
Proof.
  unfold py_lt. intros H. inv_bind H. inv_bind H.
  apply (inj Some) in H. eauto 6.
Qed.

Lemma py_gt_inv x y r :
  py_gt x y = Some r → ∃ a b, as_num x = Some a ∧ as_num y = Some b ∧ r = bool_decide (b < a).
Proof.
  unfold py_gt. intros H. inv_bind H. inv_bind H.
  apply (inj Some) in H. eauto 6.
Qed.

Lemma num_of_Some x b : as_num x = Some b → num_of x = b.
Proof. unfold num_of. intros ->. reflexivity. Qed.

Lemma py_sum_from_spec l : ∀ a r,
  py_sum_from (PNum a) l = Some r →
  r = PNum (a + foldr Qcplus 0 (num_of <$> l)) ∧ Forall (λ v, is_Some (as_num v)) l.
Proof.
  induction l as [|x l IH]; intros a r H; simpl in H.
  - apply (inj Some) in H. subst r. split; [f_equal; cbn [fmap list_fmap foldr]; ring | constructor].
  - inv_bind H. apply py_add_inv in Hv as (a' & b & Ha & Hb & ->).
    simpl in Ha. apply (inj Some) in Ha. subst a'.
    apply IH in H as [-> HF]. split.
    + f_equal. rewrite fmap_cons. cbn [foldr]. rewrite (num_of_Some x b Hb). ring.
    + constructor; [rewrite Hb; eauto | exact HF].
Qed.

Lemma num_of_slice (l : list pyval) (lo hi : nat) :
  (lo ≤ hi)%nat → (hi ≤ length l)%nat →
  num_of <$> py_slice l lo hi = num_at l <$> seq lo (hi - lo).
Proof.
  intros Hlo Hhi. unfold py_slice. apply list_eq. intros i.
  rewrite !list_lookup_fmap, lookup_drop.
  destruct (decide (i < hi - lo)%nat) as [Hi|Hi].
  - rewrite lookup_take_lt by lia. rewrite lookup_seq_lt by lia. simpl.
    destruct (lookup_lt_is_Some_2 l (lo + i)%nat ltac:(lia)) as [x Hx].
    unfold num_at. rewrite Hx. reflexivity.
  - rewrite lookup_take_ge by lia. rewrite lookup_seq_ge by lia. reflexivity.
Qed.

(** A full window [[idx - n, idx)] inside the series sums to the
    specification's window sum, and every value in it is a number. *)
Lemma window_sum_spec (precip : list pyval) (idx n : nat) (r : pyval) :
  (n ≤ idx)%nat → (idx ≤ length precip)%nat →
  py_sum (py_slice precip (Nat.max 0 (idx - n)) idx) = Some r →
  r = PNum (spec_window_sum precip (idx - n) idx).
Proof.
  intros Hn Hidx H. unfold py_sum in H.
  apply py_sum_from_spec in H as [-> _]. f_equal.
  rewrite Nat.max_0_l, num_of_slice by lia.
  unfold spec_window_sum. replace (idx - (idx - n))%nat with n by lia.
  ring.
Qed.

Lemma slice_all_numbers (precip : list pyval) (idx : nat) (r : pyval) :
  py_sum (py_slice precip 0 idx) = Some r →
  ∀ i x, (i < idx)%nat → precip !! i = Some x → is_Some (as_num x).
Proof.
  intros H i x Hi Hx. unfold py_sum in H.
  apply py_sum_from_spec in H as [_ HF].
  rewrite Forall_lookup in HF. apply (HF i).
  unfold py_slice. rewrite lookup_drop, lookup_take_lt by lia. exact Hx.
Qed.

Lemma py_sum_from_total l : ∀ a,
  Forall (λ v, is_Some (as_num v)) l → ∃ r, py_sum_from (PNum a) l = Some (PNum r).
Proof.
  induction l as [|x l IH]; intros a Hl; [by eexists |].
  apply Forall_cons in Hl as [[b Hb] Hl]. cbn [py_sum_from].
  unfold py_add. cbn [as_num]. rewrite Hb. cbn [mbind option_bind]. by apply IH.
Qed.

(** ** weather.py: rainfall accumulations *)

Lemma derives_idx_in_range hourly idx w d :
  derives hourly idx w d → (idx < length (dv_precip d))%nat.
Proof. intros D. eapply lookup_lt_Some, (dv_cur_at _ _ _ _ D). Qed.

Lemma rainfall_3h_spec precip idx r :
  (idx < length precip)%nat → Weather.rainfall_3h precip idx = Some r →
  ((3 ≤ idx)%nat → r = PNum (spec_window_sum precip (idx - 3) idx)) ∧
  ((idx < 3)%nat → r = PNum 0).
Proof.
  unfold Weather.rainfall_3h. intros Hlen H. case_bool_decide as Hc.
  - split; [intros _ | lia]. eapply window_sum_spec; [done | lia | done].
  - split; [lia | intros _]. by apply (inj Some) in H.
Qed.

Lemma rainfall_6h_spec precip idx r :
  (idx < length precip)%nat → Weather.rainfall_6h precip idx = Some r →
  ((6 ≤ idx)%nat → r = PNum (spec_window_sum precip (idx - 6) idx)) ∧
  ((idx < 6)%nat → r = PNum 0).
Proof.
  unfold Weather.rainfall_6h. intros Hlen H. case_bool_decide as Hc.
  - split; [intros _ | lia]. eapply window_sum_spec; [done | lia | done].
  - split; [lia | intros _]. by apply (inj Some) in H.
Qed.

Lemma rainfall_24h_spec precip idx r :
  (idx < length precip)%nat → Weather.rainfall_24h precip idx = Some r →
  ((24 ≤ idx)%nat → r = PNum (spec_window_sum precip (idx - 24) idx)) ∧
  ((idx < 24)%nat → r = PNum 0).
Proof.
  unfold Weather.rainfall_24h. intros Hlen H. case_bool_decide as Hc.
  - split; [intros _ | lia]. eapply window_sum_spec; [done | lia | done].
  - split; [lia | intros _]. by apply (inj Some) in H.
Qed.

Lemma rainfall_7d_spec precip idx r :
  (idx < length precip)%nat → Weather.rainfall_7d precip idx = Some r →
  ((0 < idx)%nat → r = PNum (spec_window_sum precip 0 idx)) ∧
  (idx = 0%nat → r = PNum 0).
Proof.
  unfold Weather.rainfall_7d. intros Hlen H. case_bool_decide as Hc.
  - split; [intros _ | lia].
    pose proof (window_sum_spec precip idx idx r) as Hw.
    rewrite Nat.sub_diag in Hw. apply Hw; [lia | lia | exact H].
  - split; [lia | intros _]. by apply (inj Some) in H.
Qed.

Lemma rainfall_1h_spec precip idx r :
  Weather.rainfall_1h precip idx = Some r →
  ((0 < idx)%nat → precip !! idx = Some r) ∧ (idx = 0%nat → r = PNum 0).
Proof.
  unfold Weather.rainfall_1h. intros H. case_bool_decide as Hc.
  - split; [done | lia].
  - split; [lia | intros _]. by apply (inj Some) in H.
Qed.

(** The three summed windows of a record. *)
Lemma sum_window_field hourly idx w d n key :
  derives hourly idx w d → (n, key) ∈ SUM_WINDOWS →
  ∃ r, w !! key = Some r ∧
    ((n ≤ idx)%nat → r = PNum (spec_window_sum (dv_precip d) (idx - n) idx)) ∧
    ((idx < n)%nat → r = PNum 0).
Proof.
  intros D Hin. pose proof (derives_idx_in_range _ _ _ _ D) as Hlen.
  unfold SUM_WINDOWS in Hin.
  apply elem_of_cons in Hin as [Heq|Hin]; [|apply elem_of_cons in Hin as [Heq|Hin];
    [|apply elem_of_cons in Hin as [Heq|Hin]; [|by apply elem_of_nil in Hin]]];
    inversion Heq; subst n key; clear Heq.
  - exists (dv_r3 d). split; [apply D|]. apply rainfall_3h_spec; [done | apply D].
  - exists (dv_r6 d). split; [apply D|]. apply rainfall_6h_spec; [done | apply D].
  - exists (dv_r24 d). split; [apply D|]. apply rainfall_24h_spec; [done | apply D].
Qed.

(** A window of numbers sums to a number. *)
Lemma py_sum_window_total precip lo hi :
  (∀ i, (lo ≤ i < hi)%nat → ∃ q, precip !! i ≫= as_num = Some q) →
  ∃ r, py_sum (py_slice precip lo hi) = Some (PNum r).
Proof.
  intros Hnum. apply py_sum_from_total, Forall_lookup. intros i x Hx.
  unfold py_slice in Hx. rewrite lookup_drop in Hx.
  apply lookup_take_Some in Hx as [Hx Hlt].
  destruct (Hnum (lo + i)%nat ltac:(lia)) as [q Hq]. rewrite Hx in Hq. by exists q.
Qed.

Lemma rainfall_window_total precip idx n :
  (0 < n)%nat →
  (∀ i, (idx - n ≤ i < idx)%nat → ∃ q, precip !! i ≫= as_num = Some q) →
  (if bool_decide (n ≤ idx)%nat
   then py_sum (py_slice precip (Nat.max 0 (idx - n)) idx) else Some (PNum 0))
  = Some (PNum (if bool_decide (n ≤ idx)%nat
                then spec_window_sum precip (idx - n) idx else 0)).
Proof.
  intros Hpos Hnum. case_bool_decide as Hn; [| reflexivity].
  destruct (py_sum_window_total precip (Nat.max 0 (idx - n)) idx) as [r Hr].
  { intros i Hi. apply Hnum. lia. }
  rewrite Hr. apply window_sum_spec in Hr; [by rewrite Hr | done |].
  destruct (Hnum (idx - 1)%nat ltac:(lia)) as [q Hq].
  destruct (precip !! (idx - 1)%nat) eqn:E; [| discriminate Hq].
  apply lookup_lt_Some in E. lia.
Qed.

(** C3.  In every feature record, [rainfall_3h], [rainfall_6h] and
    [rainfall_24h] are the sum of the precipitation values at the indices
    [[idx - N, idx)] when [idx >= N] and are 0 when [idx < N]; the values
    before [idx] are all numbers.  And each of the three is computed
    whenever the values of the last 24 hours are numbers: the sum of its
    window from [idx >= N] on, 0 below.  For precipitation [0, 0, 2, 0, 0]
    and reference index 4 the record has [rainfall_3h = 2]. *)
Theorem rainfall_windows_sum_or_zero :
  (∀ hourly idx venue country iso w,
     Weather.feature_record hourly idx venue country iso = Some w →
     ∃ precip, hourly !! "precipitation" = Some precip ∧
       (∀ i, (i < idx)%nat → ∃ q, precip !! i ≫= as_num = Some q) ∧
       ∀ n key, (n, key) ∈ SUM_WINDOWS →
         ((n ≤ idx)%nat → w !! key = Some (PNum (spec_window_sum precip (idx - n) idx))) ∧
         ((idx < n)%nat → w !! key = Some (PNum 0))) ∧
  (∀ precip idx,
     (∀ i, (idx - 24 ≤ i < idx)%nat →
        ∃ q, precip !! i ≫= as_num = Some q ∧ in_int64 q = true) →
     Weather.rainfall_3h precip idx
     = Some (PNum (if bool_decide (3 ≤ idx)%nat
                   then spec_window_sum precip (idx - 3) idx else 0)) ∧
     Weather.rainfall_6h precip idx
     = Some (PNum (if bool_decide (6 ≤ idx)%nat
                   then spec_window_sum precip (idx - 6) idx else 0)) ∧
     Weather.rainfall_24h precip idx
     = Some (PNum (if bool_decide (24 ≤ idx)%nat
                   then spec_window_sum precip (idx - 24) idx else 0))) ∧
  (Weather.feature_record (sample_hourly rain_at_hour_2 soil_steady) 4
     "Newbury" "UK" "2025-10-20T04:30:00" ≫= (.!! "rainfall_3h")
   = Some (PNum (dec 2 1))).
Proof.
  split; [| split; [| by vm_compute]].
  - intros hourly idx venue country iso w H.
    apply feature_record_derives in H as [d D].
    pose proof (derives_idx_in_range _ _ _ _ D) as Hlen.
    exists (dv_precip d). split; [apply D|]. split.
    + intros i Hi.
      destruct (lookup_lt_is_Some_2 (dv_precip d) i ltac:(lia)) as [x Hx].
      rewrite Hx. simpl.
      destruct (decide (idx = 0%nat)) as [->|Hpos]; [lia|].
      pose proof (dv_r7d_eq _ _ _ _ D) as H7. unfold Weather.rainfall_7d in H7.
      rewrite bool_decide_eq_true_2 in H7 by lia.
      destruct (slice_all_numbers _ _ _ H7 i x Hi Hx) as [q Hq]. eauto.
    + intros n key Hin.
      destruct (sum_window_field _ _ _ _ _ _ D Hin) as (r & Hr & Hfull & Hclip).
      split; intros Hc; rewrite Hr; f_equal; auto.
  - intros precip idx Hnum.
    unfold Weather.rainfall_3h, Weather.rainfall_6h, Weather.rainfall_24h.
    split; [| split]; (apply rainfall_window_total; [lia |]); intros i Hi;
      (destruct (Hnum i ltac:(lia)) as (q & Hq & _); by exists q).
Qed.

Lemma succeeded_is_Some {A} (m : option A) : succeeded m = true → is_Some m.
Proof. destruct m; [eauto | discriminate]. Defined.

Lemma sample_record_computed precip soil idx :
  succeeded (Weather.feature_record (sample_hourly precip soil) idx
               "Newbury" "UK" "2025-10-20T04:30:00") = true →
  Weather.feature_record (sample_hourly precip soil) idx
    "Newbury" "UK" "2025-10-20T04:30:00"
  = Some (sample_record precip soil idx).
Proof.
  intros H. apply succeeded_is_Some in H as [w Hw].
  unfold sample_record. rewrite Hw. reflexivity.
Defined.

Ltac sample_computed := apply sample_record_computed; vm_compute; reflexivity.

Lemma steady_record_computed n precip idx :
  succeeded (Weather.feature_record (steady_hourly n precip) idx
               "Newbury" "UK" "2025-10-21T05:30:00") = true →
  Weather.feature_record (steady_hourly n precip) idx "Newbury" "UK" "2025-10-21T05:30:00"
  = Some (steady_record n precip idx).
Proof.
  intros H. apply succeeded_is_Some in H as [w Hw].
  unfold steady_record. rewrite Hw. reflexivity.
Defined.

Ltac steady_computed := apply steady_record_computed; vm_compute; reflexivity.

Lemma rainfall_windows_sum_or_zero_witness :
  (∃ precip,
     steady_hourly 30 rain_30 !! "precipitation" = Some precip ∧
     (∀ i, (i < 29)%nat → ∃ q, precip !! i ≫= as_num = Some q) ∧
     ∀ n key, (n, key) ∈ SUM_WINDOWS →
       ((n ≤ 29)%nat →
          steady_record 30 rain_30 29 !! key
          = Some (PNum (spec_window_sum precip (29 - n) 29))) ∧
       ((29 < n)%nat → steady_record 30 rain_30 29 !! key = Some (PNum 0))) ∧
  (Weather.rainfall_3h rain_30 29
   = Some (PNum (if bool_decide (3 ≤ 29)%nat
                 then spec_window_sum rain_30 (29 - 3) 29 else 0)) ∧
   Weather.rainfall_6h rain_30 29
   = Some (PNum (if bool_decide (6 ≤ 29)%nat
                 then spec_window_sum rain_30 (29 - 6) 29 else 0)) ∧
   Weather.rainfall_24h rain_30 29
   = Some (PNum (if bool_decide (24 ≤ 29)%nat
                 then spec_window_sum rain_30 (29 - 24) 29 else 0))).
Proof.
  split.
  - apply (proj1 rainfall_windows_sum_or_zero
             (steady_hourly 30 rain_30) 29%nat
             "Newbury" "UK" "2025-10-21T05:30:00"
             (steady_record 30 rain_30 29)).
    steady_computed.
  - apply (proj1 (proj2 rainfall_windows_sum_or_zero) rain_30 29%nat).
    intros i Hi.
    do 29 (destruct i as [|i];
           [first [ lia | eexists; split; [reflexivity | vm_compute; reflexivity] ] |]).
    lia.
Defined.

(** C8.  [rainfall_1h] of a feature record is the precipitation value at
    the reference index itself when [idx > 0] (the same value the record
    stores as [precipitation_current]) and 0 when [idx = 0]. *)
Theorem rainfall_1h_is_current_reading hourly idx venue country iso w :
  Weather.feature_record hourly idx venue country iso = Some w →
  ∃ precip cur, hourly !! "precipitation" = Some precip ∧
    precip !! idx = Some cur ∧
    w !! "precipitation_current" = Some cur ∧
    ((0 < idx)%nat → w !! "rainfall_1h" = Some cur) ∧
    (idx = 0%nat → w !! "rainfall_1h" = Some (PNum 0)).
Proof.
  intros H. apply feature_record_derives in H as [d D].
  exists (dv_precip d), (dv_cur d).
  destruct (rainfall_1h_spec _ _ _ (dv_r1_eq _ _ _ _ D)) as [Hpos Hzero].
  repeat split; try apply D.
  - intros Hc. rewrite (dv_r1_field _ _ _ _ D), <- (dv_cur_at _ _ _ _ D). symmetry. auto.
  - intros Hc. rewrite (dv_r1_field _ _ _ _ D). f_equal. auto.
Qed.

Lemma rainfall_1h_is_current_reading_witness :
  ∃ precip cur,
    sample_hourly rain_at_hour_2 soil_steady !! "precipitation" = Some precip ∧
    precip !! 2%nat = Some cur ∧
    sample_record rain_at_hour_2 soil_steady 2 !! "precipitation_current" = Some cur ∧
    ((0 < 2)%nat → sample_record rain_at_hour_2 soil_steady 2 !! "rainfall_1h" = Some cur) ∧
    (2%nat = 0%nat → sample_record rain_at_hour_2 soil_steady 2 !! "rainfall_1h" = Some (PNum 0)).
Proof.
  apply (rainfall_1h_is_current_reading
           (sample_hourly rain_at_hour_2 soil_steady) 2%nat
           "Newbury" "UK" "2025-10-20T04:30:00").
  sample_computed.
Defined.

(** C4, counterexample.  Five dry hours and reference index 4: the window
    of [rainfall_3h] is full ([4 >= 3]) and the result is 0 all the same,
    so "zero exactly when the window is clipped" fails. *)
Lemma zero_iff_clipped_fails_on_dry_window :
  Weather.feature_record (sample_hourly dry_hours soil_steady) 4
    "Newbury" "UK" "2025-10-20T04:30:00" ≫= (.!! "rainfall_3h") = Some (PNum 0) ∧
  ¬ (Weather.feature_record (sample_hourly dry_hours soil_steady) 4
       "Newbury" "UK" "2025-10-20T04:30:00" ≫= (.!! "rainfall_3h") = Some (PNum 0)
     ↔ (4 < 3)%nat).
Proof.
  assert (H : Weather.feature_record (sample_hourly dry_hours soil_steady) 4
    "Newbury" "UK" "2025-10-20T04:30:00" ≫= (.!! "rainfall_3h") = Some (PNum 0))
    by (vm_compute; reflexivity).
  split; [exact H |]. intros [Hto _]. specialize (Hto H). lia.
Qed.

(** The 7-day sum is not clipped at its window size: one wet hour before
    reference index 1 gives a non-zero [rainfall_7d] although [1 < 168]. *)
Lemma rainfall_7d_partial_history :
  Weather.feature_record
    (sample_hourly [whole 1; whole 0; whole 0; whole 0; whole 0] soil_steady) 1
    "Newbury" "UK" "2025-10-20T01:30:00" ≫= (.!! "rainfall_7d") = Some (whole 1).
Proof. vm_compute. reflexivity. Qed.

(** C4, amended.  Each of [rainfall_1h], [rainfall_3h], [rainfall_6h] and
    [rainfall_24h] is 0 when [idx] is below its window size, and
    [rainfall_7d] is 0 when [idx = 0]; so a non-zero value means a full
    window.  With a full window the three sums and the 7-day sum are the
    sum of their window, whatever it is, zero included. *)
Theorem clipped_window_gives_zero hourly idx venue country iso w :
  Weather.feature_record hourly idx venue country iso = Some w →
  (∀ n key, (n, key) ∈ CLIPPED_WINDOWS →
     ((idx < n)%nat → w !! key = Some (PNum 0)) ∧
     (w !! key ≠ Some (PNum 0) → (n ≤ idx)%nat)) ∧
  (idx = 0%nat → w !! "rainfall_7d" = Some (PNum 0)) ∧
  ∃ precip, hourly !! "precipitation" = Some precip ∧
    (∀ n key, (n, key) ∈ SUM_WINDOWS → (n ≤ idx)%nat →
       w !! key = Some (PNum (spec_window_sum precip (idx - n) idx))) ∧
    ((0 < idx)%nat → w !! "rainfall_7d" = Some (PNum (spec_window_sum precip 0 idx))).
Proof.
  intros H. apply feature_record_derives in H as [d D].
  pose proof (derives_idx_in_range _ _ _ _ D) as Hlen.
  assert (Hclip : ∀ n key, (n, key) ∈ CLIPPED_WINDOWS →
            (idx < n)%nat → w !! key = Some (PNum 0)).
  { intros n key Hin Hc. unfold CLIPPED_WINDOWS in Hin.
    apply elem_of_cons in Hin as [Heq|Hin].
    - inversion Heq; subst n key.
      rewrite (dv_r1_field _ _ _ _ D). f_equal.
      apply (rainfall_1h_spec _ _ _ (dv_r1_eq _ _ _ _ D)). lia.
    - destruct (sum_window_field _ _ _ _ _ _ D Hin) as (r & Hr & _ & Hz).
      rewrite Hr. f_equal. auto. }
  split; [|split].
  - intros n key Hin. split; [by apply Hclip |].
    intros Hne. destruct (decide (n ≤ idx)%nat) as [|Hlt]; [done |].
    exfalso. apply Hne, (Hclip n); [done | lia].
  - intros ->. rewrite (dv_r7d_field _ _ _ _ D). f_equal.
    by apply (rainfall_7d_spec _ _ _ Hlen (dv_r7d_eq _ _ _ _ D)).
  - exists (dv_precip d). split; [apply D |]. split.
    + intros n key Hin Hn.
      destruct (sum_window_field _ _ _ _ _ _ D Hin) as (r & Hr & Hfull & _).
      rewrite Hr. f_equal. auto.
    + intros Hpos. rewrite (dv_r7d_field _ _ _ _ D). f_equal.
      by apply (rainfall_7d_spec _ _ _ Hlen (dv_r7d_eq _ _ _ _ D)).
Qed.

Lemma clipped_window_gives_zero_witness :
  (∀ n key, (n, key) ∈ CLIPPED_WINDOWS →
     ((2 < n)%nat → sample_record rain_at_hour_2 soil_steady 2 !! key = Some (PNum 0)) ∧
     (sample_record rain_at_hour_2 soil_steady 2 !! key ≠ Some (PNum 0) → (n ≤ 2)%nat)) ∧
  (2%nat = 0%nat → sample_record rain_at_hour_2 soil_steady 2 !! "rainfall_7d" = Some (PNum 0)) ∧
  ∃ precip, sample_hourly rain_at_hour_2 soil_steady !! "precipitation" = Some precip ∧
    (∀ n key, (n, key) ∈ SUM_WINDOWS → (n ≤ 2)%nat →
       sample_record rain_at_hour_2 soil_steady 2 !! key
       = Some (PNum (spec_window_sum precip (2 - n) 2))) ∧
    ((0 < 2)%nat →
       sample_record rain_at_hour_2 soil_steady 2 !! "rainfall_7d"
       = Some (PNum (spec_window_sum precip 0 2))).
Proof.
  apply (clipped_window_gives_zero
           (sample_hourly rain_at_hour_2 soil_steady) 2%nat
           "Newbury" "UK" "2025-10-20T04:30:00").
  sample_computed.
Defined.

(** ** weather.py: hours since rain *)

Lemma py_gt_threshold x t wet :
  py_gt x (PNum t) = Some wet → ∃ q, as_num x = Some q ∧ wet = bool_decide (t < q).
Proof.
  intros H. apply py_gt_inv in H as (a & b & Ha & Hb & ->).
  simpl in Hb. apply (inj Some) in Hb. subst b. eauto.
Qed.

Lemma hours_loop_spec precip : ∀ n acc h,
  Weather.hours_loop precip n acc = Some h →
  ∃ k, h = (acc + k)%nat ∧ (k ≤ n)%nat ∧
    (∀ j, (n - k ≤ j < n)%nat → dry_at precip j) ∧
    ((k < n)%nat → wet_at precip (n - k - 1)).
Proof.
  induction n as [|n IH]; intros acc h H; simpl in H.
  - apply (inj Some) in H. subst h. exists 0%nat.
    repeat split; [lia | lia | intros; lia | intros; lia].
  - inv_bind H. inv_bind H.
    apply py_gt_threshold in Hv0 as (q & Hq & ->).
    case_bool_decide as Hwet.
    + apply (inj Some) in H. subst h. exists 0%nat.
      repeat split; [lia | lia | intros; lia |].
      intros _. replace (S n - 0 - 1)%nat with n by lia.
      exists q. rewrite Hv. simpl. done.
    + apply IH in H as (k & -> & Hk & Hdry & Hstop). exists (S k).
      repeat split; [lia | lia | |].
      * intros j Hj. destruct (decide (j = n)) as [->|Hne].
        -- exists q. rewrite Hv. simpl. split; [done | by apply Qcnot_lt_le].
        -- apply Hdry. lia.
      * intros Hlt. replace (S n - S k - 1)%nat with (n - k - 1)%nat by lia.
        apply Hstop. lia.
Qed.

Lemma dry_not_wet precip j : dry_at precip j → ¬ wet_at precip j.
Proof.
  intros (q & Hq & Hle) (q' & Hq' & Hlt).
  rewrite Hq in Hq'. apply (inj Some) in Hq'. subst q'.
  by apply Qcle_not_lt in Hle.
Qed.

(** C5.  [hours_since_rain] of a feature record is the length [h] of the
    run of hours just before [idx] whose precipitation is at most 0.1: the
    [h] hours before [idx] are all such hours, and the run ends either at
    index 0 or at an hour with more than 0.1.  So [0 <= h <= idx], and
    [h = idx] exactly when no hour before [idx] has more than 0.1. *)
Theorem hours_since_rain_counts_dry_run hourly idx venue country iso w :
  Weather.feature_record hourly idx venue country iso = Some w →
  ∃ precip h, hourly !! "precipitation" = Some precip ∧
    w !! "hours_since_rain" = Some (py_int h) ∧
    (0 ≤ h ≤ idx)%nat ∧
    (∀ j, (idx - h ≤ j < idx)%nat → dry_at precip j) ∧
    ((h < idx)%nat → wet_at precip (idx - h - 1)) ∧
    (h = idx ↔ ∀ j, (j < idx)%nat → ¬ wet_at precip j).
Proof.
  intros H. apply feature_record_derives in H as [d D].
  pose proof (dv_hours_eq _ _ _ _ D) as Hh. unfold Weather.hours_since_rain in Hh.
  apply hours_loop_spec in Hh as (k & Hk & Hle & Hdry & Hstop). simpl in Hk.
  exists (dv_precip d), (dv_hours d). rewrite Hk in *.
  split; [apply D |]. split; [rewrite <- Hk; apply D |].
  split; [lia |]. split; [exact Hdry |]. split; [exact Hstop |]. split.
  - intros -> j Hj. apply dry_not_wet, Hdry. lia.
  - intros Hnone. destruct (decide (k = idx)) as [|Hne]; [done |].
    exfalso. apply (Hnone (idx - k - 1)%nat); [lia |]. apply Hstop. lia.
Qed.

Lemma hours_since_rain_counts_dry_run_witness :
  ∃ precip h,
    sample_hourly rain_at_hour_2 soil_steady !! "precipitation" = Some precip ∧
    sample_record rain_at_hour_2 soil_steady 4 !! "hours_since_rain" = Some (py_int h) ∧
    (0 ≤ h ≤ 4)%nat ∧
    (∀ j, (4 - h ≤ j < 4)%nat → dry_at precip j) ∧
    ((h < 4)%nat → wet_at precip (4 - h - 1)) ∧
    (h = 4%nat ↔ ∀ j, (j < 4)%nat → ¬ wet_at precip j).
Proof.
  apply (hours_since_rain_counts_dry_run
           (sample_hourly rain_at_hour_2 soil_steady) 4%nat
           "Newbury" "UK" "2025-10-20T04:30:00").
  sample_computed.
Defined.

(** ** weather.py: going and trend *)

Ltac qc_order :=
  unfold Qclt, Qcle, dec in *; cbn [this Q2Qc] in *;
  repeat match goal with
  | H : context [Qred ?x] |- _ => setoid_rewrite (Qred_correct x) in H
  | |- context [Qred ?x] => setoid_rewrite (Qred_correct x)
  end; lra.

Lemma predicted_going_number q :
  Weather.predicted_going (PNum q) =
  Some (if decide (q < dec 15 100) then "Firm"
        else if decide (q < dec 25 100) then "Good"
        else if decide (q < dec 35 100) then "Soft" else "Heavy").
Proof.
  unfold Weather.predicted_going, py_lt. cbn [as_num mbind option_bind].
  repeat (case_bool_decide; cbn [mbind option_bind]);
    repeat case_decide; done.
Qed.

(** C6.  On every number the going is defined, and its four labels have
    the ranges [q < 0.15] (Firm), [0.15 <= q < 0.25] (Good),
    [0.25 <= q < 0.35] (Soft) and [0.35 <= q] (Heavy), which are disjoint
    and leave no gap; a larger moisture never gives a firmer label; 0.20
    gives Good; and the record's [predicted_going] is that label of the
    surface soil moisture at [idx]. *)
Theorem predicted_going_partitions :
  (∀ q, ∃ g, Weather.predicted_going (PNum q) = Some g ∧
      g ∈ ["Firm"; "Good"; "Soft"; "Heavy"]) ∧
  (∀ q,
     (Weather.predicted_going (PNum q) = Some "Firm" ↔ q < dec 15 100) ∧
     (Weather.predicted_going (PNum q) = Some "Good" ↔ dec 15 100 ≤ q ∧ q < dec 25 100) ∧
     (Weather.predicted_going (PNum q) = Some "Soft" ↔ dec 25 100 ≤ q ∧ q < dec 35 100) ∧
     (Weather.predicted_going (PNum q) = Some "Heavy" ↔ dec 35 100 ≤ q)) ∧
  (∀ q1 q2 g1 g2, q1 ≤ q2 →
     Weather.predicted_going (PNum q1) = Some g1 →
     Weather.predicted_going (PNum q2) = Some g2 →
     (going_rank g1 ≤ going_rank g2)%nat) ∧
  Weather.predicted_going (PNum (dec 20 100)) = Some "Good" ∧
  (∀ hourly idx venue country iso w,
     Weather.feature_record hourly idx venue country iso = Some w →
     ∃ surface g, Weather.series hourly "soil_moisture_0_to_1cm" idx = Some surface ∧
       Weather.predicted_going surface = Some g ∧
       w !! "predicted_going" = Some (PStr g)).
Proof.
  split; [|split; [|split; [|split]]].
  - intros q. rewrite predicted_going_number.
    eexists. split; [reflexivity |].
    repeat case_decide; set_solver.
  - intros q. rewrite predicted_going_number.
    repeat split; repeat case_decide; intros; try discriminate; try done;
      try qc_order; try (split; qc_order); try (exfalso; qc_order).
  - intros q1 q2 g1 g2 Hle H1 H2.
    rewrite predicted_going_number in H1, H2.
    apply (inj Some) in H1, H2. subst g1 g2.
    repeat case_decide; try (vm_compute; lia); exfalso; qc_order.
  - vm_compute. reflexivity.
  - intros hourly idx venue country iso w H.
    apply feature_record_derives in H as [d D].
    exists (dv_sm01 d), (dv_going d). split; [|split; apply D].
    unfold Weather.series. rewrite (dv_sm01s_key _ _ _ _ D). simpl. apply D.
Qed.

Lemma predicted_going_partitions_witness :
  (going_rank "Good" ≤ going_rank "Soft")%nat ∧
  ∃ surface g,
    Weather.series (sample_hourly rain_at_hour_2 soil_steady)
      "soil_moisture_0_to_1cm" 4 = Some surface ∧
    Weather.predicted_going surface = Some g ∧
    sample_record rain_at_hour_2 soil_steady 4 !! "predicted_going" = Some (PStr g).
Proof.
  split.
  - apply (proj1 (proj2 (proj2 predicted_going_partitions))
             (dec 20 100) (dec 30 100) "Good" "Soft");
      [qc_order | vm_compute; reflexivity | vm_compute; reflexivity].
  - apply (proj2 (proj2 (proj2 (proj2 predicted_going_partitions)))
             (sample_hourly rain_at_hour_2 soil_steady) 4%nat
             "Newbury" "UK" "2025-10-20T04:30:00").
    sample_computed.
Defined.

Lemma track_trend_spec soil surface idx trend :
  Weather.track_trend soil surface idx = Some trend →
  ((3 ≤ idx)%nat → ∃ cur past,
      as_num surface = Some cur ∧ soil !! (idx - 3)%nat ≫= as_num = Some past ∧
      trend = (bool_decide (cur < past), bool_decide (past < cur))) ∧
  ((idx < 3)%nat → trend = (false, false)).
Proof.
  unfold Weather.track_trend. intros H. case_bool_decide as Hc.
  - split; [intros _ | lia].
    do 3 inv_bind H. apply (inj Some) in H. subst trend.
    apply py_lt_inv in Hv0 as (cur & past & Hcur & Hpast & ->).
    apply py_gt_inv in Hv1 as (cur' & past' & Hcur' & Hpast' & ->).
    rewrite Hcur in Hcur'. rewrite Hpast in Hpast'.
    apply (inj Some) in Hcur', Hpast'. subst cur' past'.
    exists cur, past. rewrite Hv. simpl. done.
  - split; [lia | intros _]. by apply (inj Some) in H.
Qed.

(** C7.  The two trend flags of a feature record are never both true.
    With [idx >= 3], [track_drying] holds exactly when the surface moisture
    at [idx] is below its value at [idx - 3] and [track_wetting] exactly
    when it is above; both are false when the two values are equal and
    when [idx < 3]. *)
Theorem track_trend_exclusive hourly idx venue country iso w :
  Weather.feature_record hourly idx venue country iso = Some w →
  ∃ soil drying wetting,
    hourly !! "soil_moisture_0_to_1cm" = Some soil ∧
    w !! "track_drying" = Some (PBool drying) ∧
    w !! "track_wetting" = Some (PBool wetting) ∧
    ¬ (drying = true ∧ wetting = true) ∧
    ((3 ≤ idx)%nat → ∃ cur past,
        soil !! idx ≫= as_num = Some cur ∧
        soil !! (idx - 3)%nat ≫= as_num = Some past ∧
        (drying = true ↔ cur < past) ∧
        (wetting = true ↔ past < cur) ∧
        (cur = past → drying = false ∧ wetting = false)) ∧
    ((idx < 3)%nat → drying = false ∧ wetting = false).
Proof.
  intros H. apply feature_record_derives in H as [d D].
  destruct (track_trend_spec _ _ _ _ (dv_trend_eq _ _ _ _ D)) as [Hfull Hclip].
  exists (dv_sm01s d), (fst (dv_trend d)), (snd (dv_trend d)).
  split; [apply D |]. split; [apply D |]. split; [apply D |].
  destruct (decide (3 ≤ idx)%nat) as [Hc|Hc].
  - destruct (Hfull Hc) as (cur & past & Hcur & Hpast & ->). simpl.
    rewrite !bool_decide_eq_true.
    split; [intros [H1 H2]; qc_order |]. split; [| intros; lia].
    intros _. exists cur, past.
    rewrite (dv_sm01_at _ _ _ _ D). simpl.
    split; [done |]. split; [done |].
    split; [apply bool_decide_eq_true |]. split; [apply bool_decide_eq_true |].
    intros ->. rewrite !bool_decide_eq_false. split; intros Hlt; qc_order.
  - rewrite (Hclip ltac:(lia)). simpl.
    split; [intros [? ?]; discriminate |]. split; [intros; lia | done].
Qed.

Lemma track_trend_exclusive_witness :
  ∃ soil drying wetting,
    sample_hourly dry_hours
      [PNum (dec 30 100); PNum (dec 28 100); PNum (dec 26 100);
       PNum (dec 24 100); PNum (dec 22 100)] !! "soil_moisture_0_to_1cm" = Some soil ∧
    sample_record dry_hours
      [PNum (dec 30 100); PNum (dec 28 100); PNum (dec 26 100);
       PNum (dec 24 100); PNum (dec 22 100)] 4 !! "track_drying" = Some (PBool drying) ∧
    sample_record dry_hours
      [PNum (dec 30 100); PNum (dec 28 100); PNum (dec 26 100);
       PNum (dec 24 100); PNum (dec 22 100)] 4 !! "track_wetting" = Some (PBool wetting) ∧
    ¬ (drying = true ∧ wetting = true) ∧
    ((3 ≤ 4)%nat → ∃ cur past,
        soil !! 4%nat ≫= as_num = Some cur ∧
        soil !! (4 - 3)%nat ≫= as_num = Some past ∧
        (drying = true ↔ cur < past) ∧
        (wetting = true ↔ past < cur) ∧
        (cur = past → drying = false ∧ wetting = false)) ∧
    ((4 < 3)%nat → drying = false ∧ wetting = false).
Proof.
  apply (track_trend_exclusive
           (sample_hourly dry_hours
              [PNum (dec 30 100); PNum (dec 28 100); PNum (dec 26 100);
               PNum (dec 24 100); PNum (dec 22 100)]) 4%nat
           "Newbury" "UK" "2025-10-20T04:30:00").
  sample_computed.
Defined.

(** ** weather.py: from the provider's answer to the record *)

Lemma py_index_spec x l : ∀ i,
  py_index x l = Some i → l !! i = Some x ∧ ∀ j, (j < i)%nat → l !! j ≠ Some x.
Proof.
  induction l as [|y l IH]; intros i Hi; cbn [py_index] in Hi; [discriminate |].
  destruct (decide (y = x)) as [->|Hne].
  - apply (inj Some) in Hi. subst i. split; [reflexivity | intros; lia].
  - destruct (py_index x l) as [i'|]; [|discriminate].
    apply (inj Some) in Hi. subst i.
    destruct (IH i' eq_refl) as [Hat Hbefore]. split; [exact Hat |].
    intros [|j] Hj; cbn; [congruence | apply Hbefore; lia].
Qed.

Section FetchFacts.
Context `{Platform}.

(** Every record the fetch returns is the feature record of the
    provider's series at the first index of the race hour, with the
    fetch time added. *)
Lemma get_comprehensive_weather_result venue race_datetime w0 weather w1 :
  get_comprehensive_weather venue race_datetime w0 = (Some weather, w1) →
  ∃ coords hourly idx result,
    venue_coords venue = Some coords ∧
    locate_race_hour (requests_get (tick w0) (request_params coords race_datetime))
      race_datetime = Some (hourly, idx) ∧
    default [] (hourly !! "time") !! idx = Some (PStr (strftime_hour race_datetime)) ∧
    feature_record hourly idx venue (country coords) (isoformat race_datetime)
    = Some result ∧
    weather = <["fetched_at" := PStr (isoformat (clock (S (tick w0))))]> result ∧
    ∀ k, k ≠ "fetched_at" → weather !! k = result !! k.
Proof.
  unfold get_comprehensive_weather.
  destruct (venue_coords venue) as [coords|]; [|intros [=]].
  unfold bind at 1, http_get at 1.
  destruct (locate_race_hour _ _) as [[hourly idx]|] eqn:Hloc; [|intros [=]].
  destruct (feature_record _ _ _ _ _) as [result|] eqn:Hrec; [|intros [=]].
  unfold bind, now, ret, advance. cbn [tick fst snd]. intros Heq.
  apply (f_equal fst) in Heq. cbn [fst] in Heq. apply (inj Some) in Heq.
  exists coords, hourly, idx, result.
  split; [done |]. split; [done |]. split.
  - unfold locate_race_hour in Hloc.
    inv_bind Hloc. case_bool_decide; [discriminate |].
    inv_bind Hloc. inv_bind Hloc. apply (inj Some) in Hloc.
    inversion Hloc; subst. by apply py_index_spec in Hv1 as [? _].
  - split; [done |]. split; [done |].
    intros k Hk. rewrite <- Heq. by rewrite lookup_insert_ne.
Qed.
End FetchFacts.

(** ** weather.py: when the derivation succeeds *)

Lemma series_inv hourly k i v :
  series hourly k i = Some v → ∃ l, hourly !! k = Some l ∧ l !! i = Some v.
Proof. unfold series. intros H. inv_bind H. eauto. Qed.

Lemma series_num_inv hourly k i q :
  series hourly k i ≫= as_num = Some q →
  ∃ l v, hourly !! k = Some l ∧ l !! i = Some v ∧ as_num v = Some q.
Proof. intros H. inv_bind H. apply series_inv in Hv as (l & Hl & Hv). eauto 6. Qed.

Lemma py_sum_slice_total precip lo hi :
  (∀ i, (i < hi)%nat → ∃ q, precip !! i ≫= as_num = Some q) →
  ∃ r, py_sum (py_slice precip lo hi) = Some (PNum r).
Proof.
  intros Hnum. apply py_sum_from_total, Forall_lookup. intros i x Hx.
  unfold py_slice in Hx. rewrite lookup_drop in Hx.
  apply lookup_take_Some in Hx as [Hx Hlt].
  destruct (Hnum _ Hlt) as [q Hq]. rewrite Hx in Hq. by exists q.
Qed.

Lemma hours_loop_total precip n : ∀ acc,
  (∀ i, (i < n)%nat → ∃ q, precip !! i ≫= as_num = Some q) →
  ∃ h, hours_loop precip n acc = Some h.
Proof.
  induction n as [|n IH]; intros acc Hnum; [by eexists |].
  destruct (Hnum n ltac:(lia)) as [q Hq]. inv_bind Hq.
  cbn [hours_loop]. rewrite Hv. cbn [mbind option_bind].
  unfold py_gt. rewrite Hq. cbn [as_num mbind option_bind].
  case_bool_decide; [by eexists |]. apply IH. intros i Hi. apply Hnum. lia.
Qed.

Lemma predicted_going_total v q :
  as_num v = Some q → ∃ g, predicted_going v = Some g.
Proof.
  intros Hq. unfold predicted_going, py_lt. rewrite Hq. cbn [as_num mbind option_bind].
  repeat (case_bool_decide; cbn [mbind option_bind]); by eexists.
Qed.

Lemma bind_total {A B} (m : option A) (k : A → option B) a :
  m = Some a → is_Some (k a) → is_Some (m ≫= k).
Proof. intros ->. done. Qed.

Ltac known_var := apply (bool_decide_unpack _); vm_compute; exact I.

(** On a usable response the derivation returns a record. *)
Lemma feature_record_total hourly idx venue country iso :
  usable hourly idx → is_Some (feature_record hourly idx venue country iso).
Proof.
  intros U.
  destruct (us_series _ _ U "precipitation" ltac:(known_var)) as [cur Hcur].
  pose proof Hcur as Hcur'. apply series_inv in Hcur' as (precip & Hprecip & Hat).
  assert (Hnum : ∀ i, (i < idx)%nat → ∃ q, precip !! i ≫= as_num = Some q).
  { intros i Hi. destruct (us_rain _ _ U i Hi) as [q Hq].
    unfold series in Hq. rewrite Hprecip in Hq. eauto. }
  assert (Hwin : ∀ lo, ∃ r, py_sum (py_slice precip lo idx) = Some (PNum r))
    by (intros lo; by apply py_sum_slice_total).
  destruct (us_ground _ _ U "soil_moisture_0_to_1cm" ltac:(known_var)) as [q01 H01].
  destruct (us_ground _ _ U "soil_moisture_1_to_3cm" ltac:(known_var)) as [q13 H13].
  destruct (us_ground _ _ U "soil_moisture_3_to_9cm" ltac:(known_var)) as [q39 H39].
  destruct (us_ground _ _ U "et0_fao_evapotranspiration" ltac:(known_var)) as [qet Het].
  inv_bind H01. inv_bind H13. inv_bind H39. inv_bind Het.
  pose proof Hv as Hsoil. apply series_inv in Hsoil as (soil & Hsoil & Hsoil_at).
  unfold feature_record.
  eapply bind_total; [exact Hprecip |].
  eapply (bind_total _ _ (if bool_decide (0 < idx)%nat then cur else PNum 0)).
  { unfold rainfall_1h. by case_bool_decide. }
  destruct (Hwin (Nat.max 0 (idx - 3))) as [r3 Hr3].
  eapply (bind_total _ _ (PNum (if bool_decide (3 ≤ idx)%nat then r3 else 0))).
  { unfold rainfall_3h. by case_bool_decide. }
  destruct (Hwin (Nat.max 0 (idx - 6))) as [r6 Hr6].
  eapply (bind_total _ _ (PNum (if bool_decide (6 ≤ idx)%nat then r6 else 0))).
  { unfold rainfall_6h. by case_bool_decide. }
  destruct (Hwin (Nat.max 0 (idx - 24))) as [r24 Hr24].
  eapply (bind_total _ _ (PNum (if bool_decide (24 ≤ idx)%nat then r24 else 0))).
  { unfold rainfall_24h. by case_bool_decide. }
  destruct (Hwin 0%nat) as [r7 Hr7].
  eapply (bind_total _ _ (PNum (if bool_decide (0 < idx)%nat then r7 else 0))).
  { unfold rainfall_7d. by case_bool_decide. }
  destruct (hours_loop_total precip idx 0 Hnum) as [h Hh].
  eapply bind_total; [exact Hh |].
  eapply bind_total; [exact Hv |].
  eapply bind_total; [exact Hv0 |].
  eapply bind_total; [exact Hv1 |].
  eapply bind_total.
  { unfold ground_saturation, py_mul, py_add. rewrite H01, H13, H39. reflexivity. }
  eapply bind_total; [exact Hv2 |].
  eapply bind_total.
  { unfold net_moisture_24h, py_mul, py_sub. rewrite Het. reflexivity. }
  destruct (predicted_going_total _ _ H01) as [g Hg].
  eapply bind_total; [exact Hg |].
  eapply bind_total; [exact Hsoil |].
  assert (Htrend : ∃ trend, track_trend soil v idx = Some trend).
  { unfold track_trend. case_bool_decide as Hc; [|by eexists].
    destruct (us_past _ _ U Hc) as [qp Hqp].
    unfold series in Hqp. rewrite Hsoil in Hqp. inv_bind Hqp.
    cbn [mbind option_bind] in Hv3. rewrite Hv3. cbn [mbind option_bind].
    unfold py_lt, py_gt. rewrite H01, Hqp. by eexists. }
  destruct Htrend as [trend Htrend].
  eapply bind_total; [exact Htrend |].
  repeat match goal with
  | |- is_Some (series hourly ?k idx ≫= _) =>
      let x := fresh "x" in let Hx := fresh "Hx" in
      destruct (us_series _ _ U k ltac:(known_var)) as [x Hx];
      eapply bind_total; [exact Hx |]
  end.
  by eexists.
Qed.

(** ** The SQLite model *)

Lemma sql_insert_replace_inv sch cols vals t t' :
  sql_insert sch OnReplace cols vals t = Some t' →
  violates_notnull sch (row_of cols vals) = false ∧
  t' = {| tbl_rows :=
            filter (λ old, conflicts sch (row_of cols vals) old = false) (tbl_rows t)
            ++ [ {| row_id := next_rowid t; row_cols := row_of cols vals |} ];
          tbl_seq := next_rowid t |}.
Proof.
  unfold sql_insert. intros H.
  destruct (negb _); [discriminate |]. destruct (negb _); [discriminate |].
  destruct (bool_decide (2 ^ 63 ≤ next_rowid t)%Z); [discriminate |].
  destruct (violates_notnull _ _) eqn:E; [discriminate |].
  apply (inj Some) in H. by subst.
Qed.

Lemma sql_insert_abort_inv sch cols vals t t' :
  sql_insert sch OnAbort cols vals t = Some t' →
  violates_notnull sch (row_of cols vals) = false ∧
  existsb (conflicts sch (row_of cols vals)) (tbl_rows t) = false ∧
  t' = {| tbl_rows :=
            tbl_rows t ++ [ {| row_id := next_rowid t; row_cols := row_of cols vals |} ];
          tbl_seq := next_rowid t |}.
Proof.
  unfold sql_insert. intros H.
  destruct (negb _); [discriminate |]. destruct (negb _); [discriminate |].
  destruct (bool_decide (2 ^ 63 ≤ next_rowid t)%Z); [discriminate |].
  destruct (violates_notnull _ _) eqn:E; [discriminate |].
  destruct (existsb _ _) eqn:E'; [discriminate |].
  apply (inj Some) in H. by subst.
Qed.

Lemma max_rowid_bound rows r : r ∈ rows → (row_id r ≤ max_rowid rows)%Z.
Proof.
  induction rows as [|r' rows IH]; [by intros ?%elem_of_nil |].
  intros [->|Hin]%elem_of_cons; simpl; [lia |].
  specialize (IH Hin). lia.
Qed.

(** AUTOINCREMENT hands out an id above every stored one. *)
Lemma next_rowid_fresh t r : r ∈ tbl_rows t → (row_id r < next_rowid t)%Z.
Proof. intros Hin%max_rowid_bound. unfold next_rowid. lia. Qed.

Lemma filter_filter_none {A} (P Q : A → Prop)
    `{!∀ x, Decision (P x)} `{!∀ x, Decision (Q x)} (l : list A) :
  (∀ x, P x → Q x → False) → filter P (filter Q l) = [].
Proof.
  intros HPQ. induction l as [|x l IH]; [done |].
  rewrite (filter_cons Q). destruct (decide (Q x)) as [HQ|HQ]; [|done].
  rewrite filter_cons. destruct (decide (P x)) as [HP|HP]; [|done].
  destruct (HPQ x HP HQ).
Qed.

Lemma filter_filter_all {A} (P Q : A → Prop)
    `{!∀ x, Decision (P x)} `{!∀ x, Decision (Q x)} (l : list A) :
  (∀ x, P x → Q x) → filter P (filter Q l) = filter P l.
Proof.
  intros HPQ. induction l as [|x l IH]; [done |].
  rewrite (filter_cons Q), (filter_cons P).
  destruct (decide (Q x)) as [HQ|HQ].
  - rewrite filter_cons. destruct (decide (P x)); by rewrite IH.
  - destruct (decide (P x)) as [HP|HP]; [by destruct HQ; auto | done].
Qed.

(** ** collect_daily_weather.py: the upsert *)

Lemma text_not_null s : SqlText s ≠ SqlNull.
Proof. discriminate. Qed.

Lemma num_not_null q : SqlNum q ≠ SqlNull.
Proof. discriminate. Qed.

(** On the periodic table, a stored row collides with a new one exactly
    when both have the same (venue, collection_date, collection_hour). *)
Lemma daily_conflict_iff_same_key new old :
  col new "venue" ≠ SqlNull → col new "collection_date" ≠ SqlNull →
  col new "collection_hour" ≠ SqlNull →
  conflicts DailyWeatherCollector.venue_daily_weather new old = true
  ↔ daily_key (row_cols old) = daily_key new.
Proof.
  intros Hv Hd Hh. unfold conflicts, daily_key.
  cbn [DailyWeatherCollector.venue_daily_weather sch_unique existsb same_on forallb].
  rewrite orb_false_r, !andb_true_r, !andb_true_iff, !bool_decide_eq_true.
  split.
  - intros [[_ ->] [[_ ->] [_ ->]]]. reflexivity.
  - intros Heq. inversion Heq as [[E1 E2 E3]]. rewrite E1, E2, E3. done.
Qed.

Section DailyUpsert.
Context `{Platform}.
Import DailyWeatherCollector.

(** What the written row holds in its weather columns: the value of the
    weather dict under the column's key, NULL when the dict has none. *)
Lemma daily_written_weather vd t c k :
  (c, k) ∈ WEATHER_FIELDS →
  col (row_of insert_columns (insert_values vd t)) c
  = bind_param (dict_get (vd_weather vd) k).
Proof.
  intros Hin. unfold col, row_of. rewrite lookup_list_to_map_assoc.
  unfold WEATHER_FIELDS in Hin.
  repeat (apply elem_of_cons in Hin as [Heq|Hin];
          [inversion Heq; subst c k; reflexivity |]).
  by apply elem_of_nil in Hin.
Qed.

Lemma daily_written_key vd t :
  daily_key (row_of insert_columns (insert_values vd t))
  = (SqlText (vd_venue vd), SqlText (strftime_date t), int_param (hour_of t)).
Proof.
  unfold daily_key, col, row_of. rewrite !lookup_list_to_map_assoc. reflexivity.
Qed.

Lemma save_to_database_inv vd w0 w1 :
  save_to_database (Some vd) w0 = (true, w1) →
  ∃ conn', sql_insert venue_daily_weather OnReplace insert_columns
             (insert_values vd (clock (tick w0))) (db w0) = Some conn' ∧
    w1 = {| tick := S (tick w0); db := conn' |}.
Proof.
  unfold save_to_database. case_bool_decide; [intros [=] |].
  unfold bind, now, get_db, put_db, ret, advance. cbn [tick db].
  destruct (sql_insert _ _ _ _ _) as [conn'|]; [|intros [=]].
  intros Heq. exists conn'. split; [done |].
  apply (f_equal snd) in Heq. simpl in Heq. by subst.
Qed.

(** One write: whatever the table held, afterwards the key of the
    written record has exactly one row, that row has exactly the written
    columns, and the rows of other keys are as before. *)
Lemma save_to_database_replaces vd w0 w1 :
  save_to_database (Some vd) w0 = (true, w1) →
  let written := row_of insert_columns (insert_values vd (clock (tick w0))) in
  ∃ r,
    filter (λ r, daily_key (row_cols r) = daily_key written) (tbl_rows (db w1)) = [r] ∧
    row_cols r = written ∧
    filter (λ r, daily_key (row_cols r) ≠ daily_key written) (tbl_rows (db w1))
    = filter (λ r, daily_key (row_cols r) ≠ daily_key written) (tbl_rows (db w0)).
Proof.
  intros (conn' & Hins & ->)%save_to_database_inv written.
  apply sql_insert_replace_inv in Hins as [_ ->]. fold written.
  assert (Hconf : ∀ old, conflicts venue_daily_weather written old = true
                         ↔ daily_key (row_cols old) = daily_key written).
  { intros old. apply daily_conflict_iff_same_key;
      unfold written, col, row_of; rewrite lookup_list_to_map_assoc;
      [apply text_not_null | apply text_not_null | apply num_not_null]. }
  clearbody written. cbn [db tbl_rows].
  eexists. rewrite !filter_app. split; [|split].
  - rewrite filter_filter_none.
    + rewrite filter_cons. cbn [row_cols].
      destruct (decide (daily_key written = daily_key written)); [reflexivity | done].
    + intros old Hk Hc. apply Hconf in Hk. congruence.
  - reflexivity.
  - rewrite filter_filter_all.
    + rewrite filter_cons. cbn [row_cols].
      destruct (decide (daily_key written ≠ daily_key written)); [done |].
      by rewrite filter_nil, app_nil_r.
    + intros old Hk. destruct (conflicts _ _ old) eqn:E; [|done].
      apply Hconf in E. done.
Qed.
(** The invariant of the periodic table: no two rows share a key.  Every
    successful write keeps it. *)
Lemma periodic_keys_stay_unique vd w0 w1 :
  NoDup (daily_keys w0) →
  save_to_database (Some vd) w0 = (true, w1) →
  NoDup (daily_keys w1).
Proof.
  intros Hnd (conn' & Hins & ->)%save_to_database_inv.
  apply sql_insert_replace_inv in Hins as [_ ->].
  set (written := row_of insert_columns (insert_values vd (clock (tick w0)))).
  assert (Hconf : ∀ old, conflicts venue_daily_weather written old = true
                         ↔ daily_key (row_cols old) = daily_key written).
  { intros old. apply daily_conflict_iff_same_key;
      unfold written, col, row_of; rewrite lookup_list_to_map_assoc;
      [apply text_not_null | apply text_not_null | apply num_not_null]. }
  clearbody written. unfold daily_keys in *. cbn [db tbl_rows].
  rewrite fmap_app. apply NoDup_app. split; [|split].
  - eapply sublist_NoDup; [exact Hnd |]. apply fmap_sublist, sublist_filter.
  - intros k Hk Hnew. apply list_elem_of_fmap in Hk as (old & -> & Hold).
    apply list_elem_of_filter in Hold as [Hfree _].
    apply elem_of_cons in Hnew as [Hnew|[]%elem_of_nil]. cbn [row_cols] in Hnew.
    apply Hconf in Hnew. congruence.
  - apply NoDup_singleton.
Qed.
End DailyUpsert.

(** C1.  Periodic store.  A successful write leaves exactly one row under
    its key (venue, collection_date, collection_hour), whatever the table
    held under that key before, and every column of that row is the one
    just written: each weather column holds the value of the written dict
    (NULL where the dict has none), nothing of an earlier row.  So two
    writes under the same key with different payloads end with one row,
    which equals the second payload. *)
Theorem periodic_upsert_replaces
    (P : Platform) (vd1 vd2 : DailyWeatherCollector.VenueData) (w0 w1 w2 : World) :
  DailyWeatherCollector.save_to_database (Some vd1) w0 = (true, w1) →
  DailyWeatherCollector.save_to_database (Some vd2) w1 = (true, w2) →
  DailyWeatherCollector.vd_venue vd1 = DailyWeatherCollector.vd_venue vd2 →
  strftime_date (clock (tick w0)) = strftime_date (clock (tick w1)) →
  hour_of (clock (tick w0)) = hour_of (clock (tick w1)) →
  let first := row_of DailyWeatherCollector.insert_columns
                 (DailyWeatherCollector.insert_values vd1 (clock (tick w0))) in
  let second := row_of DailyWeatherCollector.insert_columns
                  (DailyWeatherCollector.insert_values vd2 (clock (tick w1))) in
  daily_key first = daily_key second ∧
  (∃ r1, filter (λ r, daily_key (row_cols r) = daily_key first) (tbl_rows (db w1)) = [r1] ∧
         row_cols r1 = first) ∧
  (∃ r2, filter (λ r, daily_key (row_cols r) = daily_key second) (tbl_rows (db w2)) = [r2] ∧
         row_cols r2 = second ∧
         ∀ c k, (c, k) ∈ WEATHER_FIELDS →
           col (row_cols r2) c
           = bind_param (dict_get (DailyWeatherCollector.vd_weather vd2) k)).
Proof.
  intros H1 H2 Hv Hd Hh first second.
  split; [|split].
  - unfold first, second. rewrite !daily_written_key. by rewrite Hv, Hd, Hh.
  - destruct (save_to_database_replaces _ _ _ H1) as (r & Hr & Hc & _). eauto.
  - destruct (save_to_database_replaces _ _ _ H2) as (r & Hr & Hc & _).
    exists r. split; [done |]. split; [done |].
    intros c k Hin. rewrite Hc. by apply daily_written_weather.
Qed.

Lemma run_split {A} (m : M A) (w : World) (a : A) :
  result_of m w = a → m w = (a, state_after m w).
Proof. unfold result_of, state_after. intros <-. by destruct (m w). Defined.

Ltac run_computed := apply run_split; vm_compute; reflexivity.

Lemma periodic_upsert_replaces_witness :
  let P := sample_platform clock_two_readings (sample_provider dry_hours soil_steady) in
  let w1 := state_after (DailyWeatherCollector.save_to_database (Some newbury_a)) fresh_world in
  let w2 := state_after (DailyWeatherCollector.save_to_database (Some newbury_b)) w1 in
  let first := row_of DailyWeatherCollector.insert_columns
                 (DailyWeatherCollector.insert_values newbury_a (clock (tick fresh_world))) in
  let second := row_of DailyWeatherCollector.insert_columns
                  (DailyWeatherCollector.insert_values newbury_b (clock (tick w1))) in
  daily_key first = daily_key second ∧
  (∃ r1, filter (λ r, daily_key (row_cols r) = daily_key first) (tbl_rows (db w1)) = [r1] ∧
         row_cols r1 = first) ∧
  (∃ r2, filter (λ r, daily_key (row_cols r) = daily_key second) (tbl_rows (db w2)) = [r2] ∧
         row_cols r2 = second ∧
         ∀ c k, (c, k) ∈ WEATHER_FIELDS →
           col (row_cols r2) c
           = bind_param (dict_get (DailyWeatherCollector.vd_weather newbury_b) k)).
Proof.
  intros P w1 w2.
  apply (periodic_upsert_replaces P newbury_a newbury_b fresh_world w1 w2).
  - run_computed.
  - run_computed.
  - reflexivity.
  - vm_compute. reflexivity.
  - vm_compute. reflexivity.
Defined.

(** ** weather_collector.py: the race-linked table *)

Section RaceInsert.
Context `{Platform}.
Import WeatherCollector.

Lemma race_written_key rd t :
  race_key (row_of insert_columns (insert_values rd t))
  = (SqlText (rd_market_id rd), SqlText (isoformat t)).
Proof.
  unfold race_key, col, row_of. rewrite !lookup_list_to_map_assoc. reflexivity.
Qed.

Lemma save_weather_update_inv rd w0 w1 :
  save_weather_update (Some rd) w0 = (true, w1) →
  ∃ conn', sql_insert weather_updates OnAbort insert_columns
             (insert_values rd (clock (tick w0))) (db w0) = Some conn' ∧
    w1 = {| tick := S (tick w0); db := conn' |}.
Proof.
  unfold save_weather_update. case_bool_decide; [intros [=] |].
  unfold bind, now, get_db, put_db, ret, advance. cbn [tick db].
  destruct (sql_insert _ _ _ _ _) as [conn'|]; [|intros [=]].
  intros Heq. exists conn'. split; [done |].
  apply (f_equal snd) in Heq. simpl in Heq. by subst.
Qed.
End RaceInsert.

(** C2, counterexample.  The same race update written twice while the
    clock returns the same reading: the table then holds two rows with the
    key (market_id, collection_timestamp) of the update; the second write
    replaced nothing. *)
Lemma race_key_stored_twice :
  let P := sample_platform clock_stopped (sample_provider dry_hours soil_steady) in
  let w1 := state_after (WeatherCollector.save_weather_update (Some race_update)) fresh_world in
  let w2 := state_after (WeatherCollector.save_weather_update (Some race_update)) w1 in
  result_of (WeatherCollector.save_weather_update (Some race_update)) fresh_world = true ∧
  result_of (WeatherCollector.save_weather_update (Some race_update)) w1 = true ∧
  race_keys w2 = [ (SqlText "1.234567", SqlText "2025-10-20T04:30:00");
                   (SqlText "1.234567", SqlText "2025-10-20T04:30:00") ] ∧
  ¬ NoDup (race_keys w2).
Proof.
  intros P w1 w2.
  assert (Hkeys : race_keys w2 = [ (SqlText "1.234567", SqlText "2025-10-20T04:30:00");
                                   (SqlText "1.234567", SqlText "2025-10-20T04:30:00") ])
    by (vm_compute; reflexivity).
  split; [vm_compute; reflexivity |]. split; [vm_compute; reflexivity |].
  split; [exact Hkeys |]. rewrite Hkeys.
  intros Hnd. apply NoDup_cons in Hnd as [Hnin _]. apply Hnin. by left.
Qed.

(** C2, amended.  A successful write to the race-linked table appends one
    row, with exactly the written columns and an id above every stored id,
    and keeps every stored row; no row is replaced.  The key
    (market_id, collection_timestamp) of the new row is the update's market
    id and the clock reading of the write, so it is new to the table when
    no stored row has that market id with that reading, and stored a
    second time otherwise. *)
Theorem race_insert_appends
    (P : Platform) (rd : WeatherCollector.RaceData) (w0 w1 : World) :
  WeatherCollector.save_weather_update (Some rd) w0 = (true, w1) →
  let written := row_of WeatherCollector.insert_columns
                   (WeatherCollector.insert_values rd (clock (tick w0))) in
  ∃ r,
    tbl_rows (db w1) = tbl_rows (db w0) ++ [r] ∧
    row_cols r = written ∧
    (∀ old, old ∈ tbl_rows (db w0) → (row_id old < row_id r)%Z) ∧
    race_key written
    = (SqlText (WeatherCollector.rd_market_id rd), SqlText (isoformat (clock (tick w0)))) ∧
    race_keys w1 = race_keys w0 ++ [race_key written] ∧
    (NoDup (race_keys w1) ↔ NoDup (race_keys w0) ∧ race_key written ∉ race_keys w0).
Proof.
  intros (conn' & Hins & ->)%save_weather_update_inv written.
  apply sql_insert_abort_inv in Hins as (_ & _ & ->). fold written.
  assert (Hkey := race_written_key rd (clock (tick w0))). fold written in Hkey.
  clearbody written. cbn [db tbl_rows].
  eexists. split; [reflexivity |]. cbn [row_cols row_id].
  split; [reflexivity |]. split; [apply next_rowid_fresh |]. split; [exact Hkey |].
  assert (Hk : race_keys {| tick := S (tick w0);
                            db := {| tbl_rows := tbl_rows (db w0) ++
                                       [ {| row_id := next_rowid (db w0); row_cols := written |} ];
                                     tbl_seq := next_rowid (db w0) |} |}
               = race_keys w0 ++ [race_key written]).
  { unfold race_keys. cbn [db tbl_rows]. by rewrite fmap_app. }
  split; [exact Hk |]. rewrite Hk.
  rewrite NoDup_app. split.
  - intros (Hnd & Hdisj & _). split; [done |].
    intros Hin. apply (Hdisj _ Hin). by left.
  - intros [Hnd Hnin]. split; [done |]. split; [|apply NoDup_singleton].
    intros k Hin [->|[]%elem_of_nil]%elem_of_cons. done.
Qed.

Lemma race_insert_appends_witness :
  let P := sample_platform clock_two_readings (sample_provider dry_hours soil_steady) in
  let w1 := state_after (WeatherCollector.save_weather_update (Some race_update)) fresh_world in
  let written := row_of WeatherCollector.insert_columns
                   (WeatherCollector.insert_values race_update (clock (tick fresh_world))) in
  ∃ r,
    tbl_rows (db w1) = tbl_rows (db fresh_world) ++ [r] ∧
    row_cols r = written ∧
    (∀ old, old ∈ tbl_rows (db fresh_world) → (row_id old < row_id r)%Z) ∧
    race_key written
    = (SqlText (WeatherCollector.rd_market_id race_update),
       SqlText (isoformat (clock (tick fresh_world)))) ∧
    race_keys w1 = race_keys fresh_world ++ [race_key written] ∧
    (NoDup (race_keys w1) ↔ NoDup (race_keys fresh_world) ∧ race_key written ∉ race_keys fresh_world).
Proof.
  intros P w1.
  apply (race_insert_appends P race_update fresh_world w1).
  run_computed.
Defined.

(** ** When the writes succeed *)

Lemma col_row_of cols vals c :
  col (row_of cols vals) c = default SqlNull (assoc c (zip cols vals)).
Proof. unfold col, row_of. by rewrite lookup_list_to_map_assoc. Qed.

Lemma bind_param_null v : bind_param v = SqlNull ↔ v = PNone.
Proof. destruct v; split; intros; (done || discriminate). Qed.

Lemma sql_insert_free_rowid sch oc cols vals t t' :
  sql_insert sch oc cols vals t = Some t' → has_free_rowid t = true.
Proof.
  unfold sql_insert, has_free_rowid. intros H.
  destruct (negb _); [discriminate |]. destruct (negb _); [discriminate |].
  destruct (bool_decide (2 ^ 63 ≤ next_rowid t)%Z) eqn:E; [discriminate |].
  apply bool_decide_eq_false in E. apply bool_decide_eq_true. lia.
Qed.

Section SaveSucceeds.
Context `{Platform}.

(** A write to the periodic table succeeds whenever the weather dict has
    a fetch time and a row id is left: the other NOT NULL columns are
    always bound to text or to the hour. *)
Lemma save_to_database_succeeds vd w0 :
  DailyWeatherCollector.vd_weather vd ≠ ∅ →
  dict_get (DailyWeatherCollector.vd_weather vd) "fetched_at" ≠ PNone →
  has_free_rowid (db w0) = true →
  ∃ w1, DailyWeatherCollector.save_to_database (Some vd) w0 = (true, w1).
Proof.
  intros Hne Hfetched Hfree. apply bool_decide_eq_true in Hfree. unfold DailyWeatherCollector.save_to_database.
  rewrite bool_decide_eq_false_2 by done.
  unfold bind, now, get_db, put_db, ret, advance. cbn [tick db].
  assert (Hins : is_Some (sql_insert DailyWeatherCollector.venue_daily_weather OnReplace
            DailyWeatherCollector.insert_columns
            (DailyWeatherCollector.insert_values vd (clock (tick w0))) (db w0))).
  { unfold sql_insert.
    assert (Hnn : violates_notnull DailyWeatherCollector.venue_daily_weather
              (row_of DailyWeatherCollector.insert_columns
                 (DailyWeatherCollector.insert_values vd (clock (tick w0)))) = false).
    { unfold violates_notnull.
      apply not_true_is_false. intros Hex. apply existsb_exists in Hex as (c & Hc & Hviol).
      apply andb_true_iff in Hviol as [Hnn Hnull]. apply bool_decide_eq_true in Hnull.
      rewrite col_row_of in Hnull.
      unfold DailyWeatherCollector.venue_daily_weather in Hc. cbn [sch_columns] in Hc.
      apply in_app_or in Hc as [Hc|Hc].
      - cbn in Hc. repeat destruct Hc as [<-|Hc]; try done; discriminate Hnull.
      - unfold weather_column_decls in Hc. apply in_map_iff in Hc as (name & <- & Hin).
        cbn [col_name col_notnull] in *. apply bool_decide_eq_true in Hnn. subst name.
        apply Hfetched. apply bind_param_null. exact Hnull. }
    rewrite Hnn.
    replace (negb (bool_decide (length DailyWeatherCollector.insert_columns =
              length (DailyWeatherCollector.insert_values vd (clock (tick w0))))))
      with false by reflexivity.
    replace (negb (forallb _ DailyWeatherCollector.insert_columns)) with false
      by (vm_compute; reflexivity).
    rewrite (bool_decide_eq_false_2 (2 ^ 63 ≤ next_rowid (db w0))%Z) by lia.
    by eexists. }
  destruct Hins as [conn' ->]. by eexists.
Qed.

(** So does a write to the race-linked table, which has no UNIQUE
    constraint to violate. *)
Lemma save_weather_update_succeeds rd w0 :
  WeatherCollector.rd_weather rd ≠ ∅ →
  dict_get (WeatherCollector.rd_weather rd) "fetched_at" ≠ PNone →
  has_free_rowid (db w0) = true →
  ∃ w1, WeatherCollector.save_weather_update (Some rd) w0 = (true, w1).
Proof.
  intros Hne Hfetched Hfree. apply bool_decide_eq_true in Hfree. unfold WeatherCollector.save_weather_update.
  rewrite bool_decide_eq_false_2 by done.
  unfold bind, now, get_db, put_db, ret, advance. cbn [tick db].
  assert (Hins : is_Some (sql_insert WeatherCollector.weather_updates OnAbort
            WeatherCollector.insert_columns
            (WeatherCollector.insert_values rd (clock (tick w0))) (db w0))).
  { unfold sql_insert.
    assert (Hnn : violates_notnull WeatherCollector.weather_updates
              (row_of WeatherCollector.insert_columns
                 (WeatherCollector.insert_values rd (clock (tick w0)))) = false).
    { unfold violates_notnull.
      apply not_true_is_false. intros Hex. apply existsb_exists in Hex as (c & Hc & Hviol).
      apply andb_true_iff in Hviol as [Hnn Hnull]. apply bool_decide_eq_true in Hnull.
      rewrite col_row_of in Hnull.
      unfold WeatherCollector.weather_updates in Hc. cbn [sch_columns] in Hc.
      apply in_app_or in Hc as [Hc|Hc]; [|apply in_app_or in Hc as [Hc|Hc]].
      - cbn in Hc. repeat destruct Hc as [<-|Hc]; try done; discriminate Hnull.
      - unfold weather_column_decls in Hc. apply in_map_iff in Hc as (name & <- & Hin).
        cbn [col_name col_notnull] in *. apply bool_decide_eq_true in Hnn. subst name.
        apply Hfetched. apply bind_param_null. exact Hnull.
      - cbn in Hc. repeat destruct Hc as [<-|Hc]; try done; discriminate Hnull. }
    rewrite Hnn.
    replace (negb (bool_decide (length WeatherCollector.insert_columns =
              length (WeatherCollector.insert_values rd (clock (tick w0))))))
      with false by reflexivity.
    replace (negb (forallb _ WeatherCollector.insert_columns)) with false
      by (vm_compute; reflexivity).
    rewrite (bool_decide_eq_false_2 (2 ^ 63 ≤ next_rowid (db w0))%Z) by lia.
    cbn [WeatherCollector.weather_updates conflicts sch_unique existsb].
    replace (existsb _ (tbl_rows (db w0))) with false; [by eexists |].
    symmetry. apply not_true_is_false. intros Hex.
    apply existsb_exists in Hex as (old & _ & Hold). discriminate Hold. }
  destruct Hins as [conn' ->]. by eexists.
Qed.
End SaveSucceeds.

(** ** The collection loops *)

Section DailyLoop.
Context `{Platform}.
Import DailyWeatherCollector.

(** One turn of the loop: the entry is fetched, saved when there is
    data, and exactly one of the two counters goes up. *)
Lemma daily_loop_step venue coords rest s f w :
  collection_loop ((venue, coords) :: rest) s f w =
  let '(venue_data, w1) := collect_venue_weather venue coords w in
  let '(saved, w2) := match venue_data with
                      | None => (false, w1)
                      | Some _ => save_to_database venue_data w1
                      end in
  collection_loop rest (if saved : bool then S s else s)
                       (if saved : bool then f else S f) w2.
Proof.
  cbn [collection_loop]. unfold bind at 1.
  destruct (collect_venue_weather venue coords w) as [[vd|] w1].
  - unfold bind. destruct (save_to_database (Some vd) w1) as [[|] w2]; reflexivity.
  - reflexivity.
Qed.

Lemma daily_loop_tally venues : ∀ s f w s' f' w',
  collection_loop venues s f w = ((s', f'), w') →
  (s' + f' = s + f + length venues)%nat.
Proof.
  induction venues as [|[venue coords] rest IH]; intros s f w s' f' w' Hrun.
  - cbn in Hrun. inversion Hrun. cbn. lia.
  - rewrite daily_loop_step in Hrun.
    destruct (collect_venue_weather venue coords w) as [vd w1].
    destruct (match vd with
              | None => (false, w1)
              | Some _ => save_to_database vd w1
              end) as [saved w2].
    apply IH in Hrun. destruct saved; cbn [length]; lia.
Qed.
End DailyLoop.

Section RaceLoop.
Context `{Platform}.
Import WeatherCollector.

Lemma race_loop_step race rest s f w race_data w1 :
  collect_weather_for_race race w = (Return race_data, w1) →
  collection_loop (race :: rest) s f w =
  let '(saved, w2) := match race_data with
                      | None => (false, w1)
                      | Some _ => save_weather_update race_data w1
                      end in
  collection_loop rest (if saved : bool then S s else s)
                       (if saved : bool then f else S f) w2.
Proof.
  intros Hc. cbn [collection_loop]. unfold bind at 1. rewrite Hc.
  destruct race_data as [rd|].
  - unfold bind. destruct (save_weather_update (Some rd) w1) as [[|] w2]; reflexivity.
  - reflexivity.
Qed.

Lemma race_loop_raise race rest s f w w1 :
  collect_weather_for_race race w = (Raise, w1) →
  collection_loop (race :: rest) s f w = (Raise, w1).
Proof. intros Hc. cbn [collection_loop]. unfold bind at 1. by rewrite Hc. Qed.

(** A race whose date and time parse is collected without an exception. *)
Lemma collect_returns race w :
  is_Some (fromisoformat (race_iso race)) →
  ∃ race_data w1, collect_weather_for_race race w = (Return race_data, w1).
Proof.
  intros [dt Hdt]. unfold collect_weather_for_race. rewrite Hdt.
  case_bool_decide; [by eexists _, _ |].
  unfold bind. destruct (get_comprehensive_weather (venue race) dt w) as [[weather|] w1].
  - case_bool_decide; by eexists _, _.
  - by eexists _, _.
Qed.

(** A venue missing from the catalog: no fetch, no clock reading, no
    data. *)
Lemma collect_unknown_venue race w :
  is_Some (fromisoformat (race_iso race)) →
  venue race ∉ fst <$> VENUE_COORDS →
  collect_weather_for_race race w = (Return None, w).
Proof.
  intros [dt Hdt] Hv. unfold collect_weather_for_race. rewrite Hdt.
  by rewrite bool_decide_eq_true_2.
Qed.

(** Every race that passes the 48-hour filter has been parsed. *)
Lemma upcoming_races_parsed races t cutoff : ∀ upcoming,
  upcoming_races races t cutoff = Return upcoming →
  Forall (λ race, is_Some (fromisoformat (race_iso race))) upcoming.
Proof.
  induction races as [|race rest IH]; intros upcoming Hu; cbn [upcoming_races] in Hu.
  - inversion Hu. constructor.
  - destruct (fromisoformat (race_iso race)) as [dt|] eqn:Hdt; [|discriminate].
    destruct (tz_aware (race_iso race)); [discriminate |].
    destruct (upcoming_races rest t cutoff) as [|l]; [discriminate |].
    inversion Hu as [Hl]. case_bool_decide; [|by apply IH].
    constructor; [by rewrite Hdt | by apply IH].
Qed.

Lemma race_loop_tally upcoming : ∀ s f w s' f' w',
  collection_loop upcoming s f w = (Return (s', f'), w') →
  (s' + f' = s + f + length upcoming)%nat.
Proof.
  induction upcoming as [|race rest IH]; intros s f w s' f' w' Hrun.
  - cbn in Hrun. inversion Hrun. cbn. lia.
  - destruct (collect_weather_for_race race w) as [[|race_data] w1] eqn:Hc.
    + rewrite (race_loop_raise _ _ _ _ _ _ Hc) in Hrun. discriminate.
    + rewrite (race_loop_step _ _ _ _ _ _ _ Hc) in Hrun.
      destruct (match race_data with
                | None => (false, w1)
                | Some _ => save_weather_update race_data w1
                end) as [saved w2].
      apply IH in Hrun. destruct saved; cbn [length]; lia.
Qed.

(** The loop over parsed races runs to its end. *)
Lemma race_loop_returns upcoming : ∀ s f w,
  Forall (λ race, is_Some (fromisoformat (race_iso race))) upcoming →
  ∃ s' f' w', collection_loop upcoming s f w = (Return (s', f'), w').
Proof.
  induction upcoming as [|race rest IH]; intros s f w Hp.
  - by eexists _, _, _.
  - apply Forall_cons in Hp as [Hrace Hrest].
    destruct (collect_returns race w Hrace) as (race_data & w1 & Hc).
    rewrite (race_loop_step _ _ _ _ _ _ _ Hc).
    destruct (match race_data with
              | None => (false, w1)
              | Some _ => save_weather_update race_data w1
              end) as [saved w2].
    by apply IH.
Qed.

Lemma race_loop_app pre : ∀ post s f w s1 f1 w1,
  collection_loop pre s f w = (Return (s1, f1), w1) →
  collection_loop (pre ++ post) s f w = collection_loop post s1 f1 w1.
Proof.
  induction pre as [|race rest IH]; intros post s f w s1 f1 w1 Hpre.
  - cbn in Hpre. inversion Hpre. reflexivity.
  - rewrite <- app_comm_cons.
    destruct (collect_weather_for_race race w) as [[|race_data] w'] eqn:Hc.
    + rewrite (race_loop_raise _ _ _ _ _ _ Hc) in Hpre. discriminate.
    + rewrite (race_loop_step _ _ _ _ _ _ _ Hc) in Hpre.
      rewrite (race_loop_step _ _ _ _ _ _ _ Hc).
      destruct (match race_data with
                | None => (false, w')
                | Some _ => save_weather_update race_data w'
                end) as [saved w2].
      by apply IH.
Qed.

(** A run whose filter keeps at least one race prints the counts of its
    loop. *)
Lemma run_collection_runs config w races w1 upcoming s f w' :
  load_race_schedule config w = (races, w1) →
  upcoming_races races (clock (tick w1)) (clock (tick w1) + timedelta_hours 48)%Z
  = Return upcoming →
  upcoming ≠ [] →
  collection_loop upcoming 0 0 (advance w1) = (Return (s, f), w') →
  run_collection config w = (Return (Summary s f), w').
Proof.
  intros Hload Hu Hne Hl. unfold run_collection. unfold bind at 1. rewrite Hload.
  destruct races as [|race0 races].
  { cbn in Hu. inversion Hu. congruence. }
  unfold bind at 1, now at 1. cbn [fst snd]. rewrite Hu.
  destruct upcoming as [|u upcoming]; [done |].
  unfold bind. rewrite Hl. reflexivity.
Qed.
End RaceLoop.

(** C9, counterexample.  Not every schedule entry with a venue outside
    the catalog is skipped and counted.  Between two races that are
    collected, an entry at such a venue that started half an hour before
    the run is dropped by the 48-hour filter: the run ends with two
    successes and no failure.  And an entry at such a venue whose time
    does not parse raises out of the run, before any race is collected and
    with the table as it was. *)
Lemma unknown_venue_dropped_or_raising :
  let P := run_platform in
  (WeatherCollector.venue race_unknown_early ∉ (fst <$> VENUE_COORDS)) ∧
  result_of (WeatherCollector.run_collection
               (Some [race_newbury; race_unknown_early; race_ascot])) fresh_world
  = Return (WeatherCollector.Summary 2 0) ∧
  (WeatherCollector.venue race_unknown_malformed ∉ (fst <$> VENUE_COORDS)) ∧
  fromisoformat (WeatherCollector.race_iso race_unknown_malformed) = None ∧
  result_of (WeatherCollector.run_collection
               (Some [race_newbury; race_unknown_malformed; race_ascot])) fresh_world
  = Raise ∧
  db (state_after (WeatherCollector.run_collection
                     (Some [race_newbury; race_unknown_malformed; race_ascot]))
        fresh_world) = db fresh_world.
Proof.
  intros P.
  split; [apply (bool_decide_unpack _); vm_compute; exact I |].
  split; [vm_compute; reflexivity |].
  split; [apply (bool_decide_unpack _); vm_compute; exact I |].
  split; [vm_compute; reflexivity |].
  split; vm_compute; reflexivity.
Qed.

(** C9, amended.  Scheduled mode.  A race that the 48-hour filter kept
    (its date and time parsed and it starts within 48 hours of the run)
    and whose venue is not in the catalog: collecting it returns no data
    and leaves the state as it was (nothing is fetched or written), the
    loop goes on with the remaining races with the failure count one
    higher and the success count unchanged, and the run ends with its
    summary: no exception leaves the batch. *)
Theorem unknown_venue_skipped_and_counted
    (P : Platform) (config : option (list WeatherCollector.Race)) (w0 w1 : World)
    (races pre post : list WeatherCollector.Race) (race : WeatherCollector.Race) :
  WeatherCollector.load_race_schedule config w0 = (races, w1) →
  WeatherCollector.upcoming_races races (clock (tick w1))
    (clock (tick w1) + timedelta_hours 48)%Z = Return (pre ++ race :: post) →
  WeatherCollector.venue race ∉ fst <$> VENUE_COORDS →
  ∃ s1 f1 w2 s f w3,
    WeatherCollector.collection_loop pre 0 0 (advance w1) = (Return (s1, f1), w2) ∧
    WeatherCollector.collect_weather_for_race race w2 = (Return None, w2) ∧
    WeatherCollector.collection_loop (race :: post) s1 f1 w2
    = WeatherCollector.collection_loop post s1 (S f1) w2 ∧
    WeatherCollector.collection_loop post s1 (S f1) w2 = (Return (s, f), w3) ∧
    WeatherCollector.run_collection config w0
    = (Return (WeatherCollector.Summary s f), w3).
Proof.
  intros Hload Hu Hv. pose proof (upcoming_races_parsed _ _ _ _ Hu) as Hp.
  apply Forall_app in Hp as [Hpre Hrest].
  apply Forall_cons in Hrest as [Hrace Hpost].
  destruct (race_loop_returns pre 0%nat 0%nat (advance w1) Hpre) as (s1 & f1 & w2 & Hl1).
  destruct (race_loop_returns post s1 (S f1) w2 Hpost) as (s & f & w3 & Hl2).
  pose proof (collect_unknown_venue race w2 Hrace Hv) as Hc.
  assert (Hstep : WeatherCollector.collection_loop (race :: post) s1 f1 w2
                  = WeatherCollector.collection_loop post s1 (S f1) w2)
    by (rewrite (race_loop_step _ _ _ _ _ _ _ Hc); reflexivity).
  exists s1, f1, w2, s, f, w3.
  split; [done |]. split; [done |]. split; [done |]. split; [done |].
  apply (run_collection_runs _ _ _ _ _ _ _ _ Hload Hu); [by destruct pre |].
  by rewrite (race_loop_app _ _ _ _ _ _ _ _ Hl1), Hstep.
Qed.


Lemma unknown_venue_skipped_and_counted_witness :
  let P := run_platform in
  ∃ s1 f1 w2 s f w3,
    WeatherCollector.collection_loop [race_newbury] 0 0 (advance fresh_world)
    = (Return (s1, f1), w2) ∧
    WeatherCollector.collect_weather_for_race race_unknown w2 = (Return None, w2) ∧
    WeatherCollector.collection_loop (race_unknown :: [race_ascot]) s1 f1 w2
    = WeatherCollector.collection_loop [race_ascot] s1 (S f1) w2 ∧
    WeatherCollector.collection_loop [race_ascot] s1 (S f1) w2 = (Return (s, f), w3) ∧
    WeatherCollector.run_collection (Some sample_schedule) fresh_world
    = (Return (WeatherCollector.Summary s f), w3).
Proof.
  intros P.
  apply (unknown_venue_skipped_and_counted P (Some sample_schedule)
           fresh_world fresh_world sample_schedule
           [race_newbury] [race_ascot] race_unknown).
  - reflexivity.
  - vm_compute. reflexivity.
  - apply (bool_decide_unpack _). vm_compute. exact I.
Defined.


(** * Further properties *)

(** ** weather.py: arithmetic of the derived values *)

Ltac qc_arith :=
  unfold Qcle, Qclt, Qcplus, Qcmult, Qcminus, Qcopp, dec, Q2Qc in *;
  cbn [this] in *;
  repeat match goal with
  | H : context [Qred ?x] |- _ => setoid_rewrite (Qred_correct x) in H
  | |- context [Qred ?x] => setoid_rewrite (Qred_correct x)
  end; lra.

Lemma foldr_Qcplus_app (l1 l2 : list Qc) :
  foldr Qcplus 0 (l1 ++ l2) = foldr Qcplus 0 l1 + foldr Qcplus 0 l2.
Proof.
  induction l1 as [|x l1 IH]; cbn [app foldr]; [ring |]. rewrite IH. ring.
Qed.

(** A window splits at any index inside it. *)
Lemma spec_window_sum_split l lo mid hi :
  (lo ≤ mid)%nat → (mid ≤ hi)%nat →
  spec_window_sum l lo hi = spec_window_sum l lo mid + spec_window_sum l mid hi.
Proof.
  intros H1 H2. unfold spec_window_sum.
  replace (hi - lo)%nat with ((mid - lo) + (hi - mid))%nat by lia.
  rewrite seq_app, fmap_app, foldr_Qcplus_app.
  by replace (lo + (mid - lo))%nat with mid by lia.
Qed.

Lemma Qc_of_succ n :
  Q2Qc (inject_Z (Z.of_nat (S n))) = Q2Qc (inject_Z (Z.of_nat n)) + 1.
Proof.
  apply Qc_is_canon. unfold Qcplus, Q2Qc. cbn [this].
  rewrite !Qred_correct. rewrite Nat2Z.inj_succ. unfold Z.succ.
  rewrite inject_Z_plus. reflexivity.
Qed.

Lemma seq_sum_bounds l (a b : Qc) n : ∀ lo,
  (∀ i, (lo ≤ i < lo + n)%nat → a ≤ num_at l i ∧ num_at l i ≤ b) →
  Q2Qc (inject_Z (Z.of_nat n)) * a ≤ foldr Qcplus 0 (num_at l <$> seq lo n) ∧
  foldr Qcplus 0 (num_at l <$> seq lo n) ≤ Q2Qc (inject_Z (Z.of_nat n)) * b.
Proof.
  induction n as [|n IH]; intros lo Hb.
  - cbn [seq fmap list_fmap foldr].
    change (Q2Qc (inject_Z (Z.of_nat 0%nat))) with (Q2Qc 0).
    replace (Q2Qc 0 * a) with (Q2Qc 0) by ring.
    replace (Q2Qc 0 * b) with (Q2Qc 0) by ring.
    split; apply Qcle_refl.
  - destruct (Hb lo ltac:(lia)) as [Ha Hb'].
    destruct (IH (S lo)) as [IHa IHb]; [intros i Hi; apply Hb; lia |].
    cbn [seq]. rewrite fmap_cons. cbn [foldr]. rewrite Qc_of_succ. split.
    + replace ((Q2Qc (inject_Z (Z.of_nat n)) + 1) * a)
        with (a + Q2Qc (inject_Z (Z.of_nat n)) * a) by ring.
      by apply Qcplus_le_compat.
    + replace ((Q2Qc (inject_Z (Z.of_nat n)) + 1) * b)
        with (b + Q2Qc (inject_Z (Z.of_nat n)) * b) by ring.
      by apply Qcplus_le_compat.
Qed.

(** A window of values between [a] and [b] sums to between [a] and [b]
    times its length. *)
Lemma spec_window_sum_bounds l lo hi (a b : Qc) :
  (∀ i, (lo ≤ i < hi)%nat → a ≤ num_at l i ∧ num_at l i ≤ b) →
  Q2Qc (inject_Z (Z.of_nat (hi - lo))) * a ≤ spec_window_sum l lo hi ∧
  spec_window_sum l lo hi ≤ Q2Qc (inject_Z (Z.of_nat (hi - lo))) * b.
Proof.
  intros Hb. apply seq_sum_bounds. intros i Hi. apply Hb. lia.
Qed.

Lemma seq_sum_nonneg l n : ∀ lo,
  (∀ i, (lo ≤ i < lo + n)%nat → 0 ≤ num_at l i) →
  0 ≤ foldr Qcplus 0 (num_at l <$> seq lo n).
Proof.
  induction n as [|n IH]; intros lo Hb; [apply Qcle_refl |].
  cbn [seq]. rewrite fmap_cons. cbn [foldr].
  replace 0 with (0 + 0) at 1 by ring.
  apply Qcplus_le_compat; [apply Hb; lia | apply IH; intros i Hi; apply Hb; lia].
Qed.

Lemma spec_window_sum_nonneg l lo hi :
  (∀ i, (lo ≤ i < hi)%nat → 0 ≤ num_at l i) → 0 ≤ spec_window_sum l lo hi.
Proof. intros Hb. apply seq_sum_nonneg. intros i Hi. apply Hb. lia. Qed.

Lemma all_nonneg_num_at l i : all_nonneg l = true → 0 ≤ num_at l i.
Proof.
  intros Hall. unfold num_at.
  destruct (l !! i) as [v|] eqn:Hv; cbn; [| apply Qcle_refl].
  unfold all_nonneg in Hall. rewrite forallb_forall in Hall.
  specialize (Hall v ltac:(apply list_elem_of_In; by eapply list_elem_of_lookup_2)).
  unfold nonneg_value in Hall. destruct (as_num v) as [q|]; cbn; [| apply Qcle_refl].
  by apply bool_decide_eq_true in Hall.
Qed.

(** The four sums of a record, as numbers. *)
Lemma rainfall_sums_of_record hourly idx w d :
  derives hourly idx w d →
  w !! "rainfall_3h"
  = Some (PNum (if bool_decide (3 ≤ idx)%nat
                then spec_window_sum (dv_precip d) (idx - 3) idx else 0)) ∧
  w !! "rainfall_6h"
  = Some (PNum (if bool_decide (6 ≤ idx)%nat
                then spec_window_sum (dv_precip d) (idx - 6) idx else 0)) ∧
  w !! "rainfall_24h"
  = Some (PNum (if bool_decide (24 ≤ idx)%nat
                then spec_window_sum (dv_precip d) (idx - 24) idx else 0)) ∧
  w !! "rainfall_7d" = Some (PNum (spec_window_sum (dv_precip d) 0 idx)).
Proof.
  intros D. pose proof (derives_idx_in_range _ _ _ _ D) as Hlen.
  destruct (rainfall_3h_spec _ _ _ Hlen (dv_r3_eq _ _ _ _ D)) as [H3 H3'].
  destruct (rainfall_6h_spec _ _ _ Hlen (dv_r6_eq _ _ _ _ D)) as [H6 H6'].
  destruct (rainfall_24h_spec _ _ _ Hlen (dv_r24_eq _ _ _ _ D)) as [H24 H24'].
  destruct (rainfall_7d_spec _ _ _ Hlen (dv_r7d_eq _ _ _ _ D)) as [H7 H7'].
  rewrite (dv_r3_field _ _ _ _ D), (dv_r6_field _ _ _ _ D),
    (dv_r24_field _ _ _ _ D), (dv_r7d_field _ _ _ _ D).
  repeat split; f_equal.
  - case_bool_decide; [by apply H3 | apply H3'; lia].
  - case_bool_decide; [by apply H6 | apply H6'; lia].
  - case_bool_decide; [by apply H24 | apply H24'; lia].
  - destruct (decide (idx = 0%nat)) as [->|Hpos]; [by apply H7' | apply H7; lia].
Qed.

Lemma clipped_nonneg (b : bool) (x : Qc) : 0 ≤ x → 0 ≤ (if b then x else 0).
Proof. destruct b; [done | intros; apply Qcle_refl]. Qed.

Lemma clipped_le (b : bool) (x y : Qc) : x ≤ y → 0 ≤ y → (if b then x else 0) ≤ y.
Proof. by destruct b. Qed.

(** X1.  On a precipitation series without negative values none of the
    rainfall sums of a record is negative, and neither is [rainfall_1h]
    when it is a number. *)
Theorem rainfall_never_negative hourly idx venue country iso w precip :
  feature_record hourly idx venue country iso = Some w →
  hourly !! "precipitation" = Some precip →
  all_nonneg precip = true →
  (∀ key, key ∈ RAINFALL_SUMS → ∃ q, w !! key = Some (PNum q) ∧ 0 ≤ q) ∧
  (∀ q, w !! "rainfall_1h" ≫= as_num = Some q → 0 ≤ q).
Proof.
  intros H Hp Hall. apply feature_record_derives in H as [d D].
  rewrite (dv_precip_key _ _ _ _ D) in Hp. apply (inj Some) in Hp.
  destruct (rainfall_sums_of_record _ _ _ _ D) as (H3 & H6 & H24 & H7).
  rewrite Hp in *.
  assert (Hwin : ∀ lo hi, 0 ≤ spec_window_sum precip lo hi)
    by (intros; apply spec_window_sum_nonneg; intros; by apply all_nonneg_num_at).
  split.
  - intros key Hin. unfold RAINFALL_SUMS in Hin.
    apply elem_of_cons in Hin as [->|Hin];
      [eexists; split; [exact H3 |]; apply clipped_nonneg, Hwin |].
    apply elem_of_cons in Hin as [->|Hin];
      [eexists; split; [exact H6 |]; apply clipped_nonneg, Hwin |].
    apply elem_of_cons in Hin as [->|Hin];
      [eexists; split; [exact H24 |]; apply clipped_nonneg, Hwin |].
    apply elem_of_cons in Hin as [->|Hin]; [| by apply elem_of_nil in Hin].
    eexists; split; [exact H7 | apply Hwin].
  - intros q Hq. rewrite (dv_r1_field _ _ _ _ D) in Hq. cbn in Hq.
    destruct (rainfall_1h_spec _ _ _ (dv_r1_eq _ _ _ _ D)) as [Hpos Hzero].
    destruct (decide (idx = 0%nat)) as [Hz|Hnz].
    + rewrite (Hzero Hz) in Hq. apply (inj Some) in Hq. subst q. apply Qcle_refl.
    + rewrite Hp in Hpos. specialize (Hpos ltac:(lia)).
      pose proof (all_nonneg_num_at precip idx Hall) as Hn.
      unfold num_at in Hn. rewrite Hpos in Hn. cbn in Hn. by rewrite Hq in Hn.
Qed.

Lemma rainfall_never_negative_witness :
  (∀ key, key ∈ RAINFALL_SUMS →
     ∃ q, steady_record 30 rain_30 29 !! key = Some (PNum q) ∧ 0 ≤ q) ∧
  (∀ q, steady_record 30 rain_30 29 !! "rainfall_1h" ≫= as_num = Some q → 0 ≤ q).
Proof.
  apply (rainfall_never_negative (steady_hourly 30 rain_30) 29%nat
           "Newbury" "UK" "2025-10-21T05:30:00" _ rain_30).
  - steady_computed.
  - vm_compute. reflexivity.
  - vm_compute. reflexivity.
Defined.



(** One hour of a window is at most the window's sum when no value is
    negative. *)
Lemma spec_window_sum_single l j :
  spec_window_sum l j (S j) = num_at l j.
Proof.
  unfold spec_window_sum. replace (S j - j)%nat with 1%nat by lia.
  cbn [seq fmap list_fmap foldr]. ring.
Qed.

Lemma spec_window_sum_ge_hour l lo hi j :
  (lo ≤ j < hi)%nat → (∀ i, 0 ≤ num_at l i) → num_at l j ≤ spec_window_sum l lo hi.
Proof.
  intros Hj Hnn.
  rewrite (spec_window_sum_split l lo j hi) by lia.
  rewrite (spec_window_sum_split l j (S j) hi) by lia.
  rewrite spec_window_sum_single.
  pose proof (spec_window_sum_nonneg l lo j (λ i _, Hnn i)) as H1.
  pose proof (spec_window_sum_nonneg l (S j) hi (λ i _, Hnn i)) as H2.
  pose proof (Hnn j) as Hx.
  set (A := spec_window_sum l lo j) in *.
  set (B := spec_window_sum l (S j) hi) in *.
  set (x := num_at l j) in *. clearbody A B x. clear Hnn. qc_arith.
Qed.

(** X3.  Rain that ended the dry spell shows in the windows that reach
    it.  On a precipitation series without negative values, when
    [hours_since_rain] is below the size [N] of a full window, the hour
    that stopped the count lies in the window, so [rainfall_3h],
    [rainfall_6h] or [rainfall_24h] is above 0.1. *)
Theorem recent_rain_shows_in_window hourly idx venue country iso w precip :
  feature_record hourly idx venue country iso = Some w →
  hourly !! "precipitation" = Some precip →
  all_nonneg precip = true →
  ∃ h, w !! "hours_since_rain" = Some (py_int h) ∧
    ∀ n key, (n, key) ∈ SUM_WINDOWS → (n ≤ idx)%nat → (h < n)%nat →
      ∃ q, w !! key = Some (PNum q) ∧ dec 1 10 < q.
Proof.
  intros H Hp Hnn. apply feature_record_derives in H as [d D].
  rewrite (dv_precip_key _ _ _ _ D) in Hp. apply (inj Some) in Hp. subst precip.
  pose proof (dv_hours_eq _ _ _ _ D) as Hh. unfold hours_since_rain in Hh.
  apply hours_loop_spec in Hh as (k & Hk & Hle & _ & Hwet). cbn in Hk.
  exists (dv_hours d). split; [apply D |]. rewrite Hk.
  intros n key Hin Hn Hlt.
  destruct (sum_window_field _ _ _ _ _ _ D Hin) as (r & Hr & Hfull & _).
  rewrite (Hfull Hn) in Hr. eexists. split; [exact Hr |].
  destruct (Hwet ltac:(lia)) as (q & Hq & Hgt).
  pose proof (spec_window_sum_ge_hour (dv_precip d) (idx - n) idx (idx - k - 1)
                ltac:(lia) (λ i, all_nonneg_num_at _ i Hnn)) as Hge.
  unfold num_at in Hge at 1. rewrite Hq in Hge. cbn in Hge.
  eapply Qclt_le_trans; [exact Hgt | exact Hge].
Qed.

Lemma recent_rain_shows_in_window_witness :
  ∃ h, steady_record 30 rain_30 29 !! "hours_since_rain" = Some (py_int h) ∧
    ∀ n key, (n, key) ∈ SUM_WINDOWS → (n ≤ 29)%nat → (h < n)%nat →
      ∃ q, steady_record 30 rain_30 29 !! key = Some (PNum q) ∧ dec 1 10 < q.
Proof.
  apply (recent_rain_shows_in_window (steady_hourly 30 rain_30) 29%nat
           "Newbury" "UK" "2025-10-21T05:30:00" _ rain_30).
  - steady_computed.
  - vm_compute. reflexivity.
  - vm_compute. reflexivity.
Defined.

(** ** weather.py: saturation index and net moisture *)

Lemma ground_saturation_inv x y z r :
  ground_saturation x y z = Some r →
  ∃ a b c, as_num x = Some a ∧ as_num y = Some b ∧ as_num z = Some c ∧
    r = PNum (a * dec 5 10 + b * dec 3 10 + c * dec 2 10).
Proof.
  unfold ground_saturation, py_mul, py_add.
  destruct (as_num x) as [a|]; [|discriminate].
  destruct (as_num y) as [b|]; [|discriminate].
  destruct (as_num z) as [c|]; [|discriminate].
  cbn. intros Hr. apply (inj Some) in Hr. subst r. by eexists _, _, _.
Qed.

Lemma net_moisture_24h_inv rain et0 r :
  net_moisture_24h rain et0 = Some r →
  ∃ a e, as_num rain = Some a ∧ as_num et0 = Some e ∧ r = PNum (a - e * dec 24 1).
Proof.
  unfold net_moisture_24h, py_mul, py_sub.
  destruct (as_num et0) as [e|]; [|discriminate]. cbn.
  destruct (as_num rain) as [a|]; [|discriminate]. cbn.
  intros Hr. apply (inj Some) in Hr. subst r. by eexists _, _.
Qed.

(** The ground part of a record: the three soil moistures and the
    evapotranspiration at [idx] are numbers, and the two indices are
    computed from them and from [rainfall_24h]. *)
Lemma feature_record_ground hourly idx venue country iso w :
  feature_record hourly idx venue country iso = Some w →
  ∃ a b c e r24,
    series hourly "soil_moisture_0_to_1cm" idx ≫= as_num = Some a ∧
    series hourly "soil_moisture_1_to_3cm" idx ≫= as_num = Some b ∧
    series hourly "soil_moisture_3_to_9cm" idx ≫= as_num = Some c ∧
    series hourly "et0_fao_evapotranspiration" idx ≫= as_num = Some e ∧
    w !! "rainfall_24h" ≫= as_num = Some r24 ∧
    w !! "ground_saturation_index"
    = Some (PNum (a * dec 5 10 + b * dec 3 10 + c * dec 2 10)) ∧
    w !! "net_moisture_24h" = Some (PNum (r24 - e * dec 24 1)).
Proof.
  unfold feature_record. intros H.
  do 32 inv_bind H. apply (inj Some) in H. subst w.
  apply ground_saturation_inv in Hv9 as (a & b & c & Ha & Hb & Hc & ->).
  apply net_moisture_24h_inv in Hv11 as (r24 & e & Hr & He & ->).
  exists a, b, c, e, r24.
  rewrite Hv6, Hv7, Hv8, Hv10. cbn [mbind option_bind].
  split; [done |]. split; [done |]. split; [done |]. split; [done |].
  split; [rewrite lookup_list_to_map_assoc; exact Hr |].
  split; lookup_record.
Qed.

(** X4.  The ground saturation index is
    [0.5 a + 0.3 b + 0.2 c] of the three soil moistures at the reference
    index.  It is not negative when none of the three is, and it is
    monotone: a response that is at least as wet at each of the three
    depths gets an index at least as high. *)
Theorem ground_saturation_weighted_and_monotone hourly idx venue country iso w :
  feature_record hourly idx venue country iso = Some w →
  ∃ a b c g,
    series hourly "soil_moisture_0_to_1cm" idx ≫= as_num = Some a ∧
    series hourly "soil_moisture_1_to_3cm" idx ≫= as_num = Some b ∧
    series hourly "soil_moisture_3_to_9cm" idx ≫= as_num = Some c ∧
    w !! "ground_saturation_index" = Some (PNum g) ∧
    g = a * dec 5 10 + b * dec 3 10 + c * dec 2 10 ∧
    (0 ≤ a → 0 ≤ b → 0 ≤ c → 0 ≤ g) ∧
    ∀ hourly' idx' venue' country' iso' w' a' b' c',
      feature_record hourly' idx' venue' country' iso' = Some w' →
      series hourly' "soil_moisture_0_to_1cm" idx' ≫= as_num = Some a' →
      series hourly' "soil_moisture_1_to_3cm" idx' ≫= as_num = Some b' →
      series hourly' "soil_moisture_3_to_9cm" idx' ≫= as_num = Some c' →
      a ≤ a' → b ≤ b' → c ≤ c' →
      ∃ g', w' !! "ground_saturation_index" = Some (PNum g') ∧ g ≤ g'.
Proof.
  intros H. apply feature_record_ground in H
    as (a & b & c & e & r24 & Ha & Hb & Hc & _ & _ & Hg & _).
  exists a, b, c, (a * dec 5 10 + b * dec 3 10 + c * dec 2 10).
  split; [done |]. split; [done |]. split; [done |]. split; [done |].
  split; [done |]. split.
  - intros Ha0 Hb0 Hc0. qc_arith.
  - intros hourly' idx' venue' country' iso' w' a' b' c' H' Ha' Hb' Hc' Hla Hlb Hlc.
    apply feature_record_ground in H'
      as (a2 & b2 & c2 & e2 & r2 & Ha2 & Hb2 & Hc2 & _ & _ & Hg' & _).
    rewrite Ha' in Ha2. rewrite Hb' in Hb2. rewrite Hc' in Hc2.
    apply (inj Some) in Ha2, Hb2, Hc2. subst a2 b2 c2.
    eexists. split; [exact Hg' |]. qc_arith.
Qed.

Lemma ground_saturation_weighted_and_monotone_witness :
  ∃ a b c g,
    series (sample_hourly rain_at_hour_2 soil_steady)
      "soil_moisture_0_to_1cm" 4 ≫= as_num = Some a ∧
    series (sample_hourly rain_at_hour_2 soil_steady)
      "soil_moisture_1_to_3cm" 4 ≫= as_num = Some b ∧
    series (sample_hourly rain_at_hour_2 soil_steady)
      "soil_moisture_3_to_9cm" 4 ≫= as_num = Some c ∧
    sample_record rain_at_hour_2 soil_steady 4 !! "ground_saturation_index"
    = Some (PNum g) ∧
    g = a * dec 5 10 + b * dec 3 10 + c * dec 2 10 ∧
    (0 ≤ a → 0 ≤ b → 0 ≤ c → 0 ≤ g) ∧
    ∀ hourly' idx' venue' country' iso' w' a' b' c',
      feature_record hourly' idx' venue' country' iso' = Some w' →
      series hourly' "soil_moisture_0_to_1cm" idx' ≫= as_num = Some a' →
      series hourly' "soil_moisture_1_to_3cm" idx' ≫= as_num = Some b' →
      series hourly' "soil_moisture_3_to_9cm" idx' ≫= as_num = Some c' →
      a ≤ a' → b ≤ b' → c ≤ c' →
      ∃ g', w' !! "ground_saturation_index" = Some (PNum g') ∧ g ≤ g'.
Proof.
  apply (ground_saturation_weighted_and_monotone
           (sample_hourly rain_at_hour_2 soil_steady) 4%nat
           "Newbury" "UK" "2025-10-20T04:30:00").
  sample_computed.
Defined.

(** X5.  [net_moisture_24h] is [rainfall_24h] minus 24 times the
    evapotranspiration of the reference hour alone.  Inside the first day
    ([idx < 24]), where [rainfall_24h] reads 0, it is therefore
    [-24 * et0] however much it rained. *)
Theorem net_moisture_uses_clipped_rainfall hourly idx venue country iso w :
  feature_record hourly idx venue country iso = Some w →
  ∃ e r24,
    series hourly "et0_fao_evapotranspiration" idx ≫= as_num = Some e ∧
    w !! "rainfall_24h" = Some (PNum r24) ∧
    w !! "net_moisture_24h" = Some (PNum (r24 - e * dec 24 1)) ∧
    ((idx < 24)%nat → w !! "net_moisture_24h" = Some (PNum (0 - e * dec 24 1))).
Proof.
  intros H. pose proof H as H'.
  apply feature_record_ground in H
    as (a & b & c & e & r24 & _ & _ & _ & He & Hr & _ & Hn).
  apply feature_record_derives in H' as [d D].
  destruct (rainfall_sums_of_record _ _ _ _ D) as (_ & _ & H24 & _).
  rewrite H24 in Hr. cbn in Hr. apply (inj Some) in Hr.
  exists e, r24. split; [done |]. split; [by rewrite H24, Hr |]. split; [done |].
  intros Hclip. rewrite Hn. do 3 f_equal. rewrite <- Hr.
  by rewrite bool_decide_eq_false_2 by lia.
Qed.

Lemma net_moisture_uses_clipped_rainfall_witness :
  ∃ e r24,
    series (sample_hourly rain_at_hour_2 soil_steady)
      "et0_fao_evapotranspiration" 4 ≫= as_num = Some e ∧
    sample_record rain_at_hour_2 soil_steady 4 !! "rainfall_24h" = Some (PNum r24) ∧
    sample_record rain_at_hour_2 soil_steady 4 !! "net_moisture_24h"
    = Some (PNum (r24 - e * dec 24 1)) ∧
    ((4 < 24)%nat →
       sample_record rain_at_hour_2 soil_steady 4 !! "net_moisture_24h"
       = Some (PNum (0 - e * dec 24 1))).
Proof.
  apply (net_moisture_uses_clipped_rainfall
           (sample_hourly rain_at_hour_2 soil_steady) 4%nat
           "Newbury" "UK" "2025-10-20T04:30:00").
  sample_computed.
Defined.

(** ** weather.py: when a record is returned, and what it reads *)

(** The raw part of a record and its labels. *)
Lemma feature_record_raw hourly idx venue country iso w :
  feature_record hourly idx venue country iso = Some w →
  (∀ field var, (field, var) ∈ RAW_FIELDS →
     ∃ v, series hourly var idx = Some v ∧ w !! field = Some v) ∧
  w !! "venue" = Some (PStr venue) ∧
  w !! "country" = Some (PStr country) ∧
  w !! "race_datetime" = Some (PStr iso) ∧
  w !! "data_quality" = Some (PStr "comprehensive") ∧
  w !! "temp_unit" = Some (PStr (if bool_decide (country = "USA") then "°F" else "°C")) ∧
  w !! "wind_unit" = Some (PStr (if bool_decide (country = "USA") then "mph" else "m/s")) ∧
  w !! "precip_unit" = Some (PStr (if bool_decide (country = "USA") then "in" else "mm")) ∧
  w !! "fetched_at" = None.
Proof.
  unfold feature_record. intros H.
  do 32 inv_bind H. apply (inj Some) in H. subst w.
  split.
  - intros field var Hin. unfold RAW_FIELDS in Hin.
    repeat (apply elem_of_cons in Hin as [Heq|Hin];
            [inversion Heq; subst field var; eexists; split;
             [eassumption | lookup_record] |]).
    by apply elem_of_nil in Hin.
  - repeat split; lookup_record.
Qed.

(** The derivation succeeds exactly on usable responses. *)
Lemma feature_record_usable hourly idx venue country iso w :
  feature_record hourly idx venue country iso = Some w → usable hourly idx.
Proof.
  intros H. pose proof H as Hraw. pose proof H as Hground. pose proof H as Hder.
  apply feature_record_raw in Hraw as [Hraw _].
  apply feature_record_ground in Hground
    as (a & b & c & e & r24 & Ha & Hb & Hc & He & _).
  apply feature_record_derives in Hder as [d D].
  pose proof (derives_idx_in_range _ _ _ _ D) as Hlen.
  split.
  - intros k Hin.
    assert (Hall : Forall (λ k, k ∈ RAW_FIELDS.*2) HOURLY_VARS)
      by (apply (bool_decide_unpack _); vm_compute; exact I).
    rewrite Forall_forall in Hall. apply Hall in Hin.
    apply list_elem_of_fmap in Hin as ([field var] & -> & Hf).
    destruct (Hraw _ _ Hf) as (v & Hv & _). eauto.
  - intros i Hi. unfold series. rewrite (dv_precip_key _ _ _ _ D). cbn.
    destruct (lookup_lt_is_Some_2 (dv_precip d) i ltac:(lia)) as [x Hx].
    pose proof (dv_r7d_eq _ _ _ _ D) as H7. unfold rainfall_7d in H7.
    rewrite bool_decide_eq_true_2 in H7 by lia.
    destruct (slice_all_numbers _ _ _ H7 i x Hi Hx) as [q Hq].
    exists q. rewrite Hx. exact Hq.
  - intros k Hin.
    repeat (apply elem_of_cons in Hin as [->|Hin]; [eauto |]).
    by apply elem_of_nil in Hin.
  - intros Hc3.
    destruct (track_trend_spec _ _ _ _ (dv_trend_eq _ _ _ _ D)) as [Hfull _].
    destruct (Hfull Hc3) as (cur & past & _ & Hpast & _).
    exists past. unfold series. rewrite (dv_sm01s_key _ _ _ _ D). exact Hpast.
Qed.

(** X6.  When the derivation returns a record.  It returns one only
    for a response that is usable at [idx]: every requested series reaches
    [idx], the precipitation before [idx], the three soil moistures and the
    evapotranspiration at [idx] are numbers, and so is the surface moisture
    at [idx - 3] when [idx >= 3].  And it returns one for every usable
    response whose numbers are within the signed 64-bit range; a null or
    missing value anywhere else does not stop it. *)
Theorem derivation_succeeds_on_usable_response hourly idx venue country iso :
  (is_Some (feature_record hourly idx venue country iso) → usable hourly idx) ∧
  (usable hourly idx → int64_response hourly = true →
   is_Some (feature_record hourly idx venue country iso)).
Proof.
  split.
  - intros [w Hw]. by eapply feature_record_usable.
  - intros Hu _. by apply feature_record_total.
Qed.

Lemma derivation_succeeds_on_usable_response_witness :
  usable (sample_hourly rain_at_hour_2 soil_steady) 4 ∧
  is_Some (feature_record (sample_hourly rain_at_hour_2 soil_steady) 4
             "Newbury" "UK" "2025-10-20T04:30:00").
Proof.
  assert (Hu : usable (sample_hourly rain_at_hour_2 soil_steady) 4).
  { apply (proj1 (derivation_succeeds_on_usable_response
                    (sample_hourly rain_at_hour_2 soil_steady) 4%nat
                    "Newbury" "UK" "2025-10-20T04:30:00")).
    apply succeeded_is_Some. vm_compute. reflexivity. }
  split; [exact Hu |].
  apply (proj2 (derivation_succeeds_on_usable_response
                  (sample_hourly rain_at_hour_2 soil_steady) 4%nat
                  "Newbury" "UK" "2025-10-20T04:30:00")); [exact Hu |].
  vm_compute. reflexivity.
Defined.

Section FetchProperties.
Context `{Platform}.

Lemma locate_race_hour_inv resp race_datetime hourly idx :
  locate_race_hour resp race_datetime = Some (hourly, idx) ↔
  ∃ response, resp = Some response ∧ status_code response = 200%Z ∧
    json_hourly response = Some hourly ∧
    py_index (PStr (strftime_hour race_datetime)) (default [] (hourly !! "time"))
    = Some idx.
Proof.
  unfold locate_race_hour. split.
  - intros Hloc. inv_bind Hloc. case_bool_decide as Hs; [discriminate |].
    inv_bind Hloc. inv_bind Hloc. apply (inj Some) in Hloc.
    inversion Hloc; subst. exists v. split; [done |]. split; [| done].
    by destruct (decide (status_code v = 200%Z)).
  - intros (response & -> & Hs & Hj & Hi). cbn [mbind option_bind].
    rewrite bool_decide_eq_false_2 by (by intros ?).
    rewrite Hj. cbn [mbind option_bind]. rewrite Hi. reflexivity.
Qed.

(** X7.  When the fetch returns a record.  It returns one only when the
    venue is in the catalog, the request returned with status 200 and a
    decodable body, the race hour key occurs in the response's time index,
    and the response is usable at the first index of that key.  And it
    returns one whenever all of that holds and the numbers of the response
    are within the signed 64-bit range. *)
Theorem fetch_returns_record_when venue race_datetime w0 :
  (is_Some (result_of (get_comprehensive_weather venue race_datetime) w0) →
   ∃ coords response hourly idx,
     venue_coords venue = Some coords ∧
     requests_get (tick w0) (request_params coords race_datetime) = Some response ∧
     status_code response = 200%Z ∧
     json_hourly response = Some hourly ∧
     py_index (PStr (strftime_hour race_datetime)) (default [] (hourly !! "time"))
     = Some idx ∧
     usable hourly idx) ∧
  (∀ coords response hourly idx,
     venue_coords venue = Some coords →
     requests_get (tick w0) (request_params coords race_datetime) = Some response →
     status_code response = 200%Z →
     json_hourly response = Some hourly →
     py_index (PStr (strftime_hour race_datetime)) (default [] (hourly !! "time"))
     = Some idx →
     usable hourly idx →
     int64_response hourly = true →
     is_Some (result_of (get_comprehensive_weather venue race_datetime) w0)).
Proof.
  unfold result_of. split.
  - intros [weather Hw].
    destruct (get_comprehensive_weather venue race_datetime w0) as [r w1] eqn:Hg.
    cbn in Hw. subst r.
    apply get_comprehensive_weather_result in Hg
      as (coords & hourly & idx & result & Hc & Hloc & _ & Hrec & _).
    apply locate_race_hour_inv in Hloc as (response & Hr & Hs & Hj & Hi).
    exists coords, response, hourly, idx.
    split; [done |]. split; [done |]. split; [done |]. split; [done |].
    split; [done |]. by eapply feature_record_usable.
  - intros coords response hourly idx Hc Hr Hs Hj Hi Hu _.
    unfold get_comprehensive_weather. rewrite Hc.
    unfold bind at 1, http_get at 1. rewrite Hr.
    assert (Hloc : locate_race_hour (Some response) race_datetime = Some (hourly, idx))
      by (apply locate_race_hour_inv; eauto 6).
    rewrite Hloc.
    destruct (feature_record_total hourly idx venue (country coords)
                (isoformat race_datetime) Hu) as [result ->].
    cbn. by eexists.
Qed.

(** X8.  What a returned record reads: each raw field holds the
    provider's value of its measurement at the first index whose time key
    is the race hour; ['venue'], ['country'] and ['race_datetime'] are the
    request's; ['fetched_at'] is the clock reading taken after the
    request. *)
Theorem fetched_record_reads_first_match venue race_datetime w0 weather w1 :
  get_comprehensive_weather venue race_datetime w0 = (Some weather, w1) →
  ∃ coords response hourly idx,
    venue_coords venue = Some coords ∧
    requests_get (tick w0) (request_params coords race_datetime) = Some response ∧
    json_hourly response = Some hourly ∧
    default [] (hourly !! "time") !! idx = Some (PStr (strftime_hour race_datetime)) ∧
    (∀ j, (j < idx)%nat →
       default [] (hourly !! "time") !! j ≠ Some (PStr (strftime_hour race_datetime))) ∧
    (∀ field var, (field, var) ∈ RAW_FIELDS →
       ∃ v, series hourly var idx = Some v ∧ weather !! field = Some v) ∧
    weather !! "venue" = Some (PStr venue) ∧
    weather !! "country" = Some (PStr (country coords)) ∧
    weather !! "race_datetime" = Some (PStr (isoformat race_datetime)) ∧
    weather !! "fetched_at" = Some (PStr (isoformat (clock (S (tick w0))))).
Proof.
  intros Hg.
  apply get_comprehensive_weather_result in Hg
    as (coords & hourly & idx & result & Hc & Hloc & _ & Hrec & Hw & Hsame).
  apply locate_race_hour_inv in Hloc as (response & Hr & Hs & Hj & Hi).
  apply py_index_spec in Hi as [Hat Hfirst].
  apply feature_record_raw in Hrec as (Hraw & Hv & Hco & Hdt & _).
  exists coords, response, hourly, idx.
  split; [done |]. split; [done |]. split; [done |]. split; [done |].
  split; [done |]. split.
  - intros field var Hin. destruct (Hraw _ _ Hin) as (v & Hv1 & Hv2).
    exists v. split; [done |]. rewrite Hsame; [done |].
    intros ->. unfold RAW_FIELDS in Hin.
    repeat (apply elem_of_cons in Hin as [Heq|Hin]; [discriminate Heq |]).
    by apply elem_of_nil in Hin.
  - rewrite !Hsame by discriminate. split; [done |]. split; [done |]. split; [done |].
    rewrite Hw. apply lookup_insert_eq.
Qed.

(** X9.  The fetch never touches the table.  For a venue outside the
    catalog it makes no request and reads no clock; for a catalog venue it
    makes one request, and reads the clock once more only when it returns a
    record. *)
Theorem fetch_effects venue race_datetime w0 :
  db (state_after (get_comprehensive_weather venue race_datetime) w0) = db w0 ∧
  (venue_coords venue = None →
     get_comprehensive_weather venue race_datetime w0 = (None, w0)) ∧
  (is_Some (venue_coords venue) →
     tick (state_after (get_comprehensive_weather venue race_datetime) w0)
     = match result_of (get_comprehensive_weather venue race_datetime) w0 with
       | Some _ => S (S (tick w0))
       | None => S (tick w0)
       end).
Proof.
  destruct (venue_coords venue) as [coords|] eqn:Hc.
  - assert (Hg : get_comprehensive_weather venue race_datetime w0 =
      match locate_race_hour
              (requests_get (tick w0) (request_params coords race_datetime))
              race_datetime with
      | Some (hourly, idx) =>
          match feature_record hourly idx venue (country coords)
                  (isoformat race_datetime) with
          | Some result =>
              (Some (<["fetched_at" := PStr (isoformat (clock (S (tick w0))))]> result),
               advance (advance w0))
          | None => (None, advance w0)
          end
      | None => (None, advance w0)
      end).
    { unfold get_comprehensive_weather. rewrite Hc. unfold bind at 1, http_get.
      destruct (locate_race_hour _ _) as [[hourly idx]|]; [| reflexivity].
      destruct (feature_record _ _ _ _ _); reflexivity. }
    unfold state_after, result_of. rewrite Hg.
    destruct (locate_race_hour _ _) as [[hourly idx]|];
      [destruct (feature_record _ _ _ _ _) |]; cbn;
      (split; [done |]; split; [discriminate | done]).
  - unfold state_after, result_of, get_comprehensive_weather. rewrite Hc. cbn.
    split; [done |]. split; [done | by intros []].
Qed.

(** X10.  The units asked of the provider and the unit labels of the
    record are chosen together, by the catalog's country of the venue:
    fahrenheit, mph and inch with the labels °F, mph and in for "USA";
    celsius, ms and mm with °C, m/s and mm for every other country. *)
Theorem units_follow_catalog_country venue race_datetime w0 weather w1 :
  get_comprehensive_weather venue race_datetime w0 = (Some weather, w1) →
  ∃ coords, venue_coords venue = Some coords ∧
    let req := request_params coords race_datetime in
    if bool_decide (country coords = "USA") then
      temperature_unit req = "fahrenheit" ∧ wind_speed_unit req = "mph" ∧
      precipitation_unit req = "inch" ∧
      weather !! "temp_unit" = Some (PStr "°F") ∧
      weather !! "wind_unit" = Some (PStr "mph") ∧
      weather !! "precip_unit" = Some (PStr "in")
    else
      temperature_unit req = "celsius" ∧ wind_speed_unit req = "ms" ∧
      precipitation_unit req = "mm" ∧
      weather !! "temp_unit" = Some (PStr "°C") ∧
      weather !! "wind_unit" = Some (PStr "m/s") ∧
      weather !! "precip_unit" = Some (PStr "mm").
Proof.
  intros Hg.
  apply get_comprehensive_weather_result in Hg
    as (coords & hourly & idx & result & Hc & _ & _ & Hrec & _ & Hsame).
  apply feature_record_raw in Hrec as (_ & _ & _ & _ & _ & Ht & Hw & Hp & _).
  exists coords. split; [done |]. cbn zeta. unfold request_params.
  cbn [temperature_unit wind_speed_unit precipitation_unit].
  rewrite !Hsame by discriminate. rewrite Ht, Hw, Hp.
  by destruct (bool_decide (country coords = "USA")).
Qed.
End FetchProperties.

Lemma run_split_some {A} (m : M (option A)) (w : World) (d : A) :
  succeeded (result_of m w) = true →
  m w = (Some (default d (result_of m w)), state_after m w).
Proof.
  unfold result_of, state_after. destruct (m w) as [[a|] w']; [reflexivity | discriminate].
Defined.

Lemma fetch_returns_record_when_witness :
  let P := run_platform in
  is_Some (result_of (get_comprehensive_weather "Newbury" (hours_us 4 30)) fresh_world) ∧
  ∃ coords response hourly idx,
    venue_coords "Newbury" = Some coords ∧
    requests_get (tick fresh_world) (request_params coords (hours_us 4 30)) = Some response ∧
    status_code response = 200%Z ∧
    json_hourly response = Some hourly ∧
    py_index (PStr (strftime_hour (hours_us 4 30))) (default [] (hourly !! "time"))
    = Some idx ∧
    usable hourly idx.
Proof.
  intros P.
  assert (Hs : is_Some (result_of (get_comprehensive_weather "Newbury" (hours_us 4 30))
                          fresh_world)).
  { eapply (proj2 (fetch_returns_record_when "Newbury" (hours_us 4 30) fresh_world)
              _ _ (sample_hourly dry_hours soil_steady) 4%nat).
    - reflexivity.
    - reflexivity.
    - reflexivity.
    - reflexivity.
    - vm_compute. reflexivity.
    - apply (feature_record_usable _ _ "Newbury" "UK" "2025-10-20T04:30:00"
               (sample_record dry_hours soil_steady 4)).
      sample_computed.
    - vm_compute. reflexivity. }
  split; [exact Hs |].
  apply (proj1 (fetch_returns_record_when "Newbury" (hours_us 4 30) fresh_world)).
  exact Hs.
Defined.

Lemma fetched_record_reads_first_match_witness :
  let P := run_platform in
  let weather := default ∅ (result_of (get_comprehensive_weather "Newbury" (hours_us 4 30))
                              fresh_world) in
  ∃ coords response hourly idx,
    venue_coords "Newbury" = Some coords ∧
    requests_get (tick fresh_world) (request_params coords (hours_us 4 30)) = Some response ∧
    json_hourly response = Some hourly ∧
    default [] (hourly !! "time") !! idx = Some (PStr (strftime_hour (hours_us 4 30))) ∧
    (∀ j, (j < idx)%nat →
       default [] (hourly !! "time") !! j ≠ Some (PStr (strftime_hour (hours_us 4 30)))) ∧
    (∀ field var, (field, var) ∈ RAW_FIELDS →
       ∃ v, series hourly var idx = Some v ∧ weather !! field = Some v) ∧
    weather !! "venue" = Some (PStr "Newbury") ∧
    weather !! "country" = Some (PStr (country coords)) ∧
    weather !! "race_datetime" = Some (PStr (isoformat (hours_us 4 30))) ∧
    weather !! "fetched_at" = Some (PStr (isoformat (clock (S (tick fresh_world))))).
Proof.
  intros P weather.
  apply (fetched_record_reads_first_match "Newbury" (hours_us 4 30) fresh_world weather
           (state_after (get_comprehensive_weather "Newbury" (hours_us 4 30)) fresh_world)).
  apply run_split_some. vm_compute. reflexivity.
Defined.

Lemma fetch_effects_witness :
  let P := run_platform in
  get_comprehensive_weather "Longchamp" (hours_us 4 30) fresh_world = (None, fresh_world) ∧
  tick (state_after (get_comprehensive_weather "Newbury" (hours_us 4 30)) fresh_world)
  = match result_of (get_comprehensive_weather "Newbury" (hours_us 4 30)) fresh_world with
    | Some _ => S (S (tick fresh_world))
    | None => S (tick fresh_world)
    end.
Proof.
  intros P. split.
  - apply (proj1 (proj2 (fetch_effects "Longchamp" (hours_us 4 30) fresh_world))).
    vm_compute. reflexivity.
  - apply (proj2 (proj2 (fetch_effects "Newbury" (hours_us 4 30) fresh_world))).
    apply succeeded_is_Some. vm_compute. reflexivity.
Defined.

Lemma units_follow_catalog_country_witness :
  let P := run_platform in
  let weather := default ∅ (result_of (get_comprehensive_weather "Churchill Downs"
                                         (hours_us 4 30)) fresh_world) in
  ∃ coords, venue_coords "Churchill Downs" = Some coords ∧
    let req := request_params coords (hours_us 4 30) in
    if bool_decide (country coords = "USA") then
      temperature_unit req = "fahrenheit" ∧ wind_speed_unit req = "mph" ∧
      precipitation_unit req = "inch" ∧
      weather !! "temp_unit" = Some (PStr "°F") ∧
      weather !! "wind_unit" = Some (PStr "mph") ∧
      weather !! "precip_unit" = Some (PStr "in")
    else
      temperature_unit req = "celsius" ∧ wind_speed_unit req = "ms" ∧
      precipitation_unit req = "mm" ∧
      weather !! "temp_unit" = Some (PStr "°C") ∧
      weather !! "wind_unit" = Some (PStr "m/s") ∧
      weather !! "precip_unit" = Some (PStr "mm").
Proof.
  intros P weather.
  apply (units_follow_catalog_country "Churchill Downs" (hours_us 4 30) fresh_world weather
           (state_after (get_comprehensive_weather "Churchill Downs" (hours_us 4 30))
              fresh_world)).
  apply run_split_some. vm_compute. reflexivity.
Defined.

(** ** collect_daily_weather.py: what is stored, and when *)

Section DailyPersistence.
Context `{Platform}.
Import DailyWeatherCollector.

Lemma fetch_keeps_db venue race_datetime w0 :
  db (get_comprehensive_weather venue race_datetime w0).2 = db w0.
Proof.
  unfold get_comprehensive_weather.
  destruct (venue_coords venue) as [coords|]; [| reflexivity].
  unfold bind at 1, http_get.
  destruct (locate_race_hour _ _) as [[hourly idx]|]; [| reflexivity].
  destruct (feature_record _ _ _ _ _); reflexivity.
Qed.

(** A fetched record has what both collectors need of it: it is not
    empty, it has a fetch time, and the two values of the summary line are
    numbers. *)
Lemma fetched_record_storable venue race_datetime w0 weather w1 :
  get_comprehensive_weather venue race_datetime w0 = (Some weather, w1) →
  weather ≠ ∅ ∧ dict_get weather "fetched_at" ≠ PNone ∧
  is_Some (py_format_f (dict_get_default weather "rainfall_24h" (PNum 0))) ∧
  is_Some (py_format_f (dict_get_default weather "soil_moisture_0_1cm" (PNum 0))).
Proof.
  intros Hg.
  apply get_comprehensive_weather_result in Hg
    as (coords & hourly & idx & result & _ & _ & _ & Hrec & Hw & Hsame).
  pose proof (feature_record_ground _ _ _ _ _ _ Hrec)
    as (a & b & c & e & r24 & Ha & _ & _ & _ & Hr & _).
  pose proof (feature_record_raw _ _ _ _ _ _ Hrec) as [Hraw _].
  destruct (Hraw "soil_moisture_0_1cm" "soil_moisture_0_to_1cm") as (v & Hv & Hwv).
  { apply (bool_decide_unpack _). vm_compute. exact I. }
  split; [rewrite Hw; apply insert_non_empty |].
  split; [unfold dict_get; rewrite Hw, lookup_insert_eq; discriminate |].
  unfold dict_get_default, py_format_f. rewrite !Hsame by discriminate. split.
  - destruct (result !! "rainfall_24h") as [x|]; [| discriminate Hr].
    cbn in Hr |- *. rewrite Hr. by eexists.
  - rewrite Hwv. rewrite Hv in Ha. cbn in Ha |- *. rewrite Ha. by eexists.
Qed.

(** Collecting a venue is fetching it at the current clock reading: the
    summary line never loses a fetched record. *)
Lemma collect_venue_weather_fetch venue coords w0 :
  collect_venue_weather venue coords w0 =
  ((λ weather, {| vd_venue := venue; vd_country := country coords;
                  vd_weather := weather |})
     <$> (get_comprehensive_weather venue (clock (tick w0)) (advance w0)).1,
   (get_comprehensive_weather venue (clock (tick w0)) (advance w0)).2).
Proof.
  unfold collect_venue_weather. unfold bind at 1, now. cbn [fst snd]. unfold bind at 1.
  destruct (get_comprehensive_weather venue (clock (tick w0)) (advance w0))
    as [[weather|] w1] eqn:Hg; cbn [fst snd fmap option_fmap option_map]; [| reflexivity].
  destruct (fetched_record_storable _ _ _ _ _ Hg) as (Hne & _ & [u Hu] & [u' Hu']).
  rewrite bool_decide_eq_false_2 by done. cbn zeta. rewrite Hu, Hu'. reflexivity.
Qed.

Lemma save_to_database_true vd w0 w1 :
  save_to_database (Some vd) w0 = (true, w1) →
  vd_weather vd ≠ ∅ ∧ dict_get (vd_weather vd) "fetched_at" ≠ PNone ∧
  has_free_rowid (db w0) = true.
Proof.
  intros Hs. split; [| split].
  - intros Hempty. unfold save_to_database in Hs.
    rewrite bool_decide_eq_true_2 in Hs by done. discriminate Hs.
  - apply save_to_database_inv in Hs as (conn' & Hins & _).
    apply sql_insert_replace_inv in Hins as [Hnn _].
    intros Hnone. apply not_true_iff_false in Hnn. apply Hnn.
    unfold violates_notnull. apply existsb_exists.
    exists {| col_name := "weather_fetched_at"; col_notnull := true |}. split.
    + unfold venue_daily_weather. cbn [sch_columns]. apply in_or_app. right.
      unfold weather_column_decls. apply list_elem_of_In.
      apply (list_elem_of_fmap_2' _ _ "weather_fetched_at"); [| reflexivity].
      apply (bool_decide_unpack _). vm_compute. exact I.
    + cbn [col_name col_notnull andb]. apply bool_decide_eq_true.
      rewrite (daily_written_weather vd _ "weather_fetched_at" "fetched_at").
      * by rewrite Hnone.
      * apply (bool_decide_unpack _). vm_compute. exact I.
  - apply save_to_database_inv in Hs as (conn' & Hins & _).
    by eapply sql_insert_free_rowid.
Qed.

Lemma save_to_database_false venue_data w0 w1 :
  save_to_database venue_data w0 = (false, w1) → db w1 = db w0.
Proof.
  unfold save_to_database. destruct venue_data as [vd|]; [| by intros [= <-]].
  destruct (bool_decide (vd_weather vd = ∅)); [by intros [= <-] |].
  unfold bind, now, get_db, put_db, ret, advance. cbn [tick db].
  destruct (sql_insert _ _ _ _ _); [intros [=] | by intros [= <-]].
Qed.

(** X11.  The outcome of a write to the periodic table.  It returns
    [True] only for a record that is not empty and has a fetch time, and
    only while the table has a row id left; and it returns [True] for
    every such record whose bound numbers are within the signed 64-bit
    range, whatever rows the table holds.  When it returns [False] the
    table is as it was. *)
Theorem daily_save_outcome venue_data w0 :
  (result_of (save_to_database venue_data) w0 = true →
   ∃ vd, venue_data = Some vd ∧ vd_weather vd ≠ ∅ ∧
         dict_get (vd_weather vd) "fetched_at" ≠ PNone ∧
         has_free_rowid (db w0) = true) ∧
  (∀ vd, venue_data = Some vd → vd_weather vd ≠ ∅ →
         dict_get (vd_weather vd) "fetched_at" ≠ PNone →
         int64_record (vd_weather vd) = true →
         has_free_rowid (db w0) = true →
         result_of (save_to_database venue_data) w0 = true) ∧
  (result_of (save_to_database venue_data) w0 = false →
   db (state_after (save_to_database venue_data) w0) = db w0).
Proof.
  unfold result_of, state_after.
  destruct (save_to_database venue_data w0) as [saved w1] eqn:Hs. cbn [fst snd].
  split; [| split].
  - intros ->. destruct venue_data as [vd|]; [| discriminate Hs].
    exists vd. split; [done |]. by eapply save_to_database_true.
  - intros vd -> Hne Hf _ Hfree.
    destruct (save_to_database_succeeds vd w0 Hne Hf Hfree) as [w1' Hs'].
    rewrite Hs' in Hs. by inversion Hs.
  - intros ->. by eapply save_to_database_false.
Qed.

(** X12.  One turn of the periodic loop.  The venue is fetched at the
    current clock reading.  When the fetch returns a record whose bound
    numbers are within the signed 64-bit range (and the table has a row
    id left), that record is written and the venue counts as a success;
    when the fetch returns nothing, the venue counts as a failure. *)
Theorem daily_entry_follows_fetch venue coords rest s f w0 :
  (∀ weather w1,
     get_comprehensive_weather venue (clock (tick w0)) (advance w0)
     = (Some weather, w1) →
     int64_record weather = true →
     has_free_rowid (db w0) = true →
     ∃ w2, save_to_database
             (Some {| vd_venue := venue; vd_country := country coords;
                      vd_weather := weather |}) w1 = (true, w2) ∧
           collection_loop ((venue, coords) :: rest) s f w0
           = collection_loop rest (S s) f w2) ∧
  (∀ w1,
     get_comprehensive_weather venue (clock (tick w0)) (advance w0) = (None, w1) →
     collection_loop ((venue, coords) :: rest) s f w0
     = collection_loop rest s (S f) w1).
Proof.
  split.
  - intros weather w1 Hg _ Hfree.
    pose proof (fetch_keeps_db venue (clock (tick w0)) (advance w0)) as Hdb.
    rewrite Hg in Hdb. cbn [snd advance db] in Hdb. rewrite <- Hdb in Hfree.
    rewrite daily_loop_step, collect_venue_weather_fetch, Hg.
    cbn [fst snd fmap option_fmap option_map].
    destruct (fetched_record_storable _ _ _ _ _ Hg) as (Hne & Hf & _).
    destruct (save_to_database_succeeds
                {| vd_venue := venue; vd_country := country coords;
                   vd_weather := weather |} w1 Hne Hf Hfree) as [w2 Hs].
    exists w2. split; [exact Hs |]. by rewrite Hs.
  - intros w1 Hg. rewrite daily_loop_step, collect_venue_weather_fetch, Hg.
    reflexivity.
Qed.

(** *** The table over a whole run *)

Lemma collect_venue_weather_db venue coords w0 :
  db (collect_venue_weather venue coords w0).2 = db w0.
Proof. rewrite collect_venue_weather_fetch. cbn [snd]. by rewrite fetch_keeps_db. Qed.

Lemma daily_keys_db w w' : db w' = db w → daily_keys w' = daily_keys w.
Proof. unfold daily_keys. by intros ->. Qed.

Lemma save_to_database_history vd w0 w1 :
  save_to_database (Some vd) w0 = (true, w1) →
  (∀ k, k ∈ daily_keys w0 → k ∈ daily_keys w1) ∧
  (length (tbl_rows (db w1)) ≤ S (length (tbl_rows (db w0))))%nat.
Proof.
  intros (conn' & Hins & ->)%save_to_database_inv.
  apply sql_insert_replace_inv in Hins as [_ ->].
  set (written := row_of insert_columns (insert_values vd (clock (tick w0)))).
  assert (Hconf : ∀ old, conflicts venue_daily_weather written old = true
                         ↔ daily_key (row_cols old) = daily_key written).
  { intros old. apply daily_conflict_iff_same_key;
      unfold written, col, row_of; rewrite lookup_list_to_map_assoc;
      [apply text_not_null | apply text_not_null | apply num_not_null]. }
  clearbody written. unfold daily_keys. cbn [db tbl_rows]. split.
  - intros k (old & -> & Hold)%list_elem_of_fmap.
    rewrite fmap_app. apply elem_of_app.
    destruct (conflicts venue_daily_weather written old) eqn:E.
    + right. apply Hconf in E. rewrite E. cbn. apply list_elem_of_singleton. reflexivity.
    + left. apply (list_elem_of_fmap_2 (λ r, daily_key (row_cols r))).
      by apply list_elem_of_filter.
  - rewrite length_app. cbn [length].
    pose proof (length_filter (λ old, conflicts venue_daily_weather written old = false)
                  (tbl_rows (db w0))). lia.
Qed.

Lemma daily_loop_history venues : ∀ s f w s' f' w',
  collection_loop venues s f w = ((s', f'), w') →
  NoDup (daily_keys w) →
  NoDup (daily_keys w') ∧
  (∀ k, k ∈ daily_keys w → k ∈ daily_keys w') ∧
  (length (tbl_rows (db w)) ≤ length (tbl_rows (db w')))%nat ∧
  (length (tbl_rows (db w')) + s ≤ length (tbl_rows (db w)) + s')%nat.
Proof.
  induction venues as [|[venue coords] rest IH]; intros s f w s' f' w' Hrun Hnd.
  - cbn in Hrun. inversion Hrun; subst. repeat split; (done || lia).
  - rewrite daily_loop_step in Hrun.
    pose proof (collect_venue_weather_db venue coords w) as Hdb.
    destruct (collect_venue_weather venue coords w) as [vd w1]. cbn [snd] in Hdb.
    assert (Hstep : ∃ saved w2,
      match vd with
      | None => (false, w1)
      | Some _ => save_to_database vd w1
      end = (saved, w2) ∧
      (NoDup (daily_keys w2)) ∧
      (∀ k, k ∈ daily_keys w → k ∈ daily_keys w2) ∧
      (length (tbl_rows (db w)) ≤ length (tbl_rows (db w2)))%nat ∧
      (length (tbl_rows (db w2)) ≤ length (tbl_rows (db w)) + (if saved : bool then 1 else 0))%nat).
    { destruct vd as [vd|].
      - destruct (save_to_database (Some vd) w1) as [[|] w2] eqn:Hs.
        + exists true, w2. split; [done |].
          pose proof (periodic_keys_stay_unique vd w1 w2) as Hu.
          rewrite (daily_keys_db _ _ Hdb) in Hu. specialize (Hu Hnd Hs).
          destruct (save_to_database_history _ _ _ Hs) as [Hincl Hlen].
          rewrite (daily_keys_db _ _ Hdb), Hdb in *.
          split; [done |]. split; [done |]. split; [| lia].
          rewrite <- (length_fmap (λ r, daily_key (row_cols r)) (tbl_rows (db w))).
          rewrite <- (length_fmap (λ r, daily_key (row_cols r)) (tbl_rows (db w2))).
          apply submseteq_length, NoDup_submseteq; [exact Hnd | exact Hincl].
        + exists false, w2. split; [done |].
          apply save_to_database_false in Hs.
          rewrite (daily_keys_db w w2) by congruence.
          replace (db w2) with (db w) by congruence.
          repeat split; (done || lia).
      - exists false, w1. split; [done |].
        rewrite (daily_keys_db _ _ Hdb), Hdb. repeat split; (done || lia). }
    destruct Hstep as (saved & w2 & Heq & Hnd2 & Hincl & Hlo & Hhi).
    rewrite Heq in Hrun.
    apply IH in Hrun as (Hnd' & Hincl' & Hlo' & Hhi'); [| exact Hnd2].
    split; [done |]. split; [by auto |]. split; [lia |].
    destruct saved; lia.
Qed.

(** X13.  A periodic run never loses history.  On a table in which no
    two rows share (venue, collection_date, collection_hour), after the
    run no two rows share it either, every key stored before is still
    stored, and the number of rows has grown by at most the number of
    successes. *)
Theorem periodic_run_keeps_history test_mode w s f w' :
  run_collection test_mode w = ((s, f), w') →
  NoDup (daily_keys w) →
  NoDup (daily_keys w') ∧
  (∀ k, k ∈ daily_keys w → k ∈ daily_keys w') ∧
  (length (tbl_rows (db w)) ≤ length (tbl_rows (db w')))%nat ∧
  (length (tbl_rows (db w')) ≤ length (tbl_rows (db w)) + s)%nat.
Proof.
  unfold run_collection. intros Hrun Hnd.
  destruct (daily_loop_history _ _ _ _ _ _ _ Hrun Hnd) as (H1 & H2 & H3 & H4).
  split; [done |]. split; [done |]. split; [done | lia].
Qed.

(** X14.  The exit code of the periodic collector: 0 exactly when every
    venue of the run was stored, 1 otherwise.  A run from a database file
    without a table ends with at most one row for each stored venue and no
    two rows under one key. *)
Theorem main_exit_code test existing start :
  let code := (main test existing start).1 in
  let final := (main test existing start).2 in
  let run := run_collection test {| tick := start; db := ensure_database existing |} in
  (code = 0%Z ∨ code = 1%Z) ∧
  (code = 0%Z ↔ run.1 = (length (venues_to_collect test), 0%nat)) ∧
  final = run.2 ∧
  (existing = None →
   NoDup (daily_keys final) ∧ (length (tbl_rows (db final)) ≤ run.1.1)%nat).
Proof.
  unfold main. cbn zeta.
  destruct (run_collection test _) as [[s f] w'] eqn:Hrun. cbn [fst snd].
  pose proof (daily_loop_tally _ _ _ _ _ _ _ Hrun) as Htally.
  split; [| split; [| split]].
  - case_bool_decide; auto.
  - case_bool_decide as Hf.
    + split; [intros _ | done]. subst f. f_equal. fold (venues_to_collect test) in Htally.
      lia.
    + split; [discriminate |]. intros [= _ ->]. done.
  - reflexivity.
  - intros ->.
    destruct (daily_loop_history _ _ _ _ _ _ _ Hrun) as (Hnd & _ & _ & Hlen).
    { cbn. apply NoDup_nil_2. }
    split; [done |]. cbn in Hlen. cbn. lia.
Qed.
End DailyPersistence.

Lemma daily_save_outcome_witness :
  let P := run_platform in
  result_of (DailyWeatherCollector.save_to_database (Some newbury_a)) fresh_world = true ∧
  ∃ vd, Some newbury_a = Some vd ∧ DailyWeatherCollector.vd_weather vd ≠ ∅ ∧
        dict_get (DailyWeatherCollector.vd_weather vd) "fetched_at" ≠ PNone ∧
        has_free_rowid (db fresh_world) = true.
Proof.
  intros P.
  assert (Hs : result_of (DailyWeatherCollector.save_to_database (Some newbury_a))
                 fresh_world = true).
  { apply (proj1 (proj2 (daily_save_outcome (Some newbury_a) fresh_world)) newbury_a).
    - reflexivity.
    - intros Heq.
      assert (H1 : DailyWeatherCollector.vd_weather newbury_a !! "fetched_at" = None)
        by (rewrite Heq; apply lookup_empty).
      vm_compute in H1. discriminate H1.
    - intros Heq. vm_compute in Heq. discriminate Heq.
    - vm_compute. reflexivity.
    - vm_compute. reflexivity. }
  split; [exact Hs |].
  apply (proj1 (daily_save_outcome (Some newbury_a) fresh_world)). exact Hs.
Defined.

Lemma daily_entry_follows_fetch_witness :
  let P := run_platform in
  let weather := default ∅ (result_of (get_comprehensive_weather "Newbury"
                                         (clock (tick fresh_world)))
                              (advance fresh_world)) in
  let w1 := state_after (get_comprehensive_weather "Newbury" (clock (tick fresh_world)))
              (advance fresh_world) in
  ∃ w2, DailyWeatherCollector.save_to_database
          (Some {| DailyWeatherCollector.vd_venue := "Newbury";
                   DailyWeatherCollector.vd_country := "UK";
                   DailyWeatherCollector.vd_weather := weather |}) w1 = (true, w2) ∧
        DailyWeatherCollector.collection_loop
          (("Newbury", {| lat := 0; lon := 0; country := "UK"; tz := "Europe/London" |})
           :: []) 0 0 fresh_world
        = DailyWeatherCollector.collection_loop [] 1 0 w2.
Proof.
  intros P weather w1. subst weather w1.
  apply (proj1 (daily_entry_follows_fetch "Newbury"
                  {| lat := 0; lon := 0; country := "UK"; tz := "Europe/London" |}
                  [] 0%nat 0%nat fresh_world)).
  - apply run_split_some. vm_compute. reflexivity.
  - vm_compute. reflexivity.
  - vm_compute. reflexivity.
Defined.

Lemma periodic_run_keeps_history_witness :
  let P := run_platform in
  let w' := state_after (DailyWeatherCollector.run_collection true) fresh_world in
  NoDup (daily_keys w') ∧
  (∀ k, k ∈ daily_keys fresh_world → k ∈ daily_keys w') ∧
  (length (tbl_rows (db fresh_world)) ≤ length (tbl_rows (db w')))%nat ∧
  (length (tbl_rows (db w')) ≤ length (tbl_rows (db fresh_world)) + 3)%nat.
Proof.
  intros P w'. subst w'.
  apply (periodic_run_keeps_history true fresh_world 3%nat 0%nat
           (state_after (DailyWeatherCollector.run_collection true) fresh_world)).
  - run_computed.
  - apply NoDup_nil_2.
Defined.

Lemma main_exit_code_witness :
  let P := run_platform in
  NoDup (daily_keys (DailyWeatherCollector.main true None 0).2) ∧
  (length (tbl_rows (db (DailyWeatherCollector.main true None 0).2))
   ≤ (DailyWeatherCollector.run_collection true
        {| tick := 0; db := DailyWeatherCollector.ensure_database None |}).1.1)%nat.
Proof.
  intros P.
  apply (proj2 (proj2 (proj2 (main_exit_code true None 0%nat)))).
  reflexivity.
Defined.

(** ** weather_collector.py: what is stored, and when *)

Section RacePersistence.
Context `{Platform}.
Import WeatherCollector.

Lemma race_written_weather rd t c k :
  (c, k) ∈ WEATHER_FIELDS →
  col (row_of insert_columns (insert_values rd t)) c
  = bind_param (dict_get (rd_weather rd) k).
Proof.
  intros Hin. unfold col, row_of. rewrite lookup_list_to_map_assoc.
  unfold WEATHER_FIELDS in Hin.
  repeat (apply elem_of_cons in Hin as [Heq|Hin];
          [inversion Heq; subst c k; reflexivity |]).
  by apply elem_of_nil in Hin.
Qed.

Lemma save_weather_update_true rd w0 w1 :
  save_weather_update (Some rd) w0 = (true, w1) →
  rd_weather rd ≠ ∅ ∧ dict_get (rd_weather rd) "fetched_at" ≠ PNone ∧
  has_free_rowid (db w0) = true.
Proof.
  intros Hs. split; [| split].
  - intros Hempty. unfold save_weather_update in Hs.
    rewrite bool_decide_eq_true_2 in Hs by done. discriminate Hs.
  - apply save_weather_update_inv in Hs as (conn' & Hins & _).
    apply sql_insert_abort_inv in Hins as (Hnn & _ & _).
    intros Hnone. apply not_true_iff_false in Hnn. apply Hnn.
    unfold violates_notnull. apply existsb_exists.
    exists {| col_name := "weather_fetched_at"; col_notnull := true |}. split.
    + unfold weather_updates. cbn [sch_columns].
      apply in_or_app. right. apply in_or_app. left.
      unfold weather_column_decls. apply list_elem_of_In.
      apply (list_elem_of_fmap_2' _ _ "weather_fetched_at"); [| reflexivity].
      apply (bool_decide_unpack _). vm_compute. exact I.
    + cbn [col_name col_notnull andb]. apply bool_decide_eq_true.
      rewrite (race_written_weather rd _ "weather_fetched_at" "fetched_at").
      * by rewrite Hnone.
      * apply (bool_decide_unpack _). vm_compute. exact I.
  - apply save_weather_update_inv in Hs as (conn' & Hins & _).
    by eapply sql_insert_free_rowid.
Qed.

Lemma save_weather_update_false race_data w0 w1 :
  save_weather_update race_data w0 = (false, w1) → db w1 = db w0.
Proof.
  unfold save_weather_update. destruct race_data as [rd|]; [| by intros [= <-]].
  destruct (bool_decide (rd_weather rd = ∅)); [by intros [= <-] |].
  unfold bind, now, get_db, put_db, ret, advance. cbn [tick db].
  destruct (sql_insert _ _ _ _ _); [intros [=] | by intros [= <-]].
Qed.

(** X15.  The outcome of a write to the race-linked table.  It returns
    [True] only for a record that is not empty and has a fetch time, and
    only while the table has a row id left; and it returns [True] for
    every such record whose bound numbers are within the signed 64-bit
    range, whatever rows the table holds (no constraint can refuse the
    row).  When it returns [False] the table is as it was. *)
Theorem race_save_outcome race_data w0 :
  (result_of (save_weather_update race_data) w0 = true →
   ∃ rd, race_data = Some rd ∧ rd_weather rd ≠ ∅ ∧
         dict_get (rd_weather rd) "fetched_at" ≠ PNone ∧
         has_free_rowid (db w0) = true) ∧
  (∀ rd, race_data = Some rd → rd_weather rd ≠ ∅ →
         dict_get (rd_weather rd) "fetched_at" ≠ PNone →
         int64_record (rd_weather rd) = true →
         has_free_rowid (db w0) = true →
         result_of (save_weather_update race_data) w0 = true) ∧
  (result_of (save_weather_update race_data) w0 = false →
   db (state_after (save_weather_update race_data) w0) = db w0).
Proof.
  unfold result_of, state_after.
  destruct (save_weather_update race_data w0) as [saved w1] eqn:Hs. cbn [fst snd].
  split; [| split].
  - intros ->. destruct race_data as [rd|]; [| discriminate Hs].
    exists rd. split; [done |]. by eapply save_weather_update_true.
  - intros rd -> Hne Hf _ Hfree.
    destruct (save_weather_update_succeeds rd w0 Hne Hf Hfree) as [w1' Hs'].
    rewrite Hs' in Hs. by inversion Hs.
  - intros ->. by eapply save_weather_update_false.
Qed.

(** Collecting a race of a catalog venue is fetching the venue at the
    race's start. *)
Lemma collect_weather_for_race_fetch race race_datetime w0 :
  fromisoformat (race_iso race) = Some race_datetime →
  venue race ∈ fst <$> VENUE_COORDS →
  collect_weather_for_race race w0 =
  (Return ((λ weather, {| rd_market_id := market_id race; rd_venue := venue race;
                          rd_race_date := race_date race;
                          rd_race_time := race_time race;
                          rd_weather := weather |})
             <$> (get_comprehensive_weather (venue race) race_datetime w0).1),
   (get_comprehensive_weather (venue race) race_datetime w0).2).
Proof.
  intros Hdt Hv. unfold collect_weather_for_race. rewrite Hdt.
  rewrite bool_decide_eq_false_2 by (by intros ?). unfold bind at 1.
  destruct (get_comprehensive_weather (venue race) race_datetime w0)
    as [[weather|] w1] eqn:Hg; cbn [fst snd fmap option_fmap option_map]; [| reflexivity].
  destruct (fetched_record_storable _ _ _ _ _ Hg) as (Hne & _).
  by rewrite bool_decide_eq_false_2.
Qed.

(** X16.  One turn of the scheduled loop, for a race whose date and
    time parse and whose venue is in the catalog.  The venue is fetched at
    the race's start.  When the fetch returns a record whose bound numbers
    are within the signed 64-bit range (and the table has a row id left),
    that record is written and the race counts as a success; when the
    fetch returns nothing, the race counts as a failure. *)
Theorem race_entry_follows_fetch race race_datetime rest s f w0 :
  fromisoformat (race_iso race) = Some race_datetime →
  venue race ∈ fst <$> VENUE_COORDS →
  (∀ weather w1,
     get_comprehensive_weather (venue race) race_datetime w0 = (Some weather, w1) →
     int64_record weather = true →
     has_free_rowid (db w0) = true →
     ∃ w2, save_weather_update
             (Some {| rd_market_id := market_id race; rd_venue := venue race;
                      rd_race_date := race_date race;
                      rd_race_time := race_time race;
                      rd_weather := weather |}) w1 = (true, w2) ∧
           collection_loop (race :: rest) s f w0 = collection_loop rest (S s) f w2) ∧
  (∀ w1,
     get_comprehensive_weather (venue race) race_datetime w0 = (None, w1) →
     collection_loop (race :: rest) s f w0 = collection_loop rest s (S f) w1).
Proof.
  intros Hdt Hv.
  pose proof (collect_weather_for_race_fetch race race_datetime w0 Hdt Hv) as Hc.
  split.
  - intros weather w1 Hg _ Hfree.
    pose proof (fetch_keeps_db (venue race) race_datetime w0) as Hdb.
    rewrite Hg in Hdb. cbn [snd] in Hdb. rewrite <- Hdb in Hfree.
    rewrite Hg in Hc.
    cbn [fst snd fmap option_fmap option_map] in Hc.
    rewrite (race_loop_step _ rest s f _ _ _ Hc).
    destruct (fetched_record_storable _ _ _ _ _ Hg) as (Hne & Hf & _).
    destruct (save_weather_update_succeeds
                {| rd_market_id := market_id race; rd_venue := venue race;
                   rd_race_date := race_date race; rd_race_time := race_time race;
                   rd_weather := weather |} w1 Hne Hf Hfree) as [w2 Hs].
    exists w2. split; [exact Hs |]. by rewrite Hs.
  - intros w1 Hg. rewrite Hg in Hc.
    cbn [fst snd fmap option_fmap option_map] in Hc.
    by rewrite (race_loop_step _ rest s f _ _ _ Hc).
Qed.

(** *** The table over a whole run *)

Lemma collect_weather_for_race_db race w :
  db (collect_weather_for_race race w).2 = db w.
Proof.
  unfold collect_weather_for_race.
  destruct (fromisoformat (race_iso race)) as [dt|]; [| reflexivity].
  destruct (bool_decide (venue race ∉ fst <$> VENUE_COORDS)); [reflexivity |].
  unfold bind. pose proof (fetch_keeps_db (venue race) dt w) as Hdb.
  destruct (get_comprehensive_weather (venue race) dt w) as [[weather|] w1];
    cbn [snd] in Hdb; [| exact Hdb].
  destruct (bool_decide (weather = ∅)); exact Hdb.
Qed.

Lemma save_weather_update_appends rd w0 w1 :
  save_weather_update (Some rd) w0 = (true, w1) →
  ∃ r, tbl_rows (db w1) = tbl_rows (db w0) ++ [r] ∧
       row_id r = next_rowid (db w0) ∧
       (next_rowid (db w0) < next_rowid (db w1))%Z.
Proof.
  intros (conn' & Hins & ->)%save_weather_update_inv.
  apply sql_insert_abort_inv in Hins as (_ & _ & ->). cbn [db tbl_rows].
  eexists. split; [reflexivity |]. cbn [row_id]. split; [reflexivity |].
  unfold next_rowid at 2. cbn [tbl_seq tbl_rows]. lia.
Qed.

Lemma race_loop_appends upcoming : ∀ s f w r w',
  collection_loop upcoming s f w = (r, w') →
  ∃ added,
    tbl_rows (db w') = tbl_rows (db w) ++ added ∧
    (∀ s' f', r = Return (s', f') → s' = (s + length added)%nat) ∧
    Forall (λ x, (next_rowid (db w) ≤ row_id x)%Z) added ∧
    StronglySorted (λ a b, (row_id a < row_id b)%Z) added.
Proof.
  induction upcoming as [|race rest IH]; intros s f w r w' Hrun.
  - cbn in Hrun. inversion Hrun; subst. exists []. rewrite app_nil_r.
    split; [done |]. split; [| split; constructor].
    intros s' f' [= <- <-]. cbn. lia.
  - pose proof (collect_weather_for_race_db race w) as Hdb.
    destruct (collect_weather_for_race race w) as [[|race_data] w1] eqn:Hc;
      cbn [snd] in Hdb.
    + rewrite (race_loop_raise _ _ _ _ _ _ Hc) in Hrun. inversion Hrun; subst.
      exists []. rewrite app_nil_r. split; [by rewrite Hdb |].
      split; [discriminate |]. split; constructor.
    + rewrite (race_loop_step _ _ _ _ _ _ _ Hc) in Hrun.
      destruct race_data as [rd|].
      * destruct (save_weather_update (Some rd) w1) as [[|] w2] eqn:Hs.
        -- destruct (save_weather_update_appends _ _ _ Hs) as (new & Hrows & Hid & Hnext).
           apply IH in Hrun as (added & Hrows' & Hcount & Hfresh & Hsorted).
           rewrite Hdb in *. exists (new :: added). split.
           { rewrite Hrows', Hrows, <- app_assoc. reflexivity. }
           split.
           { intros s' f' Hr. rewrite (Hcount _ _ Hr). cbn [length]. lia. }
           split.
           { constructor; [lia |]. eapply Forall_impl; [exact Hfresh |].
             cbn beta. intros x Hx. lia. }
           constructor; [exact Hsorted |].
           eapply Forall_impl; [exact Hfresh |]. cbn beta. intros x Hx. lia.
        -- apply save_weather_update_false in Hs.
           apply IH in Hrun as (added & Hrows' & Hcount & Hfresh & Hsorted).
           rewrite Hs, Hdb in *. exists added. done.
      * apply IH in Hrun as (added & Hrows' & Hcount & Hfresh & Hsorted).
        rewrite Hdb in *. exists added. done.
Qed.

Lemma load_race_schedule_db config w : db (load_race_schedule config w).2 = db w.
Proof. destruct config; reflexivity. Qed.

(** The filter to upcoming races, as a filter. *)
Lemma upcoming_races_filter races t cutoff :
  upcoming_races races t cutoff =
  if forallb comparable races then Return (List.filter (in_window t cutoff) races)
  else Raise.
Proof.
  induction races as [|race rest IH]; [reflexivity |].
  cbn [upcoming_races forallb List.filter]. unfold comparable at 1, in_window at 1.
  destruct (fromisoformat (race_iso race)) as [dt|].
  - rewrite (bool_decide_eq_true_2 (is_Some (Some dt))) by eauto.
    destruct (tz_aware (race_iso race)); cbn [andb negb]; [reflexivity |].
    rewrite IH. destruct (forallb comparable rest); [| reflexivity].
    by destruct (bool_decide _).
  - rewrite (bool_decide_eq_false_2 (is_Some None)) by (by intros [? ?]).
    reflexivity.
Qed.

Lemma comparable_spec race :
  comparable race = true ↔
  is_Some (fromisoformat (race_iso race)) ∧ tz_aware (race_iso race) = false.
Proof.
  unfold comparable. rewrite andb_true_iff, bool_decide_eq_true, negb_true_iff. done.
Qed.

Lemma forallb_comparable races :
  forallb comparable races = true ↔
  ∀ race, race ∈ races →
    is_Some (fromisoformat (race_iso race)) ∧ tz_aware (race_iso race) = false.
Proof.
  rewrite forallb_forall. split.
  - intros Hall race Hin. apply list_elem_of_In in Hin.
    by apply comparable_spec, Hall.
  - intros Hall race Hin. apply list_elem_of_In in Hin.
    by apply comparable_spec, Hall.
Qed.

Lemma forallb_comparable_false races :
  forallb comparable races = false ↔
  ∃ race, race ∈ races ∧
    (fromisoformat (race_iso race) = None ∨ tz_aware (race_iso race) = true).
Proof.
  induction races as [|a rest IH]; cbn [forallb].
  - split; [discriminate | by intros (? & ?%elem_of_nil & _)].
  - rewrite andb_false_iff, IH. split.
    + intros [Hp | (race & Hin & Hn)].
      * exists a. split; [by left |].
        apply not_true_iff_false in Hp.
        destruct (fromisoformat (race_iso a)) eqn:E; [| by left].
        destruct (tz_aware (race_iso a)) eqn:E'; [by right |].
        destruct Hp. apply comparable_spec. rewrite E. eauto.
      * exists race. split; [by right | done].
    + intros (race & [->|Hin]%elem_of_cons & Hn).
      * left. apply not_true_iff_false. intros [[dt Hdt] Haw]%comparable_spec.
        destruct Hn as [Hn|Hn]; congruence.
      * right. eauto.
Qed.

Lemma filter_in_window_parsed t cutoff races :
  Forall (λ race, is_Some (fromisoformat (race_iso race)))
    (List.filter (in_window t cutoff) races).
Proof.
  apply Forall_forall. intros race Hin%list_elem_of_In%filter_In.
  destruct Hin as [_ Hw]. unfold in_window in Hw.
  destruct (fromisoformat (race_iso race)); [eauto | discriminate].
Qed.

(** The four ways a run ends. *)
Lemma run_collection_cases config w :
  let races := (load_race_schedule config w).1 in
  let w1 := (load_race_schedule config w).2 in
  let kept := kept_races (clock (tick w1)) races in
  run_collection config w =
  if bool_decide (races = []) then (Return NoRaces, w1)
  else if negb (forallb comparable races) then (Raise, advance w1)
  else if bool_decide (kept = []) then (Return NoUpcoming, advance w1)
  else
    let loop := collection_loop kept 0 0 (advance w1) in
    (match loop.1 with
     | Raise => Raise
     | Return (s, f) => Return (Summary s f)
     end, loop.2).
Proof.
  intros races w1 kept. unfold run_collection. unfold bind at 1.
  subst races w1 kept. destruct (load_race_schedule config w) as [races w1].
  cbn [fst snd]. destruct races as [|race0 races]; [reflexivity |].
  rewrite bool_decide_eq_false_2 by discriminate.
  unfold bind at 1, now at 1. cbn [fst snd]. rewrite upcoming_races_filter.
  unfold kept_races.
  destruct (forallb comparable (race0 :: races)); cbn [negb]; [| reflexivity].
  destruct (List.filter _ (race0 :: races)) as [|u upcoming]; [reflexivity |].
  rewrite bool_decide_eq_false_2 by discriminate. unfold bind.
  destruct (collection_loop (u :: upcoming) 0 0 (advance w1)) as [[|[s f]] w2];
    reflexivity.
Qed.

(** X17.  How a scheduled run ends, for the schedule [races] it loaded
    (the entries of the schedule file, or the demo schedule when there is
    no file) and the entries [kept] that start within 48 hours of its
    clock reading, both ends included.  It returns without a summary when the
    schedule is empty.  An entry whose date or time does not parse, or
    parses to an offset-aware value that cannot be compared with the
    clock, raises out of the run, also when the entry would not be kept.
    With nothing kept the run stops; otherwise it prints a summary whose
    two counts add up to the number of kept entries.  Only a run that
    prints a summary can have written to the table. *)
Theorem scheduled_run_outcome config w :
  let races := (load_race_schedule config w).1 in
  let w1 := (load_race_schedule config w).2 in
  let kept := kept_races (clock (tick w1)) races in
  let r := (run_collection config w).1 in
  let w' := (run_collection config w).2 in
  let all_comparable :=
    ∀ race, race ∈ races →
      is_Some (fromisoformat (race_iso race)) ∧ tz_aware (race_iso race) = false in
  (r = Return NoRaces ↔ races = []) ∧
  (r = Raise ↔
     races ≠ [] ∧
     ∃ race, race ∈ races ∧
       (fromisoformat (race_iso race) = None ∨ tz_aware (race_iso race) = true)) ∧
  (r = Return NoUpcoming ↔ races ≠ [] ∧ all_comparable ∧ kept = []) ∧
  ((∃ s f, r = Return (Summary s f)) ↔ races ≠ [] ∧ all_comparable ∧ kept ≠ []) ∧
  (∀ s f, r = Return (Summary s f) → (s + f = length kept)%nat) ∧
  ((∀ s f, r ≠ Return (Summary s f)) → db w' = db w).
Proof.
  intros races w1 kept r w' all_comparable. subst r w' all_comparable.
  rewrite (run_collection_cases config w). fold races w1 kept.
  pose proof (load_race_schedule_db config w) as Hdb. fold w1 in Hdb.
  pose proof (forallb_comparable races) as Hparse.
  pose proof (forallb_comparable_false races) as Hbad.
  case_bool_decide as Hnil.
  { cbn [fst snd]. split; [done |]. split; [split; [discriminate | by intros [? _]] |].
    split; [split; [discriminate | by intros [? _]] |].
    split; [split; [by intros (? & ? & [=]) | by intros [? _]] |].
    split; [discriminate | done]. }
  destruct (forallb comparable races) eqn:Hall; cbn [negb].
  - assert (Hgood := proj1 Hparse eq_refl).
    assert (Hnobad : ¬ ∃ race, race ∈ races ∧
              (fromisoformat (race_iso race) = None ∨ tz_aware (race_iso race) = true)).
    { intros Hex. apply Hbad in Hex. discriminate. }
    case_bool_decide as Hkept.
    + cbn [fst snd]. split; [split; [discriminate | done] |].
      split; [split; [discriminate | by intros [_ ?]] |].
      split; [done |].
      split; [split; [by intros (? & ? & [=]) | by intros (_ & _ & ?)] |].
      split; [discriminate | by rewrite <- Hdb].
    + pose proof (filter_in_window_parsed (clock (tick w1))
                    (clock (tick w1) + timedelta_hours 48)%Z races) as Hp.
      fold (kept_races (clock (tick w1)) races) in Hp. fold kept in Hp.
      destruct (race_loop_returns kept 0 0 (advance w1) Hp) as (s & f & w2 & Hl).
      pose proof (race_loop_tally _ _ _ _ _ _ _ Hl) as Ht.
      rewrite Hl. cbn [fst snd].
      split; [split; [discriminate | done] |].
      split; [split; [discriminate | by intros [_ ?]] |].
      split; [split; [discriminate | by intros (_ & _ & ?)] |].
      split; [split; [done | by eauto] |].
      split; [intros s' f' [= <- <-]; lia |].
      intros Hno. by destruct (Hno s f).
  - assert (Hex := proj1 Hbad eq_refl). cbn [fst snd].
    split; [split; [discriminate | done] |].
    split; [done |].
    assert (Hnot : ¬ ∀ race, race ∈ races →
              is_Some (fromisoformat (race_iso race)) ∧ tz_aware (race_iso race) = false).
    { intros Hgood. apply Hparse in Hgood. discriminate. }
    split; [split; [discriminate | by intros (_ & ? & _)] |].
    split; [split; [by intros (? & ? & [=]) | by intros (_ & ? & _)] |].
    split; [discriminate | by rewrite <- Hdb].
Qed.

(** X18.  The race-linked table is append-only.  A run leaves the rows
    it found as they were and in place, and appends one row for each
    success of its summary; each appended row has an id above those of all
    rows before it. *)
Theorem scheduled_run_appends config w r w' :
  run_collection config w = (r, w') →
  ∃ added,
    tbl_rows (db w') = tbl_rows (db w) ++ added ∧
    (∀ s f, r = Return (Summary s f) → length added = s) ∧
    (∀ old new, old ∈ tbl_rows (db w) → new ∈ added → (row_id old < row_id new)%Z) ∧
    StronglySorted (λ a b, (row_id a < row_id b)%Z) added.
Proof.
  rewrite (run_collection_cases config w).
  pose proof (load_race_schedule_db config w) as Hdb.
  destruct (load_race_schedule config w) as [races w1]. cbn [fst snd] in *.
  assert (Hnone : ∀ r0 w0, db w0 = db w → (∀ s f, r0 ≠ Return (Summary s f)) →
    (r0, w0) = (r, w') →
    ∃ added,
      tbl_rows (db w') = tbl_rows (db w) ++ added ∧
      (∀ s f, r = Return (Summary s f) → length added = s) ∧
      (∀ old new, old ∈ tbl_rows (db w) → new ∈ added → (row_id old < row_id new)%Z) ∧
      StronglySorted (λ a b, (row_id a < row_id b)%Z) added).
  { intros r0 w0 Hw0 Hr0 [= <- <-]. exists []. rewrite app_nil_r, Hw0.
    split; [done |]. split; [by intros s f ?%Hr0 |].
    split; [by intros old new _ ?%elem_of_nil | constructor]. }
  case_bool_decide; [by apply Hnone |].
  destruct (negb _); [by apply Hnone |].
  case_bool_decide; [by apply Hnone |].
  destruct (collection_loop _ 0 0 (advance w1)) as [r0 w2] eqn:Hl. cbn [fst snd].
  intros [= <- <-].
  apply race_loop_appends in Hl as (added & Hrows & Hcount & Hfresh & Hsorted).
  cbn [db advance] in Hrows, Hfresh. rewrite Hdb in Hrows, Hfresh.
  exists added. split; [done |]. split.
  - destruct r0 as [|[s0 f0]]; [discriminate |]. intros s f [= <- <-].
    by rewrite (Hcount s0 f0 eq_refl).
  - split; [| done]. intros old new Hold Hnew.
    apply next_rowid_fresh in Hold. rewrite Forall_forall in Hfresh.
    specialize (Hfresh _ Hnew). lia.
Qed.
End RacePersistence.

Lemma race_save_outcome_witness :
  let P := run_platform in
  result_of (WeatherCollector.save_weather_update (Some race_update)) fresh_world = true ∧
  ∃ rd, Some race_update = Some rd ∧ WeatherCollector.rd_weather rd ≠ ∅ ∧
        dict_get (WeatherCollector.rd_weather rd) "fetched_at" ≠ PNone ∧
        has_free_rowid (db fresh_world) = true.
Proof.
  intros P.
  assert (Hs : result_of (WeatherCollector.save_weather_update (Some race_update))
                 fresh_world = true).
  { apply (proj1 (proj2 (race_save_outcome (Some race_update) fresh_world)) race_update).
    - reflexivity.
    - intros Heq.
      assert (H1 : WeatherCollector.rd_weather race_update !! "fetched_at" = None)
        by (rewrite Heq; apply lookup_empty).
      vm_compute in H1. discriminate H1.
    - intros Heq. vm_compute in Heq. discriminate Heq.
    - vm_compute. reflexivity.
    - vm_compute. reflexivity. }
  split; [exact Hs |].
  apply (proj1 (race_save_outcome (Some race_update) fresh_world)). exact Hs.
Defined.

Lemma race_entry_follows_fetch_witness :
  let P := run_platform in
  let weather := default ∅ (result_of (get_comprehensive_weather
                                         (WeatherCollector.venue race_newbury)
                                         (hours_us 4 30)) fresh_world) in
  let w1 := state_after (get_comprehensive_weather (WeatherCollector.venue race_newbury)
                           (hours_us 4 30)) fresh_world in
  ∃ w2, WeatherCollector.save_weather_update
          (Some {| WeatherCollector.rd_market_id := WeatherCollector.market_id race_newbury;
                   WeatherCollector.rd_venue := WeatherCollector.venue race_newbury;
                   WeatherCollector.rd_race_date := WeatherCollector.race_date race_newbury;
                   WeatherCollector.rd_race_time := WeatherCollector.race_time race_newbury;
                   WeatherCollector.rd_weather := weather |}) w1 = (true, w2) ∧
        WeatherCollector.collection_loop (race_newbury :: []) 0 0 fresh_world
        = WeatherCollector.collection_loop [] 1 0 w2.
Proof.
  intros P weather w1. subst weather w1.
  apply (proj1 (@race_entry_follows_fetch P race_newbury (hours_us 4 30) [] 0%nat 0%nat
                  fresh_world ltac:(vm_compute; reflexivity)
                  ltac:(apply (bool_decide_unpack _); vm_compute; exact I))).
  - apply run_split_some. vm_compute. reflexivity.
  - vm_compute. reflexivity.
  - vm_compute. reflexivity.
Defined.

Lemma scheduled_run_outcome_witness :
  let P := run_platform in
  (2 + 1 = length (kept_races
                     (clock (tick (WeatherCollector.load_race_schedule
                                     (Some sample_schedule) fresh_world).2))
                     (WeatherCollector.load_race_schedule
                        (Some sample_schedule) fresh_world).1))%nat.
Proof.
  intros P.
  apply (proj1 (proj2 (proj2 (proj2 (proj2
           (scheduled_run_outcome (Some sample_schedule) fresh_world))))) 2%nat 1%nat).
  vm_compute. reflexivity.
Defined.

Lemma scheduled_run_appends_witness :
  let P := run_platform in
  ∃ added,
    tbl_rows (db (state_after (WeatherCollector.run_collection (Some sample_schedule))
                    fresh_world))
    = tbl_rows (db fresh_world) ++ added ∧
    (∀ s f, Return (WeatherCollector.Summary 2 1) = Return (WeatherCollector.Summary s f) →
            length added = s) ∧
    (∀ old new, old ∈ tbl_rows (db fresh_world) → new ∈ added →
                (row_id old < row_id new)%Z) ∧
    StronglySorted (λ a b, (row_id a < row_id b)%Z) added.
Proof.
  intros P.
  apply (scheduled_run_appends (Some sample_schedule) fresh_world
           (Return (WeatherCollector.Summary 2 1))
           (state_after (WeatherCollector.run_collection (Some sample_schedule))
              fresh_world)).
  run_computed.
Defined.
